(** * Writeback actions: dispatch, validation contracts and enablement gate

    A shallow embedding of [metabase.actions] (src/metabase/actions.clj) and
    of the condition-rule evaluator of the SmartScalar visualization.

    Clojure is dynamically typed, so the embedding works over one universe of
    Clojure values.  Functions carry their declared parameter count and are
    applied to argument lists, as the Clojure runtime does: applying a
    function to the wrong number of arguments is an [ArityException]. *)

From Stdlib Require Import String Ascii List ZArith Bool Lia.
From ExtLib Require Import Structures.Monad.
Import ListNotations.
Import MonadNotation.
Local Open Scope string_scope.
Local Open Scope Z_scope.
Local Open Scope monad_scope.
Set Warnings "-register-all".

(** ** Clojure values *)

(** A keyword is a namespace (empty when unqualified) and a name:
    [:row/create] is [VKw "row" "create"], [:database] is [VKw EmptyString "database"].
    Maps are association lists from keys to values; a map built by the
    Clojure reader has no repeated key.  These are the values a decoded
    request body is made of (arrays decode to vectors). *)
Inductive value : Type :=
| VNil
| VBool (b : bool)
| VInt (z : Z)
| VStr (s : string)
| VKw (ns name : string)
| VVec (items : list value)
| VMap (entries : list (value * value)).

Definition kw (name : string) : value := VKw EmptyString name.

Definition is_kw (ns name : string) (k : value) : bool :=
  match k with
  | VKw ns' name' => String.eqb ns ns' && String.eqb name name'
  | _ => false
  end.

(** [(get m k)] for a keyword [k]: the value under [k] when [m] is a map
    holding [k], and [nil] otherwise (also when [m] is [nil] or not a map). *)
Fixpoint assoc_get (ns name : string) (es : list (value * value)) : option value :=
  match es with
  | [] => None
  | (k, v) :: es' => if is_kw ns name k then Some v else assoc_get ns name es'
  end.

Definition find_kw (ns name : string) (m : value) : option value :=
  match m with
  | VMap es => assoc_get ns name es
  | _ => None
  end.

(** [(find m k)] for an unqualified keyword [k]. *)
Definition lookup (m : value) (name : string) : option value :=
  find_kw EmptyString name m.

Definition get_kw (m : value) (name : string) : value :=
  match lookup m name with
  | Some v => v
  | None => VNil
  end.

(** [(contains? m k)] for a map [m] and a keyword [k]. *)
Definition contains_kw (es : list (value * value)) (ns name : string) : bool :=
  match assoc_get ns name es with
  | Some _ => true
  | None => false
  end.

(** [(assoc m k v)] for a keyword [k]: replaces the entry in place or adds one;
    [m] is the list of entries of the map. *)
Fixpoint assoc_put (ns name : string) (v : value) (es : list (value * value))
  : list (value * value) :=
  match es with
  | [] => [(VKw ns name, v)]
  | (k, x) :: es' =>
      if is_kw ns name k then (k, v) :: es' else (k, x) :: assoc_put ns name v es'
  end.

(** Splitting a string at its first slash, as [Symbol.intern] does when a
    keyword is made from a string: ["row/create"] has namespace ["row"] and
    name ["create"]; a string without a slash, and the string ["/"], have no
    namespace. *)
Fixpoint split_slash (s : string) : option (string * string) :=
  match s with
  | EmptyString => None
  | String c rest =>
      if Ascii.eqb c "/"%char then Some (EmptyString, rest)
      else match split_slash rest with
           | Some (ns, name) => Some (String c ns, name)
           | None => None
           end
  end.

(** [(keyword x)]: a keyword stays itself, a string is interned, anything
    else gives [nil]. *)
Definition keyword (x : value) : value :=
  match x with
  | VKw ns name => VKw ns name
  | VStr s =>
      if String.eqb s "/" then VKw EmptyString s
      else match split_slash s with
           | Some (ns, name) => VKw ns name
           | None => VKw EmptyString s
           end
  | _ => VNil
  end.

(** ** clojure.spec forms used by the validation contracts *)

(** The predicates the contracts are built from. *)
Inductive pred : Type := any_p | integer_p | pos_p | vector_p | keyword_p.

(** [pos?] is only ever reached behind [integer?] (inside [s/and], which
    stops at the first failing predicate), so its value on non-numbers, where
    Clojure raises, is never observed. *)
Definition pred_holds (p : pred) (v : value) : bool :=
  match p, v with
  | any_p, _ => true
  | integer_p, VInt _ => true
  | pos_p, VInt z => 0 <? z
  | vector_p, VVec _ => true
  | keyword_p, VKw _ _ => true
  | _, _ => false
  end.

(** [(s/invalid? v)]: [s/conform] answers the keyword
    [:clojure.spec.alpha/invalid] for a value that does not conform, so a
    value that is this keyword itself never counts as conforming. *)
Definition invalid_p (v : value) : bool := is_kw "clojure.spec.alpha" "invalid" v.

(** A spec name is a qualified keyword, given as namespace and name. *)
Definition spec_name : Type := (string * string)%type.

(** The spec forms.  [s/keys] lists its required unqualified keys by the
    names of their specs, which are resolved in the registry when a map is
    validated; the other forms hold their operand specs.  [SForeign] stands
    for a spec that another namespace registered, given by the values it
    accepts. *)
Inductive spec : Type :=
| SPred (p : pred)
| SAnd (ss : list spec)
| SMerge (ss : list spec)
| SKeys (req_un : list spec_name)
| SMapOf (kspec vspec : spec)
| SCollOf (elem : spec)
| SForeign (accepts : value -> bool).

Definition registry_t : Type := list (spec_name * spec).

Definition name_eqb (a b : spec_name) : bool :=
  String.eqb (fst a) (fst b) && String.eqb (snd a) (snd b).

Fixpoint registry_get (reg : registry_t) (n : spec_name) : option spec :=
  match reg with
  | [] => None
  | (n', s) :: reg' => if name_eqb n n' then Some s else registry_get reg' n
  end.

(** The spec a key of a map is checked against by [s/keys]: an unqualified
    key named like one of the [:req-un] specs is checked against that spec;
    any other key is checked against the spec registered under the key
    itself, when there is one.  [s/def] registers qualified names only, so
    an unqualified key that is no [:req-un] key has no spec. *)
Fixpoint req_un_spec_name (req_un : list spec_name) (name : string) : option spec_name :=
  match req_un with
  | [] => None
  | n :: rest => if String.eqb (snd n) name then Some n else req_un_spec_name rest name
  end.

Definition key_spec (reg : registry_t) (req_un : list spec_name) (k : value) : option spec :=
  match k with
  | VKw ns name =>
      if String.eqb ns EmptyString
      then match req_un_spec_name req_un name with
           | Some n => registry_get reg n
           | None => None
           end
      else registry_get reg (ns, name)
  | _ => None
  end.

Section Validity.

Variable reg : registry_t.

(** A spec applied to a map entry [[k v]] seen as an element of a
    collection (an entry is a two-element vector, and not a map). *)
Fixpoint entry_valid (vk vv : spec -> bool) (e : value) (s : spec) : bool :=
  match s with
  | SPred p => pred_holds p e && negb (invalid_p e)
  | SAnd ss => forallb (entry_valid vk vv e) ss && negb (invalid_p e)
  | SMerge ss => forallb (entry_valid vk vv e) ss
  | SKeys _ => false
  | SMapOf _ _ => false
  | SCollOf elem => vk elem && vv elem
  | SForeign accepts => accepts e
  end.

(** [(not (s/invalid? (s/conform spec v)))].  With the forms of this
    namespace a value that conforms is conformed to itself, so [s/conform]
    answers [v] or [:clojure.spec.alpha/invalid] and only that choice is
    kept.  A predicate spec conforms [v] to [v] when the predicate holds, so
    it refuses the keyword [:clojure.spec.alpha/invalid] whatever the
    predicate says of it, [any?] and [keyword?] included; [s/and] hands on
    the value it got; [s/keys], [s/map-of] and [s/coll-of] check every entry
    or element with [s/invalid?]. *)
Fixpoint valid (v : value) {struct v} : spec -> bool :=
  fix go (s : spec) {struct s} : bool :=
    match s with
    | SPred p => pred_holds p v && negb (invalid_p v)
    | SAnd ss => forallb go ss && negb (invalid_p v)
    | SMerge ss => forallb go ss
    | SKeys req_un =>
        match v with
        | VMap es =>
            forallb (fun n => contains_kw es EmptyString (snd n)) req_un
            && forallb (fun e => match key_spec reg req_un (fst e) with
                                 | Some s' => valid (snd e) s'
                                 | None => true
                                 end) es
        | _ => false
        end
    | SMapOf kspec vspec =>
        match v with
        | VMap es => forallb (fun e => valid (fst e) kspec && valid (snd e) vspec) es
        | _ => false
        end
    | SCollOf elem =>
        match v with
        | VVec items => forallb (fun x => valid x elem) items
        | VMap es =>
            forallb (fun e => entry_valid (valid (fst e)) (valid (snd e))
                                (VVec [fst e; snd e]) elem) es
        | _ => false
        end
    | SForeign accepts => accepts v
    end.

End Validity.

(** ** The validation contracts of the actions (the [s/def] forms) *)

Definition actions_args_id : spec := SAnd [SPred integer_p; SPred pos_p].

Definition crud_common_database : spec := actions_args_id.

Definition crud_common_query_source_table : spec := actions_args_id.

Definition crud_common_query : spec :=
  SKeys [("actions.args.crud.common.query", "source-table")].

Definition crud_common : spec :=
  SKeys [("actions.args.crud.common", "database");
         ("actions.args.crud.common", "query")].

Definition row_create_create_row : spec := SMapOf (SPred keyword_p) (SPred any_p).

Definition row_create : spec :=
  SMerge [crud_common; SKeys [("actions.args.crud.row.create", "create-row")]].

Definition row_update_query_filter : spec := SPred vector_p.

Definition row_update_query : spec :=
  SMerge [crud_common_query; SKeys [("actions.args.crud.row.update.query", "filter")]].

Definition row_update_update_row : spec := SMapOf (SPred keyword_p) (SPred any_p).

Definition row_update : spec :=
  SMerge [crud_common;
          SKeys [("actions.args.crud.row.update", "update-row");
                 ("actions.args.crud.row.update", "query")]].

Definition row_delete_query_filter : spec := SPred vector_p.

Definition row_delete_query : spec :=
  SMerge [crud_common_query; SKeys [("actions.args.crud.row.delete.query", "filter")]].

Definition row_delete : spec :=
  SMerge [crud_common; SKeys [("actions.args.crud.row.delete", "query")]].

Definition bulk_delete : spec := SCollOf row_delete.

(** The specs this namespace registers. *)
Definition registry : registry_t :=
  [ (("actions.args", "id"), actions_args_id);
    (("actions.args.crud.common", "database"), crud_common_database);
    (("actions.args.crud.common.query", "source-table"), crud_common_query_source_table);
    (("actions.args.crud.common", "query"), crud_common_query);
    (("actions.args.crud", "common"), crud_common);
    (("actions.args.crud.row.create", "create-row"), row_create_create_row);
    (("actions.args.crud", "row.create"), row_create);
    (("actions.args.crud.row.update.query", "filter"), row_update_query_filter);
    (("actions.args.crud.row.update", "query"), row_update_query);
    (("actions.args.crud.row.update", "update-row"), row_update_update_row);
    (("actions.args.crud", "row.update"), row_update);
    (("actions.args.crud.row.delete.query", "filter"), row_delete_query_filter);
    (("actions.args.crud.row.delete", "query"), row_delete_query);
    (("actions.args.crud", "row.delete"), row_delete);
    (("actions.args.crud", "bulk.delete"), bulk_delete) ].

(** The specs other namespaces registered, each under its name and given by
    the values it accepts. *)
Definition foreign_specs : Type := list (spec_name * (value -> bool)).

(** The global spec registry once the namespace is loaded: its own specs,
    which [s/def] put under their names whatever was there before, and the
    specs registered elsewhere. *)
Definition loaded (elsewhere : foreign_specs) : registry_t :=
  (registry ++ map (fun e => (fst e, SForeign (snd e))) elsewhere)%list.

(** What [action-arg-map-spec] hands back: the predicate [any?] itself, or
    the name of a registered spec. *)
Inductive spec_ref : Type :=
| spec_fn (p : pred)
| spec_kw (n : spec_name).

Definition resolve (reg : registry_t) (r : spec_ref) : option spec :=
  match r with
  | spec_fn p => Some (SPred p)
  | spec_kw n => registry_get reg n
  end.

(** The documented shape of a row-family argument map. *)
Definition query_map (source_table : value) (filter : option value) : value :=
  VMap ((kw "source-table", source_table)
        :: match filter with Some f => [(kw "filter", f)] | None => [] end).

Definition mbql_rows (database query : value) (payload : list (value * value)) : value :=
  VMap ((kw "database", database) :: (kw "type", kw "query") :: (kw "query", query) :: payload).

Definition filter_51 (n : Z) : value :=
  VVec [kw "="; VVec [kw "field"; VInt 51; VNil]; VInt n].

(** ** Exceptions and results *)

(** Strings the code builds for messages, kept as the expressions that
    build them. *)
Inductive text : Type :=
| Lit (s : string)
| Tru (template : string) (args : list text)      (* i18n/tru *)
| Format (template : string) (args : list text)   (* format *)
| PrStr (v : value)                               (* pr-str *)
| PrStrSet (items : list value)                   (* pr-str of a set *)
| QualifiedName (v : value)                       (* u/qualified-name *)
| Shown (v : value)                               (* a value as message argument *)
| ExplainStr (r : spec_ref) (v : value).          (* s/explain-str *)

(** What can be thrown: the exceptions ([ArityException], [ex-info] and the
    other subclasses of [java.lang.Exception]), and the throwables that are
    no exceptions ([java.lang.Error] and its subclasses). *)
Inductive exn : Type :=
| ArityException (actual : nat) (fn_name : string)
| ExInfo (message : text) (data : value)
| JavaException (class : string) (message : text)
| JavaError (class : string) (message : text).

(** Is the throwable caught by [(catch Exception e ...)]? *)
Definition is_exception (e : exn) : bool :=
  match e with
  | JavaError _ _ => false
  | _ => true
  end.

Definition ex_message (e : exn) : text :=
  match e with
  | ArityException n f =>
      Format "Wrong number of args (%d) passed to: %s" [Shown (VInt (Z.of_nat n)); Lit f]
  | ExInfo m _ => m
  | JavaException _ m => m
  | JavaError _ m => m
  end.

Definition ex_data (e : exn) : value :=
  match e with
  | ExInfo _ d => d
  | _ => VNil
  end.

(** The [:status-code] of a failure, when its data carries one. *)
Definition status_code (e : exn) : option Z :=
  match lookup (ex_data e) "status-code" with
  | Some (VInt z) => Some z
  | _ => None
  end.

Inductive result (A : Type) : Type :=
| Return (a : A)
| Throw (e : exn).
Arguments Return {A} a.
Arguments Throw {A} e.

#[global] Instance Monad_result : Monad result := {
  ret := fun A (a : A) => Return a;
  bind := fun A B (r : result A) (k : A -> result B) =>
            match r with
            | Return a => k a
            | Throw e => Throw e
            end
}.

(** ** Functions with a declared parameter count *)

Fixpoint fn_type (A : Type) (n : nat) : Type :=
  match n with
  | O => A
  | S n' => value -> fn_type A n'
  end.

Record fn (A : Type) : Type := mk_fn {
  fn_name : string;
  params : nat;
  body : fn_type A params
}.
Arguments mk_fn {A} fn_name params body.
Arguments fn_name {A} f.
Arguments params {A} f.
Arguments body {A} f.

Fixpoint apply_fn {A : Type} (n : nat) : fn_type A n -> list value -> option A :=
  match n with
  | O => fun b args => match args with [] => Some b | _ :: _ => None end
  | S n' => fun f args =>
      match args with
      | a :: rest => apply_fn n' (f a) rest
      | [] => None
      end
  end.

(** Applying a function to arguments: the body runs when the argument count
    is the declared one, and the call raises [ArityException] otherwise. *)
Definition invoke {A : Type} (f : fn A) (args : list value) : result A :=
  match apply_fn (params f) (body f) args with
  | Some r => Return r
  | None => Throw (ArityException (length args) (fn_name f))
  end.

(** ** Multimethods *)

(** A multimethod has a dispatch function, a method table and the [isa?]
    relation of its hierarchy.  The method stored under [:default] is used
    when no key of the table matches the dispatch value. *)
Record multifn (A : Type) : Type := mk_multifn {
  multi_name : string;
  dispatch_fn : fn (result value);
  isa : value -> value -> bool;
  method_table : list (value * fn A)
}.
Arguments mk_multifn {A} multi_name dispatch_fn isa method_table.
Arguments multi_name {A} m.
Arguments dispatch_fn {A} m.
Arguments isa {A} m.
Arguments method_table {A} m.

(** Equality of the dispatch values of the action multimethods, which are
    keywords or [nil]. *)
Definition kw_eqb (a b : value) : bool :=
  match a, b with
  | VNil, VNil => true
  | VKw ns1 n1, VKw ns2 n2 => String.eqb ns1 ns2 && String.eqb n1 n2
  | _, _ => false
  end.

Definition default_key : value := kw "default".

(** [MultiFn.findAndCacheBestMethod]: among the keys the dispatch value
    [isa?], keep the dominating one; two matching keys of which neither
    dominates the other are an error; with no matching key the [:default]
    method is taken, and without one the call fails. *)
Fixpoint best_method {A : Type} (isa : value -> value -> bool) (name : string) (dv : value)
    (table : list (value * fn A)) (best : option (value * fn A))
  : result (option (value * fn A)) :=
  match table with
  | [] => Return best
  | (k, f) :: rest =>
      if isa dv k then
        let best' := match best with
                     | None => (k, f)
                     | Some (bk, bf) => if isa k bk then (k, f) else (bk, bf)
                     end in
        if isa (fst best') k then best_method isa name dv rest (Some best')
        else Throw (JavaException "java.lang.IllegalArgumentException"
                      (Format "Multiple methods in multimethod '%s' match dispatch value: %s -> %s and %s, and neither is preferred"
                         [Lit name; PrStr dv; PrStr k; PrStr (fst best')]))
      else best_method isa name dv rest best
  end.

Fixpoint table_get {A : Type} (key : value) (table : list (value * fn A)) : option (fn A) :=
  match table with
  | [] => None
  | (k, f) :: rest => if kw_eqb key k then Some f else table_get key rest
  end.

Definition get_method {A : Type} (m : multifn A) (dv : value) : result (fn A) :=
  match best_method (isa m) (multi_name m) dv (method_table m) None with
  | Throw e => Throw e
  | Return (Some (_, f)) => Return f
  | Return None =>
      match table_get default_key (method_table m) with
      | Some f => Return f
      | None => Throw (JavaException "java.lang.IllegalArgumentException"
                         (Format "No method in multimethod '%s' for dispatch value: %s"
                            [Lit (multi_name m); PrStr dv]))
      end
  end.

(** Calling a multimethod: the dispatch function is applied to the very
    arguments of the call, then the chosen method is. *)
Definition invoke_multi {A : Type} (m : multifn A) (args : list value) : result A :=
  d <- invoke (dispatch_fn m) args ;;
  dv <- d ;;
  f <- get_method m dv ;;
  invoke f args.

(** ** The world of one call *)

(** Calls made to the collaborators of the engine, in the order made. *)
Inductive event : Type :=
| SpecChecked (r : spec_ref) (arg_map : value)
| GlobalFlagRead
| ResourceLookup (id : value)
| CapabilityCheck (driver db : value)
| LocalFlagRead (bound : value)
| AuthorizationCheck
| MethodInvoked (args : list value).

(** [database_local_values] is the current binding of the dynamic variable
    [setting/*database-local-values*]; [store] is whatever the handlers
    write to; [trace] records the calls made so far. *)
Record world : Type := mk_world {
  database_local_values : value;
  store : value;
  trace : list event
}.

Definition M (A : Type) : Type := world -> result A * world.

#[global] Instance Monad_M : Monad M := {
  ret := fun A (a : A) (w : world) => (Return a, w);
  bind := fun A B (m : M A) (k : A -> M B) (w : world) =>
            match m w with
            | (Return a, w') => k a w'
            | (Throw e, w') => (Throw e, w')
            end
}.

Definition throw {A : Type} (e : exn) : M A := fun w => (Throw e, w).

Definition lift {A : Type} (r : result A) : M A := fun w => (r, w).

Definition log (ev : event) : M unit :=
  fun w => (Return tt,
            mk_world (database_local_values w) (store w) (trace w ++ [ev])).

(** The current binding of [setting/*database-local-values*]. *)
Definition bound_database_local_values : M value :=
  fun w => (Return (database_local_values w), w).

Definition when_ (c : bool) (m : M unit) : M unit := if c then m else ret tt.

Definition set_database_local_values (v : value) (w : world) : world :=
  mk_world v (store w) (trace w).

(** [(binding [setting/*database-local-values* v] body)]: the variable is
    bound for the extent of [body] and the previous binding is put back when
    [body] is left, whether by a value or by an exception. *)
Definition binding {A : Type} (v : value) (body : M A) : M A :=
  fun w =>
    let previous := database_local_values w in
    let '(r, w') := body (set_database_local_values v w) in
    (r, set_database_local_values previous w').

Definition truthy (v : value) : bool :=
  match v with
  | VNil | VBool false => false
  | _ => true
  end.

(** ** Collaborators *)

(** What the namespace calls and does not define: the settings, the resource
    store, the drivers with their hierarchy and methods, the current user,
    the query normalizer and the query schema. *)
Record env : Type := mk_env {
  (* the value of the setting [experimental-enable-actions] *)
  experimental_enable_actions : bool;
  (* the getter of the Database-local setting [database-enable-actions],
     as a function of the Database-local values bound when it is called *)
  database_enable_actions : value -> bool;
  (* [(Database id)]: the resource, or [nil] *)
  Database : value -> value;
  (* [(driver/database-supports? driver feature db)] *)
  database_supports : value -> value -> value -> result bool;
  (* [api/*current-user*] and [(api/check-superuser)] *)
  current_user : value;
  check_superuser : result value;
  (* [(driver/dispatch-on-initialized-driver driver)] and [isa?] in
     [driver/hierarchy], on the dispatch values of [perform-action!*] *)
  dispatch_on_initialized_driver : value -> result value;
  driver_isa : value -> value -> bool;
  (* the methods of [perform-action!*] that drivers register *)
  driver_methods : list (value * fn (M value));
  (* [(mbql.normalize/normalize query)] and
     [(schema/validate mbql.s/Query query)] *)
  mbql_normalize : value -> result value;
  schema_validate_query : value -> result value;
  (* [(s/explain-data spec arg-map)] *)
  explain_data : spec_ref -> value -> value;
  (* the specs other namespaces have registered *)
  specs_elsewhere : foreign_specs
}.

(** ** The namespace [metabase.actions] *)

Definition status (code : Z) : value := VMap [(kw "status-code", VInt code)].

(** [(assoc m k v)] on a value: a map gets the entry, [nil] becomes a
    one-entry map, a vector takes integer keys only, and nothing else is
    associative. *)
Definition assoc_kw (m : value) (name : string) (v : value) : result value :=
  match m with
  | VMap es => Return (VMap (assoc_put EmptyString name v es))
  | VNil => Return (VMap [(kw name, v)])
  | VVec _ => Throw (JavaException "java.lang.IllegalArgumentException" (Lit "Key must be integer"))
  | _ => Throw (JavaException "java.lang.ClassCastException" (PrStr m))
  end.

Definition sequential_p (v : value) : bool :=
  match v with
  | VVec _ => true
  | _ => false
  end.

Definition second (v : value) : value :=
  match v with
  | VVec (_ :: x :: _) => x
  | _ => VNil
  end.

(** [(contains? set x)] for [x] a keyword or [nil]. *)
Definition contains_p (set : list value) (x : value) : bool :=
  existsb (kw_eqb x) set.

Section Actions.

Variable e : env.

(** [(defmulti normalize-action-arg-map ... (fn [action _arg-map] (keyword action)))]
    with its [:default] method; the row methods are added below, where the
    source defines them. *)
Definition normalize_dispatch : fn (result value) :=
  mk_fn "normalize-action-arg-map" 2 (fun action _arg_map => Return (keyword action)).

Definition normalize_default : fn (result value) :=
  mk_fn "normalize-action-arg-map :default" 2 (fun _action arg_map => Return arg_map).

(** [(defmulti action-arg-map-spec ... keyword)] with its [:default]
    method.  The call site passes one argument, so [keyword] is taken at
    its one-parameter arity. *)
Definition spec_dispatch : fn (result value) :=
  mk_fn "keyword" 1 (fun action => Return (keyword action)).

Definition spec_default : fn spec_ref :=
  mk_fn "action-arg-map-spec :default" 1 (fun _action => spec_fn any_p).

(** [(defmulti perform-action!* ...)]: dispatch on the initialized driver
    and the action keyword, in the driver hierarchy. *)
Definition perform_action_dispatch : fn (result value) :=
  mk_fn "perform-action!*" 4
    (fun driver action _database _arg_map =>
       d <- dispatch_on_initialized_driver e driver ;;
       ret (VVec [d; keyword action])).

(** The keys of the method table of [perform-action!*]: [:default], and
    the keys the drivers registered. *)
Definition method_keys : list value :=
  default_key :: map fst (driver_methods e).

(** [known-actions] *)
Definition known_actions : list value :=
  map second (filter sequential_p method_keys).

(** [(defmethod perform-action!* :default [driver action _arg-map] ...)] *)
Definition perform_action_default_body (driver action _arg_map : value) : M value :=
  let action := keyword action in
  let known_actions := known_actions in
  (* return 404 if the action doesn't exist. *)
  when_ (negb (contains_p known_actions action))
    (throw (ExInfo (Tru "Unknown Action {0}. Valid Actions are: {1}"
                      [Shown action; PrStrSet known_actions])
                   (status 404))) ;;
  (* return 400 if the action does exist but is not supported by this DB *)
  throw (ExInfo (Tru "Action {0} is not supported for {1} Databases."
                   [Shown action; PrStr driver])
                (status 400)).

Definition perform_action_default : fn (M value) :=
  mk_fn "perform-action!* :default" 3 perform_action_default_body.

Definition perform_action_star : multifn (M value) :=
  mk_multifn "perform-action!*" perform_action_dispatch (driver_isa e)
    ((default_key, perform_action_default) :: driver_methods e).

(** [(perform-action!* driver action db arg-map)] *)
Definition call_perform_action_star (args : list value) : M value :=
  match invoke_multi perform_action_star args with
  | Throw ex => throw ex
  | Return run => log (MethodInvoked args) ;; run
  end.

(** [normalize-as-mbql-query]: the [try] is around the schema validation
    alone, and its [catch] takes exceptions only. *)
Definition normalize_as_mbql_query (query : value) : result value :=
  normalized <- mbql_normalize e query ;;
  query <- assoc_kw normalized "type" (kw "query") ;;
  match schema_validate_query e query with
  | Return _ => Return query
  | Throw ex =>
      if is_exception ex
      then Throw (ExInfo (ex_message ex)
                    (VMap [(kw "exception-data", ex_data ex);
                           (kw "status-code", VInt 400)]))
      else Throw ex
  end.

(** [(defmethod normalize-action-arg-map :row/create [query] ...)], and
    the same for [:row/update] and [:row/delete]. *)
Definition normalize_row_create : fn (result value) :=
  mk_fn "normalize-action-arg-map :row/create" 1 (fun query => normalize_as_mbql_query query).

Definition normalize_row_update : fn (result value) :=
  mk_fn "normalize-action-arg-map :row/update" 1 (fun query => normalize_as_mbql_query query).

Definition normalize_row_delete : fn (result value) :=
  mk_fn "normalize-action-arg-map :row/delete" 1 (fun query => normalize_as_mbql_query query).

(** The keywords of the actions are in no hierarchy, so [isa?] on them is
    equality. *)
Definition normalize_action_arg_map : multifn (result value) :=
  mk_multifn "normalize-action-arg-map" normalize_dispatch kw_eqb
    [ (default_key, normalize_default);
      (VKw "row" "create", normalize_row_create);
      (VKw "row" "update", normalize_row_update);
      (VKw "row" "delete", normalize_row_delete) ].

Definition action_arg_map_spec : multifn spec_ref :=
  mk_multifn "action-arg-map-spec" spec_dispatch kw_eqb
    [ (default_key, spec_default);
      (VKw "row" "create",
       mk_fn "action-arg-map-spec :row/create" 1
         (fun _action => spec_kw ("actions.args.crud", "row.create")));
      (VKw "row" "update",
       mk_fn "action-arg-map-spec :row/update" 1
         (fun _action => spec_kw ("actions.args.crud", "row.update")));
      (VKw "row" "delete",
       mk_fn "action-arg-map-spec :row/delete" 1
         (fun _action => spec_kw ("actions.args.crud", "row.delete")));
      (VKw "bulk" "delete",
       mk_fn "action-arg-map-spec :bulk/delete" 1
         (fun _action => spec_kw ("actions.args.crud", "bulk.delete"))) ].

(** [(s/invalid? (s/conform spec arg-map))], in the global registry. *)
Definition conform_invalid (r : spec_ref) (arg_map : value) : result bool :=
  match resolve (loaded (specs_elsewhere e)) r with
  | Some s => Return (negb (valid (loaded (specs_elsewhere e)) arg_map s))
  | None => Throw (JavaException "java.lang.Exception" (Lit "Unable to resolve spec"))
  end.

Definition invalid_arg_map (r : spec_ref) (arg_map : value) : exn :=
  ExInfo (Format "Invalid Action arg map: %s" [ExplainStr r arg_map])
         (explain_data e r arg_map).

(** The part of [perform-action!] under its [binding] form. *)
Definition perform_action_bound (database_id driver action db arg_map : value) : M value :=
  (* make sure Actions are enabled for this Database *)
  bound <- bound_database_local_values ;;
  log (LocalFlagRead bound) ;;
  when_ (negb (database_enable_actions e bound))
    (throw (ExInfo (Tru "Actions are not enabled for Database {0}." [Shown database_id])
                   (status 400))) ;;
  (* the current User must be an admin, when there is a current User *)
  when_ (truthy (current_user e))
    (log AuthorizationCheck ;; _ <- lift (check_superuser e) ;; ret tt) ;;
  (* Ok, now we can hand off to [perform-action!*] *)
  call_perform_action_star [driver; action; db; arg_map].

(** The body of the [let] of [perform-action!], once [action], [spec] and
    [arg-map] are bound. *)
Definition perform_action_body (action : value) (spec : spec_ref) (arg_map : value) : M value :=
  log (SpecChecked spec arg_map) ;;
  invalid <- lift (conform_invalid spec arg_map) ;;
  when_ invalid (throw (invalid_arg_map spec arg_map)) ;;
  (* Check that Actions are enabled globally. *)
  log GlobalFlagRead ;;
  when_ (negb (experimental_enable_actions e))
    (throw (ExInfo (Tru "Actions are not enabled." []) (status 400))) ;;
  (* Check that Actions are enabled for this specific Database. *)
  let database_id := get_kw arg_map "database" in
  log (ResourceLookup database_id) ;;
  let db := Database e database_id in
  let db_settings := get_kw db "settings" in
  let driver := get_kw db "engine" in
  (* make sure the Driver supports Actions. *)
  log (CapabilityCheck driver db) ;;
  supported <- lift (database_supports e driver (kw "actions") db) ;;
  when_ (negb supported)
    (throw (ExInfo (Tru "{0} Database {1} does not support actions."
                      [QualifiedName driver;
                       Format "%d %s" [Shown (get_kw db "id"); PrStr (get_kw db "name")]])
                   (VMap [(kw "status-code", VInt 400);
                          (kw "database-id", get_kw db "id")]))) ;;
  (* bind Database-local Settings for this Database *)
  binding db_settings (perform_action_bound database_id driver action db arg_map).

(** [perform-action!] *)
Definition perform_action (action arg_map : value) : M value :=
  let action := keyword action in
  spec <- lift (invoke_multi action_arg_map_spec [action]) ;;
  normalized <- lift (invoke_multi normalize_action_arg_map [arg_map]) ;;
  arg_map <- lift normalized ;;
  perform_action_body action spec arg_map.

End Actions.

(** ** A sample deployment *)

Module Sample.

Definition row_create_action : value := VKw "row" "create".

(** A resource on the [:h2] driver, whose own settings hold the
    resource-local flag. *)
Definition sample_db (local_flag : bool) : value :=
  VMap [(kw "id", VInt 2);
        (kw "name", VStr "sample");
        (kw "engine", kw "h2");
        (kw "settings", VMap [(kw "database-enable-actions", VBool local_flag)])].

Definition dispatch_isa (child parent : value) : bool :=
  match child, parent with
  | VVec [d1; a1], VVec [d2; a2] => kw_eqb d1 d2 && kw_eqb a1 a2
  | _, _ => kw_eqb child parent
  end.

(** A handler that writes its argument map to the store and answers with
    the Database-local values it ran under. *)
Definition row_create_handler (driver : string) : value * fn (M value) :=
  (VVec [kw driver; row_create_action],
   mk_fn "perform-action!* :row/create" 4
     (fun _driver _action _db arg_map w =>
        (Return (VMap [(kw "ran-under", database_local_values w)]),
         mk_world (database_local_values w) arg_map (trace w)))).

(** A handler that rebinds the Database-local values, writes to the store
    and raises. *)
Definition failing_handler (driver : string) : value * fn (M value) :=
  (VVec [kw driver; row_create_action],
   mk_fn "perform-action!* :row/create" 4
     (fun _driver _action _db arg_map w =>
        (Throw (JavaException "java.sql.SQLException" (Lit "constraint violation")),
         mk_world (VStr "rebound by the handler") arg_map (trace w)))).

Definition sample_env (global_flag local_flag : bool)
    (methods : list (value * fn (M value))) : env :=
  mk_env
    global_flag
    (fun bound => match get_kw bound "database-enable-actions" with
                  | VBool true => true
                  | _ => false
                  end)
    (fun id => match id with
               | VInt 2 => sample_db local_flag
               | _ => VNil
               end)
    (fun driver _feature _db => Return (truthy driver))
    VNil
    (Return VNil)
    (fun driver => match driver with
                   | VKw _ _ => Return driver
                   | _ => Throw (JavaError "java.lang.AssertionError" (PrStr driver))
                   end)
    dispatch_isa
    methods
    (fun query => Return query)
    (fun query => match lookup query "database" with
                  | Some (VInt _) => Return query
                  | _ => Throw (ExInfo (Lit "Value does not match schema")
                                  (VMap [(kw "error", VMap [(kw "database", VStr "missing-required-key")])]))
                  end)
    (fun r v => VMap [(VKw "clojure.spec.alpha" "value", v)])
    [].

Definition w0 : world := mk_world VNil VNil [].

(** The argument map of the [row/create] scenario. *)
Definition create_bob : value :=
  mbql_rows (VInt 2) (query_map (VInt 29) None)
    [(kw "create-row", VMap [(kw "name", VStr "Bob")])].

End Sample.

(** ** Failures, recorded calls and sample inputs the properties speak of *)

(** The failures [perform-action!] and the default method raise. *)
Definition feature_disabled : exn :=
  ExInfo (Tru "Actions are not enabled." []) (status 400).

Definition no_actions_support (driver db : value) : exn :=
  ExInfo (Tru "{0} Database {1} does not support actions."
            [QualifiedName driver;
             Format "%d %s" [Shown (get_kw db "id"); PrStr (get_kw db "name")]])
         (VMap [(kw "status-code", VInt 400); (kw "database-id", get_kw db "id")]).

Definition disabled_for_database (database_id : value) : exn :=
  ExInfo (Tru "Actions are not enabled for Database {0}." [Shown database_id]) (status 400).

Definition unknown_action (e : env) (action : value) : exn :=
  ExInfo (Tru "Unknown Action {0}. Valid Actions are: {1}"
            [Shown action; PrStrSet (known_actions e)])
         (status 404).

Definition unsupported_action (action driver : value) : exn :=
  ExInfo (Tru "Action {0} is not supported for {1} Databases." [Shown action; PrStr driver])
         (status 400).

(** The failure [normalize-as-mbql-query] raises in place of the one of the
    schema. *)
Definition grammar_error (ex : exn) : exn :=
  ExInfo (ex_message ex)
         (VMap [(kw "exception-data", ex_data ex); (kw "status-code", VInt 400)]).

Definition extend (w : world) (evs : list event) : world :=
  mk_world (database_local_values w) (store w) (trace w ++ evs).

(** A world that differs from [w] by recorded calls only. *)
Definition only_traced (w w' : world) : Prop := exists evs, w' = extend w evs.

(** The calls recorded up to the capability check. *)
Definition gate_prefix (e : env) (spec : spec_ref) (arg_map : value) : list event :=
  let database_id := get_kw arg_map "database" in
  let db := Database e database_id in
  [SpecChecked spec arg_map; GlobalFlagRead;
   ResourceLookup database_id; CapabilityCheck (get_kw db "engine") db].

(** The spec resolver always answers: the four row and bulk actions get
    their registered contract, every other action gets [any?]. *)
Definition spec_for (action : value) : spec_ref :=
  if kw_eqb action (VKw "row" "create") then spec_kw ("actions.args.crud", "row.create")
  else if kw_eqb action (VKw "row" "update") then spec_kw ("actions.args.crud", "row.update")
  else if kw_eqb action (VKw "row" "delete") then spec_kw ("actions.args.crud", "row.delete")
  else if kw_eqb action (VKw "bulk" "delete") then spec_kw ("actions.args.crud", "bulk.delete")
  else spec_fn any_p.

(** The keys of a payload are keywords. *)
Definition keyword_keys (row : list (value * value)) : bool :=
  forallb (fun e => pred_holds keyword_p (fst e)) row.

(** No key and no value of a payload is the keyword
    [:clojure.spec.alpha/invalid]. *)
Definition free_of_invalid (row : list (value * value)) : bool :=
  forallb (fun e => negb (invalid_p (fst e)) && negb (invalid_p (snd e))) row.

(** [(seq coll)]: the elements of a collection; the elements of a map are
    its entries, each a two-element vector.  [None] for what is no
    collection. *)
Definition coll_items (v : value) : option (list value) :=
  match v with
  | VVec items => Some items
  | VMap es => Some (map (fun e => VVec [fst e; snd e]) es)
  | _ => None
  end.

(** The argument map of the [row/create] scenario, aimed at a resource the
    store does not hold. *)
Definition create_bob_nowhere : value :=
  mbql_rows (VInt 99) (query_map (VInt 29) None)
    [(kw "create-row", VMap [(kw "name", VStr "Bob")])].

(** The [bulk/delete] scenario: the second element has no filter. *)
Definition bulk_delete_scenario : value :=
  VVec [mbql_rows (VInt 2) (query_map (VInt 29) (Some (filter_51 1))) [];
        mbql_rows (VInt 2) (query_map (VInt 29) None) []].

(** ** The condition rules of the SmartScalar visualization *)

(** The loop of [Smart.render] that picks the display color
    (SmartScalar.jsx).  JavaScript values are kept to what a rule and a
    scalar hold; numbers are kept to the integers, and the comparison
    operators [==], [>], [<], [>=] and [<=] are taken as they come. *)
Module SmartScalar.

Inductive js : Type :=
| JUndefined
| JNull
| JBool (b : bool)
| JNum (z : Z)
| JStr (s : string)
| JArr (items : list js)
| JObj (fields : list (string * js)).

Inductive js_error : Type :=
| ReferenceError (name : string)
| TypeError (what : string).

Inductive completion (A : Type) : Type :=
| Normal (a : A)
| Abrupt (err : js_error).
Arguments Normal {A} a.
Arguments Abrupt {A} err.

#[global] Instance Monad_completion : Monad completion := {
  ret := fun A (a : A) => Normal a;
  bind := fun A B (c : completion A) (k : A -> completion B) =>
            match c with
            | Normal a => k a
            | Abrupt err => Abrupt err
            end
}.

Fixpoint field_get (name : string) (fields : list (string * js)) : js :=
  match fields with
  | [] => JUndefined
  | (n, v) :: rest => if String.eqb n name then v else field_get name rest
  end.

(** [o.name], for the property names of a rule: a property of
    [undefined] or [null] cannot be read; a primitive or an array has no
    such property. *)
Definition member (o : js) (name : string) : completion js :=
  match o with
  | JObj fields => Normal (field_get name fields)
  | JUndefined | JNull => Abrupt (TypeError name)
  | _ => Normal JUndefined
  end.

(** [!!v] *)
Definition to_boolean (v : js) : bool :=
  match v with
  | JUndefined | JNull => false
  | JBool b => b
  | JNum z => negb (z =? 0)
  | JStr s => negb (String.eqb s EmptyString)
  | JArr _ | JObj _ => true
  end.

(** A [case] label of a [switch] is compared with [===]. *)
Definition case_is (v : js) (label : string) : bool :=
  match v with
  | JStr s => String.eqb s label
  | _ => false
  end.

(** The names bound around the loop: the imports of the module and the
    class, and the constants of [render].  ([a], [temp], [temp2], [value]
    and [displayColor] are held by the frame below.) *)
Definition declared_in_module : list string :=
  ["React"; "t"; "jt"; "_"; "isDate"; "formatNumber"; "formatValue"; "color"; "Icon";
   "formatBucketing"; "columnSettings"; "NoBreakoutError"; "ScalarValue"; "ScalarWrapper";
   "ScalarTitle"; "PreviousValueContainer"; "PreviousValueSeparator";
   "PreviousValueVariation"; "Variation"; "BigQueryConditions"; "Smart"].

Definition declared_in_render : list string :=
  ["actionButtons"; "onChangeCardAndRun"; "onVisualizationClick"; "isDashboard";
   "settings"; "visualizationIsClickable"; "card"; "rows"; "cols"; "rawSeries";
   "gridSize"; "width"; "height"; "totalNumGridCols"; "SetColor"; "metricIndex";
   "dimensionIndex"; "lastRow"; "column"; "g"].

(** The constants [render] declares after the loop: in scope, and not yet
    initialized while the loop runs. *)
Definition declared_after_loop : list string :=
  ["insights"; "insight"; "granularity"; "lastChange"; "previousValue"; "isNegative";
   "isSwapped"; "changeColor"; "changeDisplay"; "separator"; "granularityDisplay";
   "clicked"; "isClickable"].

Definition declared (x : string) : bool :=
  existsb (String.eqb x) (declared_in_module ++ declared_in_render).

Definition uninitialized (x : string) : bool :=
  existsb (String.eqb x) declared_after_loop.

(** The variables the loop body reads and writes. *)
Record frame : Type := mk_frame {
  f_a : js;
  f_temp : js;
  f_temp2 : js;
  f_value : js;
  f_displayColor : js
}.

Section Evaluator.

(** [==], [>], [<], [>=], [<=] on values. *)
Variables loose_eq gt lt ge le : js -> js -> bool.
(** The properties of the global object, and the values of the other
    names in scope. *)
Variable globals : string -> option js.
Variable outer : string -> js.

(** Reading an identifier: the frame, then the enclosing declarations,
    then the global object; a name found nowhere, or not yet
    initialized, is a [ReferenceError]. *)
Definition resolve (f : frame) (x : string) : completion js :=
  if String.eqb x "a" then Normal (f_a f)
  else if String.eqb x "temp" then Normal (f_temp f)
  else if String.eqb x "temp2" then Normal (f_temp2 f)
  else if String.eqb x "value" then Normal (f_value f)
  else if String.eqb x "displayColor" then Normal (f_displayColor f)
  else if declared x then Normal (outer x)
  else if uninitialized x then Abrupt (ReferenceError x)
  else match globals x with
       | Some v => Normal v
       | None => Abrupt (ReferenceError x)
       end.

(** [a.p], with [a] read from the frame. *)
Definition rule_field (f : frame) (p : string) : completion js :=
  a <- resolve f "a" ;; member a p.

(** [a.p OP x], operands evaluated left to right. *)
Definition compare (op : js -> js -> bool) (f : frame) (p x : string) : completion js :=
  l <- rule_field f p ;;
  r <- resolve f x ;;
  ret (JBool (op l r)).

(** [switch (a.condition) { ... }]: the value assigned to [temp], or
    [temp] as it was when no case matches. *)
Definition first_switch (f : frame) : completion js :=
  c <- rule_field f "condition" ;;
  if case_is c "Is Equal to" then compare loose_eq f "value" "value"
  else if case_is c "Is Less than" then compare gt f "value" "value"
  else if case_is c "Is Greater than" then compare lt f "value" "value"
  else if case_is c "Is Less than Equal to" then compare ge f "value" "value"
  else if case_is c "Is Greater than Equal to" then compare le f "value" "value"
  else ret (f_temp f).

(** [switch (a.condition2) { ... }]: the value assigned to [temp2]. *)
Definition second_switch (f : frame) : completion js :=
  c <- rule_field f "condition2" ;;
  if case_is c "Is Less than" then compare gt f "value2" "value"
  else if case_is c "Is Greater than" then compare lt f "value2" "value"
  else if case_is c "Is Less than Equal to" then compare ge f "value2" "values"
  else if case_is c "Is Greater than Equal to" then compare le f "value2" "value"
  else ret (f_temp2 f).

(** What the branch of ["Is Less than Equal to"] was meant to assign:
    [a.value2 >= value]. *)
Definition intended_less_than_equal (f : frame) : completion js :=
  compare ge f "value2" "value".

(** The callback of [g.forEach]: the new [displayColor]. *)
Definition rule_step (display_color value a : js) : completion js :=
  let f := mk_frame a JUndefined JUndefined value display_color in
  temp <- first_switch f ;;
  let f := mk_frame a temp JUndefined value display_color in
  temp2 <- second_switch f ;;
  let f := mk_frame a temp temp2 value display_color in
  v2 <- rule_field f "value2" ;;
  let temp2 := if negb (to_boolean v2) then JBool true else temp2 in
  let f := mk_frame a temp temp2 value display_color in
  if to_boolean (if to_boolean temp then temp2 else temp)
  then rule_field f "color"
  else resolve f "displayColor".

(** [rules.filter(g => !!g.condition && !!g.value && !!g.color)] *)
Definition keeps (g : js) : completion bool :=
  c <- member g "condition" ;;
  if to_boolean c then
    v <- member g "value" ;;
    if to_boolean v then
      k <- member g "color" ;;
      ret (to_boolean k)
    else ret false
  else ret false.

Fixpoint filter_rules (rules : list js) : completion (list js) :=
  match rules with
  | [] => Normal []
  | g :: rest =>
      keep <- keeps g ;;
      kept <- filter_rules rest ;;
      Normal (if keep : bool then g :: kept else kept)
  end.

Fixpoint for_each (display_color value : js) (rules : list js) : completion js :=
  match rules with
  | [] => ret display_color
  | a :: rest =>
      display_color' <- rule_step display_color value a ;;
      for_each display_color' value rest
  end.

(** [displayColor] after [if (SetColor && SetColor.rules) { ... }]. *)
Definition display_color (set_color value : js) : completion js :=
  if to_boolean set_color then
    rules <- member set_color "rules" ;;
    if to_boolean rules then
      match rules with
      | JArr items =>
          g <- filter_rules items ;;
          for_each (JStr EmptyString) value g
      | _ => Abrupt (TypeError "filter")
      end
    else ret (JStr EmptyString)
  else ret (JStr EmptyString).

End Evaluator.

(** The comparisons on numbers, for the examples. *)
Definition on_numbers (op : Z -> Z -> bool) (l r : js) : bool :=
  match l, r with
  | JNum x, JNum y => op x y
  | _, _ => false
  end.

Definition no_globals (x : string) : option js := None.

Definition rule_at_most (bound : Z) (color : string) : js :=
  JObj [("condition", JStr "Is Greater than"); ("value", JNum 1); ("color", JStr color);
        ("condition2", JStr "Is Less than Equal to"); ("value2", JNum bound)].

End SmartScalar.

(** ** The Ring middleware of the namespace *)

(** [+check-actions-enabled]: an asynchronous Ring handler takes the request
    and two continuations, [respond] and [raise]. *)
Definition check_actions_enabled {R : Type} (e : env)
    (handler : value -> (value -> R) -> (exn -> R) -> R)
  : value -> (value -> R) -> (exn -> R) -> R :=
  fun request respond raise =>
    if experimental_enable_actions e
    then handler request respond raise
    else raise (ExInfo (Tru "Actions are not enabled." []) (status 400)).

(** A deployment like the sample one, with a current user; [admin] tells
    whether [api/check-superuser] lets the user through. *)
Definition user_env (admin : bool) (methods : list (value * fn (M value))) : env :=
  mk_env true
    (database_enable_actions (Sample.sample_env true true methods))
    (Database (Sample.sample_env true true methods))
    (database_supports (Sample.sample_env true true methods))
    (VMap [(kw "id", VInt 7)])
    (if admin then Return VNil
     else Throw (ExInfo (Tru "You don't have permissions to do that." []) (status 403)))
    (dispatch_on_initialized_driver (Sample.sample_env true true methods))
    (driver_isa (Sample.sample_env true true methods))
    methods
    (mbql_normalize (Sample.sample_env true true methods))
    (schema_validate_query (Sample.sample_env true true methods))
    (explain_data (Sample.sample_env true true methods))
    (specs_elsewhere (Sample.sample_env true true methods)).

(** The sample deployment with a schema validation that overflows the
    stack on every query. *)
Definition overflowing_env : env :=
  mk_env true
    (database_enable_actions (Sample.sample_env true true []))
    (Database (Sample.sample_env true true []))
    (database_supports (Sample.sample_env true true []))
    VNil
    (Return VNil)
    (dispatch_on_initialized_driver (Sample.sample_env true true []))
    (driver_isa (Sample.sample_env true true []))
    []
    (mbql_normalize (Sample.sample_env true true []))
    (fun _ => Throw (JavaError "java.lang.StackOverflowError" (Lit "validate")))
    (explain_data (Sample.sample_env true true []))
    [].

(** The driver methods registered under a vector key whose second element
    is the action. *)
Definition registered_for (e : env) (action : value) : Prop :=
  exists k f, In (k, f) (driver_methods e)
              /\ sequential_p k = true
              /\ kw_eqb action (second k) = true.

(** The actions that have a validation contract of their own, and the row
    actions, which also have a normalizer of their own. *)
Definition has_contract (action : value) : bool :=
  kw_eqb action (VKw "row" "create") || kw_eqb action (VKw "row" "update")
  || kw_eqb action (VKw "row" "delete") || kw_eqb action (VKw "bulk" "delete").

Definition row_action (action : value) : bool :=
  kw_eqb action (VKw "row" "create") || kw_eqb action (VKw "row" "update")
  || kw_eqb action (VKw "row" "delete").

(** A rule that holds a condition, a value and a color. *)
Definition complete_rule (g : SmartScalar.js) : bool :=
  match g with
  | SmartScalar.JObj fields =>
      SmartScalar.to_boolean (SmartScalar.field_get "condition" fields)
      && SmartScalar.to_boolean (SmartScalar.field_get "value" fields)
      && SmartScalar.to_boolean (SmartScalar.field_get "color" fields)
  | _ => false
  end.

(** ** The static functions of the SmartScalar visualization *)

Module SmartStatics.

Import SmartScalar.

(** What [checkRenderable] ends with. *)
Inductive render_check : Type :=
| Renderable
| NoBreakoutError (message : string)
| Failed (err : js_error).

(** [v.length]: the length of an array or of a string, the [length]
    property of an object, nothing for the other primitives; [undefined] and
    [null] have no properties. *)
Definition length_of (v : js) : completion js :=
  match v with
  | JArr items => Normal (JNum (Z.of_nat (List.length items)))
  | JStr s => Normal (JNum (Z.of_nat (String.length s)))
  | JObj fields => Normal (field_get "length" fields)
  | JUndefined | JNull => Abrupt (TypeError "length")
  | _ => Normal JUndefined
  end.

Section Statics.

(** [>] and [===] on values. *)
Variables gt same : js -> js -> bool.

(** [isSensible({ insights })]: [insights && insights.length > 0]. *)
Definition is_sensible (insights : js) : completion js :=
  if to_boolean insights then
    len <- length_of insights ;;
    ret (JBool (gt len (JNum 0)))
  else ret insights.

(** [checkRenderable]: throws [NoBreakoutError] when
    [!insights || insights.length === 0]. *)
Definition check_renderable (insights : js) : render_check :=
  if negb (to_boolean insights)
  then NoBreakoutError "Group by a time field to see how this has changed over time"
  else match length_of insights with
       | Abrupt err => Failed err
       | Normal len =>
           if same len (JNum 0)
           then NoBreakoutError "Group by a time field to see how this has changed over time"
           else Renderable
       end.

(** [cols.find(col => col.name === field)] *)
Fixpoint find_col (field : js) (cols : list js) : completion js :=
  match cols with
  | [] => Normal JUndefined
  | col :: rest =>
      name <- member col "name" ;;
      if same name field then Normal col else find_col field rest
  end.

(** [a || b] *)
Definition or_else (a b : js) : js := if to_boolean a then a else b.

(** [getColumns] of the column settings: the column of the selected field,
    or else the second column, or else the first; [field] is
    [settings["scalar.field"]]. *)
Definition get_columns (cols : list js) (field : js) : completion (list js) :=
  found <- find_col field cols ;;
  Normal [or_else found (or_else (nth 1 cols JUndefined) (nth 0 cols JUndefined))].

End Statics.

(** [===] on numbers and strings, for the examples. *)
Definition same_primitive (l r : js) : bool :=
  match l, r with
  | JNum x, JNum y => Z.eqb x y
  | JStr x, JStr y => String.eqb x y
  | JUndefined, JUndefined => true
  | JNull, JNull => true
  | _, _ => false
  end.

Definition column (name : string) : js := JObj [("name", JStr name)].

End SmartStatics.

(** ** The session middleware *)

(** [createSessionMiddleware] (session-middleware.js).  The middleware
    closes over [intervalId]; each interval it starts has a callback that
    closes over its own [wasLoggedIn].  The timers of the page, the actions
    handed to [next] and the actions handed to [store.dispatch] are kept in
    the state, in the order made. *)
Module SessionMiddleware.

Definition SESSION_KEY : string := "metabase.TIMEOUT".

Definition COOKIE_POOLING_TIMEOUT : nat := 3000.

(** What the callbacks read from the page: the cookie under [SESSION_KEY],
    the [redirect] parameter of the query string, and
    [location.pathname + location.search + location.hash]. *)
Record browser : Type := mk_browser {
  session_cookie : option string;
  redirect_param : option string;
  location : string
}.

(** A Redux action as the middleware sees it: its [type], and the rest. *)
Record action : Type := mk_action {
  action_type : string;
  payload : string
}.

(** The actions the interval callback dispatches. *)
Inductive dispatch : Type :=
| refreshSession
| replace (url : string)
| logout (url : string) (redirect : bool).

(** A live interval: its id, its delay, and the [wasLoggedIn] of its
    callback. *)
Record timer : Type := mk_timer {
  timer_id : nat;
  delay : nat;
  wasLoggedIn : bool
}.

Record state : Type := mk_state {
  intervalId : option nat;
  timers : list timer;
  next_timer : nat;
  forwarded : list action;
  dispatched : list dispatch
}.

(** The state [createSessionMiddleware] starts from: [intervalId] is
    undefined; the ids of timers are positive. *)
Definition created : state := mk_state None [] 1 [] [].

(** [getIsLoggedIn]: [typeof Cookies.get(SESSION_KEY) !== "undefined"]. *)
Definition getIsLoggedIn (b : browser) : bool :=
  match session_cookie b with
  | Some _ => true
  | None => false
  end.

Section Middleware.

(** [isSameOrigin], and the [resetActions] the middleware is created
    with. *)
Variable isSameOrigin : string -> bool.
Variable resetActions : list string.

(** [getRedirectUrl] *)
Definition getRedirectUrl (b : browser) : option string :=
  match redirect_param b with
  | Some url => if isSameOrigin url then Some url else None
  | None => None
  end.

(** [clearInterval(id)]: nothing happens for an undefined id. *)
Definition clearInterval (id : option nat) (ts : list timer) : list timer :=
  match id with
  | Some i => filter (fun t => negb (Nat.eqb (timer_id t) i)) ts
  | None => ts
  end.

(** [sessionMiddlware(store)(next)(action)], called while the page is as
    [b] says. *)
Definition sessionMiddlware (b : browser) (a : action) (st : state) : state :=
  let st1 :=
    if match intervalId st with None => true | Some _ => false end
       || existsb (String.eqb (action_type a)) resetActions
    then
      let ts := clearInterval (intervalId st) (timers st) in
      let wasLoggedIn := getIsLoggedIn b in
      let id := next_timer st in
      mk_state (Some id) (ts ++ [mk_timer id COOKIE_POOLING_TIMEOUT wasLoggedIn])
        (S id) (forwarded st) (dispatched st)
    else st in
  mk_state (intervalId st1) (timers st1) (next_timer st1)
    (forwarded st1 ++ [a]) (dispatched st1).

Definition set_wasLoggedIn (id : nat) (v : bool) (ts : list timer) : list timer :=
  map (fun t => if Nat.eqb (timer_id t) id then mk_timer (timer_id t) (delay t) v else t) ts.

(** The callback of the interval [id] runs, while the page is as [b] says;
    [refreshed] tells whether the promise of
    [store.dispatch(refreshSession())] is fulfilled (what follows the
    [await] does not run when it is rejected).  A cleared interval does not
    fire. *)
Definition tick (b : browser) (id : nat) (refreshed : bool) (st : state) : state :=
  match find (fun t => Nat.eqb (timer_id t) id) (timers st) with
  | None => st
  | Some t =>
      let isLoggedIn := getIsLoggedIn b in
      if Bool.eqb isLoggedIn (wasLoggedIn t) then st
      else
        let ts := set_wasLoggedIn id isLoggedIn (timers st) in
        let sent :=
          if isLoggedIn then
            refreshSession
            :: (if refreshed
                then match getRedirectUrl b with
                     | Some redirectUrl => [replace redirectUrl]
                     | None => []
                     end
                else [])
          else [logout (location b) true] in
        mk_state (intervalId st) ts (next_timer st) (forwarded st) (dispatched st ++ sent)
  end.

(** What happens to the middleware: an action comes in, or a timer fires. *)
Inductive happening : Type :=
| Action (b : browser) (a : action)
| Tick (b : browser) (id : nat) (refreshed : bool).

Definition step (st : state) (h : happening) : state :=
  match h with
  | Action b a => sessionMiddlware b a st
  | Tick b id refreshed => tick b id refreshed st
  end.

Definition run (hs : list happening) (st : state) : state := fold_left step hs st.

End Middleware.

(** The actions among the happenings, in order. *)
Fixpoint actions_of (hs : list happening) : list action :=
  match hs with
  | [] => []
  | Action _ a :: rest => a :: actions_of rest
  | Tick _ _ _ :: rest => actions_of rest
  end.

(** Either polling has not started, or exactly one interval is alive and
    [intervalId] is its id. *)
Definition one_poll (st : state) : Prop :=
  (intervalId st = None /\ timers st = [])
  \/ exists t, timers st = [t]
               /\ intervalId st = Some (timer_id t)
               /\ delay t = COOKIE_POOLING_TIMEOUT.

(** A page with the session cookie, and one without. *)
Definition logged_in (redirect : option string) : browser :=
  mk_browser (Some "alive") redirect "/dashboard/1?tab=2#top".

Definition logged_out : browser := mk_browser None None "/dashboard/1?tab=2#top".

Definition same_site (url : string) : bool := String.prefix "/" url.

End SessionMiddleware.

(** What the middleware has dispatched after it started on a page without
    the session cookie and its interval fired on a page with the cookie and
    a same-site [redirect] parameter. *)
Definition dispatched_after_login : list SessionMiddleware.dispatch :=
  SessionMiddleware.dispatched
    (SessionMiddleware.run SessionMiddleware.same_site ["LOGIN"]
       [SessionMiddleware.Action SessionMiddleware.logged_out
          (SessionMiddleware.mk_action "INIT" EmptyString);
        SessionMiddleware.Tick (SessionMiddleware.logged_in (Some "/dashboard/2")) 1 true]
       SessionMiddleware.created).

(** ** The editor of the condition rules *)

(** The component [BigQueryConditions] (the file that holds it also holds
    the styled parts of the collection header): its constructor,
    [addCondition] and [removeCondition].  Rules are the objects the
    SmartScalar loop reads. *)
Module BigQueryConditions.

Import SmartScalar.

Definition hex_digit (c : ascii) : bool :=
  let n := nat_of_ascii c in
  ((48 <=? n) && (n <=? 57) || (65 <=? n) && (n <=? 70) || (97 <=? n) && (n <=? 102))%nat.

(** [/^#[0-9A-F]{6}$/i] on a string. *)
Definition is_hex_color (s : string) : bool :=
  match s with
  | String c rest =>
      Ascii.eqb c "#"%char
      && Nat.eqb (String.length rest) 6
      && forallb hex_digit (list_ascii_of_string rest)
  | EmptyString => false
  end.

(** The rule every editor ends with. *)
Definition blank_rule : js :=
  JObj [("condition", JStr "Is Equal to"); ("condition2", JStr "Is Less than")].

Record editor_state : Type := mk_editor {
  rules : list js;
  mode : js
}.

(** What [addCondition] does: an [alert] and nothing else, or a new state
    and a call of [props.onChange]. *)
Inductive outcome : Type :=
| Alerted (message : string)
| Changed (st : editor_state) (onChange : js).

(** [fields] with [name] set to [v]. *)
Fixpoint set_field (name : string) (v : js) (fields : list (string * js))
  : list (string * js) :=
  match fields with
  | [] => [(name, v)]
  | (n, x) :: rest =>
      if String.eqb n name then (n, v) :: rest else (n, x) :: set_field name v rest
  end.

(** [rules.splice(index, 1)] *)
Fixpoint splice_one (index : nat) (items : list js) : list js :=
  match items, index with
  | [], _ => []
  | _ :: rest, O => rest
  | x :: rest, S i => x :: splice_one i rest
  end.

(** [items] with its last element replaced. *)
Fixpoint set_last (v : js) (items : list js) : list js :=
  match items with
  | [] => []
  | [_] => [v]
  | x :: rest => x :: set_last v rest
  end.

Section Editor.

(** [isNaN] on strings, arrays and objects; [parseFloat(a) > parseFloat(b)]
    on values that may parse; and the text of an array or of an object. *)
Variable text_is_nan : js -> bool.
Variable parses_greater : js -> js -> bool.
Variable text_of : js -> string.

(** [isNaN(v)]: [undefined] is not a number; [null], the booleans and the
    numbers kept here are. *)
Definition isNaN (v : js) : bool :=
  match v with
  | JUndefined => true
  | JNull | JBool _ | JNum _ => false
  | _ => text_is_nan v
  end.

(** [parseFloat(a) > parseFloat(b)]: [undefined], [null] and the booleans
    do not parse, and nothing compares with what does not parse. *)
Definition parseFloat_gt (a b : js) : bool :=
  match a, b with
  | (JUndefined | JNull | JBool _), _ => false
  | _, (JUndefined | JNull | JBool _) => false
  | _, _ => parses_greater a b
  end.

(** [/^#[0-9A-F]{6}$/i.test(v)] *)
Definition hex_test (v : js) : bool :=
  match v with
  | JStr s => is_hex_color s
  | JUndefined | JNull | JBool _ | JNum _ => false
  | _ => is_hex_color (text_of v)
  end.

(** The callback of [value.rules.forEach] in the constructor: is the rule
    dropped? *)
Definition found (mode r : js) : completion bool :=
  start <- member r "start" ;;
  end_ <- member r "end" ;;
  color <- member r "color" ;;
  ret ((isNaN start && case_is mode "CUSTOM")
       || (isNaN end_ && case_is mode "CUSTOM")
       || parseFloat_gt start end_
       || negb (hex_test color)).

Fixpoint keep_rules (mode : js) (items : list js) : completion (list js) :=
  match items with
  | [] => Normal []
  | r :: rest =>
      dropped <- found mode r ;;
      kept <- keep_rules mode rest ;;
      Normal (if dropped : bool then kept else r :: kept)
  end.

(** [constructor(props)], with [value = props.value]: the state it sets. *)
Definition constructor (value : js) : completion editor_state :=
  mode <- (if to_boolean value then
             m <- member value "mode" ;;
             ret (if to_boolean m then m else JStr "CUSTOM")
           else ret (JStr "CUSTOM")) ;;
  kept <- (if to_boolean value then
             rs <- member value "rules" ;;
             if to_boolean rs then
               match rs with
               | JArr items => keep_rules mode items
               | _ => Abrupt (TypeError "forEach")
               end
             else Normal []
           else Normal []) ;;
  ret (mk_editor (kept ++ [blank_rule]) mode).

(** [addCondition] *)
Definition addCondition (st : editor_state) : completion outcome :=
  let last := List.last (rules st) JUndefined in
  value <- member last "value" ;;
  if isNaN value && case_is (mode st) "CUSTOM" then ret (Alerted "Invalid end")
  else
    color <- member last "color" ;;
    if negb (hex_test color) then ret (Alerted "Invalid Color")
    else
      let rules' := (rules st ++ [blank_rule])%list in
      ret (Changed (mk_editor rules' (mode st))
             (JObj [("rules", JArr rules'); ("mode", mode st)])).

(** [removeCondition(index)]: the new state and what [props.onChange]
    gets.  The module is in strict mode, where a property of a primitive
    cannot be set; an array takes the properties, which the arrays kept here
    do not show. *)
Definition removeCondition (index : nat) (st : editor_state)
  : completion (editor_state * js) :=
  let rules1 := splice_one index (rules st) in
  match List.last rules1 JUndefined with
  | JObj fields =>
      let rules2 :=
        set_last (JObj (set_field "value" (JStr EmptyString)
                          (set_field "color" (JStr EmptyString) fields))) rules1 in
      Normal (mk_editor rules2 (mode st), JObj [("rules", JArr rules2)])
  | JArr items => Normal (mk_editor rules1 (mode st), JObj [("rules", JArr rules1)])
  | _ => Abrupt (TypeError "color")
  end.

End Editor.

(** All rules are objects. *)
Definition all_objects (items : list js) : Prop :=
  Forall (fun r => exists fields, r = JObj fields) items.

End BigQueryConditions.

(** ** Properties *)

Example row_delete_accepts_comment_example :
  valid registry (mbql_rows (VInt 2) (query_map (VInt 29) (Some (filter_51 1))) []) row_delete = true.
Proof. reflexivity. Qed.

Example bulk_delete_accepts_comment_example :
  valid registry
    (VVec [mbql_rows (VInt 2) (query_map (VInt 29) (Some (filter_51 1))) [];
           mbql_rows (VInt 2) (query_map (VInt 29) (Some (filter_51 2))) []])
    bulk_delete = true.
Proof. reflexivity. Qed.

Lemma extend_extend w a b : extend (extend w a) b = extend w (a ++ b).
Proof. unfold extend; simpl; now rewrite app_assoc. Qed.

Lemma keyword_cases (x : value) :
  keyword x = VNil \/ exists ns name, keyword x = VKw ns name.
Proof.
  destruct x; simpl; auto.
  - right. destruct (String.eqb s "/"); [eauto|].
    destruct (split_slash s) as [[ns name]|]; eauto.
  - right; eauto.
Qed.

Ltac case_string_eqb :=
  match goal with
  | |- context [String.eqb ?a ?b] =>
      destruct (String.eqb_spec a b); subst; simpl; try reflexivity; try congruence
  end.

Lemma action_arg_map_spec_run (action : value) :
  invoke_multi action_arg_map_spec [keyword action] = Return (spec_for (keyword action)).
Proof.
  destruct (keyword_cases action) as [-> | (ns & name & ->)]; [reflexivity|].
  unfold invoke_multi, spec_for; simpl.
  unfold get_method; simpl.
  repeat case_string_eqb.
Qed.

(** *** Running [perform-action!] stage by stage *)

Section Stages.

Variable e : env.
Variables (action : value) (spec : spec_ref) (arg_map : value).

Let database_id := get_kw arg_map "database".
Let db := Database e database_id.
Let db_settings := get_kw db "settings".
Let driver := get_kw db "engine".

Ltac run_body :=
  unfold perform_action_body; cbn [bind ret Monad_M];
  unfold lift, log, when_, throw, extend; cbn [bind ret Monad_M].

Lemma body_spec_unresolved (w : world) (ex : exn) :
  conform_invalid e spec arg_map = Throw ex ->
  perform_action_body e action spec arg_map w
  = (Throw ex, extend w [SpecChecked spec arg_map]).
Proof. intros H. run_body. rewrite H. reflexivity. Qed.

Lemma body_invalid (w : world) :
  conform_invalid e spec arg_map = Return true ->
  perform_action_body e action spec arg_map w
  = (Throw (invalid_arg_map e spec arg_map), extend w [SpecChecked spec arg_map]).
Proof. intros H. run_body. rewrite H. reflexivity. Qed.

Lemma body_flag_off (w : world) :
  conform_invalid e spec arg_map = Return false ->
  experimental_enable_actions e = false ->
  perform_action_body e action spec arg_map w
  = (Throw feature_disabled, extend w [SpecChecked spec arg_map; GlobalFlagRead]).
Proof.
  intros H G. run_body. rewrite H, G. simpl. rewrite <- app_assoc. reflexivity.
Qed.

Lemma body_capability_raises (w : world) (ex : exn) :
  conform_invalid e spec arg_map = Return false ->
  experimental_enable_actions e = true ->
  database_supports e driver (kw "actions") db = Throw ex ->
  perform_action_body e action spec arg_map w = (Throw ex, extend w (gate_prefix e spec arg_map)).
Proof.
  intros H G C. run_body. rewrite H, G. simpl.
  fold database_id. fold db. fold driver. rewrite C.
  repeat rewrite <- app_assoc. reflexivity.
Qed.

Lemma body_unsupported (w : world) :
  conform_invalid e spec arg_map = Return false ->
  experimental_enable_actions e = true ->
  database_supports e driver (kw "actions") db = Return false ->
  perform_action_body e action spec arg_map w
  = (Throw (no_actions_support driver db), extend w (gate_prefix e spec arg_map)).
Proof.
  intros H G C. run_body. rewrite H, G. simpl.
  fold database_id. fold db. fold driver. rewrite C. simpl.
  repeat rewrite <- app_assoc. reflexivity.
Qed.

Lemma body_bound (w : world) :
  conform_invalid e spec arg_map = Return false ->
  experimental_enable_actions e = true ->
  database_supports e driver (kw "actions") db = Return true ->
  perform_action_body e action spec arg_map w
  = binding db_settings
      (perform_action_bound e database_id driver action db arg_map)
      (extend w (gate_prefix e spec arg_map)).
Proof.
  intros H G C. run_body. rewrite H, G. simpl.
  fold database_id. fold db. fold driver. rewrite C. simpl.
  repeat rewrite <- app_assoc. reflexivity.
Qed.

End Stages.

(** What [binding] leaves behind: the previous binding, whatever the body
    did. *)
Lemma binding_restores {A : Type} (v : value) (body : M A) (w : world) :
  database_local_values (snd (binding v body w)) = database_local_values w.
Proof. unfold binding. destruct (body _) as [r w']. reflexivity. Qed.

(** [binding] hides the ambient binding from its body. *)
Lemma binding_ambient {A : Type} (v ambient : value) (body : M A) (w : world) :
  binding v body (set_database_local_values ambient w)
  = (fst (binding v body w), set_database_local_values ambient (snd (binding v body w))).
Proof.
  unfold binding, set_database_local_values; simpl.
  destruct (body _) as [r w']. reflexivity.
Qed.

Lemma normalize_called_with_one_argument (e : env) (arg_map : value) :
  invoke_multi (normalize_action_arg_map e) [arg_map]
  = Throw (ArityException 1 "normalize-action-arg-map").
Proof. reflexivity. Qed.

Lemma perform_action_run (e : env) (action arg_map : value) (w : world) :
  perform_action e action arg_map w
  = (Throw (ArityException 1 "normalize-action-arg-map"), w).
Proof.
  unfold perform_action. cbn [bind ret Monad_M]. unfold lift.
  rewrite action_arg_map_spec_run.
  rewrite normalize_called_with_one_argument. reflexivity.
Qed.

(** C3.  [perform-action!] calls [normalize-action-arg-map] with the
    argument map alone, whereas the dispatch function of that multimethod
    declares two parameters and the row methods declare one.  Hence every
    call of [perform-action!] raises an arity error at the normalization
    step and leaves the world as it found it: no spec was checked, no flag
    read, no resource looked up and no method of [perform-action!*] entered.
    Called with the two documented arguments, the row methods raise an arity
    error themselves. *)
Theorem perform_action_always_arity_error :
  forall (e : env) (action arg_map : value) (w : world),
    params normalize_dispatch = 2%nat
    /\ params (normalize_row_create e) = 1%nat
    /\ params (normalize_row_update e) = 1%nat
    /\ params (normalize_row_delete e) = 1%nat
    /\ invoke_multi (normalize_action_arg_map e) [arg_map]
       = Throw (ArityException 1 "normalize-action-arg-map")
    /\ perform_action e action arg_map w
       = (Throw (ArityException 1 "normalize-action-arg-map"), w)
    /\ invoke_multi (normalize_action_arg_map e) [VKw "row" "create"; arg_map]
       = Throw (ArityException 2 "normalize-action-arg-map :row/create")
    /\ invoke_multi (normalize_action_arg_map e) [VKw "row" "update"; arg_map]
       = Throw (ArityException 2 "normalize-action-arg-map :row/update")
    /\ invoke_multi (normalize_action_arg_map e) [VKw "row" "delete"; arg_map]
       = Throw (ArityException 2 "normalize-action-arg-map :row/delete").
Proof.
  intros e action arg_map w.
  repeat split; try reflexivity.
  apply perform_action_run.
Qed.

Lemma extend_set_database_local_values (v : value) (w : world) (evs : list event) :
  extend (set_database_local_values v w) evs = set_database_local_values v (extend w evs).
Proof. reflexivity. Qed.

(** The part under [binding], step by step. *)
Lemma perform_action_bound_run (e : env) (id driver action db arg_map : value) (w : world) :
  perform_action_bound e id driver action db arg_map w
  = let bound := database_local_values w in
    if negb (database_enable_actions e bound)
    then (Throw (disabled_for_database id), extend w [LocalFlagRead bound])
    else
      let evs := LocalFlagRead bound
                 :: (if truthy (current_user e) then [AuthorizationCheck] else []) in
      match (if truthy (current_user e) then check_superuser e else Return VNil) with
      | Throw ex => (Throw ex, extend w evs)
      | Return _ =>
          match invoke_multi (perform_action_star e) [driver; action; db; arg_map] with
          | Throw ex => (Throw ex, extend w evs)
          | Return run =>
              run (extend w (evs ++ [MethodInvoked [driver; action; db; arg_map]]))
          end
      end.
Proof.
  unfold perform_action_bound, call_perform_action_star, bound_database_local_values.
  cbn [bind ret Monad_M]. unfold lift, log, when_, throw, extend. cbn [bind ret Monad_M].
  simpl.
  destruct (database_enable_actions e (database_local_values w)); simpl; [|reflexivity].
  destruct (truthy (current_user e)); simpl.
  - destruct (check_superuser e); simpl; [|rewrite <- app_assoc; reflexivity].
    destruct (invoke_multi _ _); simpl; repeat rewrite <- app_assoc; reflexivity.
  - destruct (invoke_multi _ _); simpl; repeat rewrite <- app_assoc; reflexivity.
Qed.

Lemma bound_under_binding (e : env) (id driver action db arg_map settings : value)
    (w : world) :
  binding settings (perform_action_bound e id driver action db arg_map) w
  = let w1 := set_database_local_values settings w in
    if negb (database_enable_actions e settings)
    then (Throw (disabled_for_database id), extend w [LocalFlagRead settings])
    else
      let evs := LocalFlagRead settings
                 :: (if truthy (current_user e) then [AuthorizationCheck] else []) in
      match (if truthy (current_user e) then check_superuser e else Return VNil) with
      | Throw ex => (Throw ex, extend w evs)
      | Return _ =>
          (fst (call_perform_action_star e [driver; action; db; arg_map] (extend w1 evs)),
           set_database_local_values (database_local_values w)
             (snd (call_perform_action_star e [driver; action; db; arg_map]
                     (extend w1 evs))))
      end.
Proof.
  unfold binding. rewrite perform_action_bound_run. cbn zeta.
  change (database_local_values (set_database_local_values settings w)) with settings.
  destruct (database_enable_actions e settings); cbn [negb].
  2:{ destruct w; reflexivity. }
  destruct (if truthy (current_user e) then check_superuser e else Return VNil).
  2:{ destruct w; reflexivity. }
  unfold call_perform_action_star.
  destruct (invoke_multi _ _) as [run | ex].
  - cbn [bind ret Monad_M]. unfold log.
    set (evs := LocalFlagRead settings
                :: (if truthy (current_user e) then [AuthorizationCheck] else [])).
    set (w1 := extend (set_database_local_values settings w) evs).
    change (mk_world (database_local_values w1) (store w1)
              (trace w1 ++ [MethodInvoked [driver; action; db; arg_map]]))
      with (extend w1 [MethodInvoked [driver; action; db; arg_map]]).
    subst w1. rewrite extend_extend.
    destruct (run _) as [r w']. reflexivity.
  - unfold throw. cbn [fst snd]. destruct w; reflexivity.
Qed.

(** C9.  What the code sets out to do, in the body of [perform-action!]
    once the argument map is normalized.  On every exit, by a value, a
    validation failure, a gate failure or an exception of the handler, the
    binding of [*database-local-values*] is the one the call found, and the
    outcome does not depend on that binding.  When validation, the global
    flag and the capability check let the call through, what follows runs
    with [*database-local-values*] bound to the resource's own settings: the
    resource-local flag is read from them, so the call is refused when they
    do not enable actions, whatever the binding found says; and when they
    do, the method of [perform-action!*] is entered in a world where the
    resource's settings are bound.  A call stopped before that changes
    nothing but the record of calls.

    But [perform-action!] itself never gets that far: every call ends with
    the arity error of the normalization call, in the world it found, so
    the resource's settings are never bound, the resource-local flag is
    never read and no handler is invoked. *)
Theorem resource_settings_scoped_to_call :
  forall (e : env) (action : value) (spec : spec_ref) (arg_map : value) (w : world),
    let id := get_kw arg_map "database" in
    let db := Database e id in
    let driver := get_kw db "engine" in
    let settings := get_kw db "settings" in
    let outcome := perform_action_body e action spec arg_map w in
    database_local_values (snd outcome) = database_local_values w
    /\ (forall ambient : value,
          perform_action_body e action spec arg_map (set_database_local_values ambient w)
          = (fst outcome, set_database_local_values ambient (snd outcome)))
    /\ (conform_invalid e spec arg_map = Return false ->
        experimental_enable_actions e = true ->
        database_supports e driver (kw "actions") db = Return true ->
        let inside :=
          perform_action_bound e id driver action db arg_map
            (set_database_local_values settings (extend w (gate_prefix e spec arg_map))) in
        outcome
        = (fst inside, set_database_local_values (database_local_values w) (snd inside))
        /\ (database_enable_actions e settings = false ->
            outcome
            = (Throw (disabled_for_database id),
               extend w (gate_prefix e spec arg_map ++ [LocalFlagRead settings])))
        /\ (forall authorized : value,
               database_enable_actions e settings = true ->
               (if truthy (current_user e) then check_superuser e else Return VNil)
               = Return authorized ->
               let entered :=
                 extend (set_database_local_values settings w)
                   (gate_prefix e spec arg_map
                    ++ LocalFlagRead settings
                       :: (if truthy (current_user e) then [AuthorizationCheck] else [])) in
               database_local_values entered = settings
               /\ outcome
                  = (fst (call_perform_action_star e [driver; action; db; arg_map] entered),
                     set_database_local_values (database_local_values w)
                       (snd (call_perform_action_star e [driver; action; db; arg_map]
                               entered)))))
    /\ (conform_invalid e spec arg_map <> Return false
        \/ experimental_enable_actions e = false
        \/ database_supports e driver (kw "actions") db <> Return true ->
        only_traced w (snd outcome))
    /\ perform_action e action arg_map w
       = (Throw (ArityException 1 "normalize-action-arg-map"), w).
Proof.
  intros e action spec arg_map w id db driver settings outcome.
  assert (Early : forall (x : exn) (evs : list event),
             (forall w0, perform_action_body e action spec arg_map w0
                         = (Throw x, extend w0 evs)) ->
             database_local_values (snd outcome) = database_local_values w
             /\ (forall ambient : value,
                    perform_action_body e action spec arg_map
                      (set_database_local_values ambient w)
                    = (fst outcome, set_database_local_values ambient (snd outcome)))
             /\ only_traced w (snd outcome)).
  { intros x evs B. subst outcome. rewrite !B. repeat split.
    - intros ambient. now rewrite B.
    - now exists evs. }
  assert (Bound : conform_invalid e spec arg_map = Return false ->
                  experimental_enable_actions e = true ->
                  database_supports e driver (kw "actions") db = Return true ->
                  outcome
                  = binding settings (perform_action_bound e id driver action db arg_map)
                      (extend w (gate_prefix e spec arg_map))).
  { intros V G C. exact (body_bound e action spec arg_map w V G C). }
  split; [|split; [|split; [|split]]].
  - (* the binding found is back on every exit *)
    destruct (conform_invalid e spec arg_map) as [[|]|ex] eqn:V.
    + exact (proj1 (Early _ _ (fun w0 => body_invalid e action spec arg_map w0 V))).
    + destruct (experimental_enable_actions e) eqn:G.
      2:{ exact (proj1 (Early _ _ (fun w0 => body_flag_off e action spec arg_map w0 V G))). }
      destruct (database_supports e driver (kw "actions") db) as [[|]|ex] eqn:C.
      * rewrite (Bound eq_refl eq_refl eq_refl). now rewrite binding_restores.
      * exact (proj1 (Early _ _ (fun w0 => body_unsupported e action spec arg_map w0 V G C))).
      * exact (proj1 (Early _ _ (fun w0 =>
                                   body_capability_raises e action spec arg_map w0 ex V G C))).
    + exact (proj1 (Early _ _ (fun w0 => body_spec_unresolved e action spec arg_map w0 ex V))).
  - (* the outcome does not depend on the binding found *)
    destruct (conform_invalid e spec arg_map) as [[|]|ex] eqn:V.
    + exact (proj1 (proj2 (Early _ _ (fun w0 => body_invalid e action spec arg_map w0 V)))).
    + destruct (experimental_enable_actions e) eqn:G.
      2:{ exact (proj1 (proj2 (Early _ _
                                 (fun w0 => body_flag_off e action spec arg_map w0 V G)))). }
      destruct (database_supports e driver (kw "actions") db) as [[|]|ex] eqn:C.
      * intros ambient. rewrite (Bound eq_refl eq_refl eq_refl).
        rewrite (body_bound e action spec arg_map _ V G C).
        fold id. fold db. fold driver. fold settings.
        rewrite extend_set_database_local_values. apply binding_ambient.
      * exact (proj1 (proj2 (Early _ _ (fun w0 =>
                                          body_unsupported e action spec arg_map w0 V G C)))).
      * exact (proj1 (proj2 (Early _ _ (fun w0 =>
                 body_capability_raises e action spec arg_map w0 ex V G C)))).
    + exact (proj1 (proj2 (Early _ _ (fun w0 =>
                                        body_spec_unresolved e action spec arg_map w0 ex V)))).
  - (* under the binding *)
    intros V G C inside. rewrite (Bound V G C). split; [|split].
    + unfold binding. subst inside.
      change (database_local_values (extend w (gate_prefix e spec arg_map)))
        with (database_local_values w).
      destruct (perform_action_bound _ _ _ _ _ _ _) as [r w']. reflexivity.
    + intros L. rewrite bound_under_binding. cbn zeta. rewrite L. cbn [negb].
      now rewrite extend_extend.
    + intros authorized L A entered. split; [reflexivity|].
      rewrite bound_under_binding. cbn zeta. rewrite L, A. cbn [negb].
      subst entered.
      rewrite !extend_set_database_local_values, !extend_extend. reflexivity.
  - (* stopped before the binding *)
    intros [V | [G | C]].
    + destruct (conform_invalid e spec arg_map) as [[|]|ex] eqn:V'.
      * exact (proj2 (proj2 (Early _ _ (fun w0 => body_invalid e action spec arg_map w0 V')))).
      * now elim V.
      * exact (proj2 (proj2 (Early _ _ (fun w0 =>
                                          body_spec_unresolved e action spec arg_map w0 ex V')))).
    + destruct (conform_invalid e spec arg_map) as [[|]|ex] eqn:V'.
      * exact (proj2 (proj2 (Early _ _ (fun w0 => body_invalid e action spec arg_map w0 V')))).
      * exact (proj2 (proj2 (Early _ _ (fun w0 =>
                                          body_flag_off e action spec arg_map w0 V' G)))).
      * exact (proj2 (proj2 (Early _ _ (fun w0 =>
                                          body_spec_unresolved e action spec arg_map w0 ex V')))).
    + destruct (conform_invalid e spec arg_map) as [[|]|ex] eqn:V'.
      * exact (proj2 (proj2 (Early _ _ (fun w0 => body_invalid e action spec arg_map w0 V')))).
      * destruct (experimental_enable_actions e) eqn:G.
        2:{ exact (proj2 (proj2 (Early _ _ (fun w0 =>
                                              body_flag_off e action spec arg_map w0 V' G)))). }
        destruct (database_supports e driver (kw "actions") db) as [[|]|ex] eqn:C'.
        -- now elim C.
        -- exact (proj2 (proj2 (Early _ _ (fun w0 =>
                    body_unsupported e action spec arg_map w0 V' G C')))).
        -- exact (proj2 (proj2 (Early _ _ (fun w0 =>
                    body_capability_raises e action spec arg_map w0 ex V' G C')))).
      * exact (proj2 (proj2 (Early _ _ (fun w0 =>
                                          body_spec_unresolved e action spec arg_map w0 ex V')))).
  - apply perform_action_run.
Qed.

(** The [row/create] scenario, called where the binding found says that
    actions are off: the body of [perform-action!] runs the handler under
    the resource's own settings, which enable them, and puts the binding
    found back; [perform-action!] ends with the arity error, nothing bound
    and nothing read. *)
Lemma resource_settings_scoped_to_call_witness :
  perform_action_body (Sample.sample_env true true [Sample.row_create_handler "h2"])
    Sample.row_create_action (spec_kw ("actions.args.crud", "row.create"))
    Sample.create_bob
    (mk_world (VMap [(kw "database-enable-actions", VBool false)]) VNil [])
  = (Return (VMap [(kw "ran-under", VMap [(kw "database-enable-actions", VBool true)])]),
     mk_world (VMap [(kw "database-enable-actions", VBool false)]) Sample.create_bob
       [SpecChecked (spec_kw ("actions.args.crud", "row.create")) Sample.create_bob;
        GlobalFlagRead;
        ResourceLookup (VInt 2);
        CapabilityCheck (kw "h2") (Sample.sample_db true);
        LocalFlagRead (VMap [(kw "database-enable-actions", VBool true)]);
        MethodInvoked [kw "h2"; Sample.row_create_action; Sample.sample_db true;
                       Sample.create_bob]])
  /\ perform_action (Sample.sample_env true true [Sample.row_create_handler "h2"])
       (VStr "row/create") Sample.create_bob
       (mk_world (VMap [(kw "database-enable-actions", VBool false)]) VNil [])
     = (Throw (ArityException 1 "normalize-action-arg-map"),
        mk_world (VMap [(kw "database-enable-actions", VBool false)]) VNil []).
Proof.
  split.
  - exact (proj2 (proj2 (proj2 (proj1 (proj2 (proj2
             (resource_settings_scoped_to_call
                (Sample.sample_env true true [Sample.row_create_handler "h2"])
                Sample.row_create_action (spec_kw ("actions.args.crud", "row.create"))
                Sample.create_bob
                (mk_world (VMap [(kw "database-enable-actions", VBool false)]) VNil []))))
             eq_refl eq_refl eq_refl)) VNil eq_refl eq_refl)).
  - exact (proj2 (proj2 (proj2 (proj2
             (resource_settings_scoped_to_call
                (Sample.sample_env true true [Sample.row_create_handler "h2"])
                (VStr "row/create") (spec_fn any_p)
                Sample.create_bob
                (mk_world (VMap [(kw "database-enable-actions", VBool false)]) VNil [])))))).
Defined.

(** The [row/create] scenario: global flag on, resource flag on, a handler
    for the resource's driver.  The handler runs under the resource's
    settings, and the binding the call found is back afterwards. *)
Example row_create_scenario :
  perform_action_body
    (Sample.sample_env true true [Sample.row_create_handler "h2"])
    Sample.row_create_action (spec_kw ("actions.args.crud", "row.create"))
    Sample.create_bob Sample.w0
  = (Return (VMap [(kw "ran-under", VMap [(kw "database-enable-actions", VBool true)])]),
     mk_world VNil Sample.create_bob
       [SpecChecked (spec_kw ("actions.args.crud", "row.create")) Sample.create_bob;
        GlobalFlagRead;
        ResourceLookup (VInt 2);
        CapabilityCheck (kw "h2") (Sample.sample_db true);
        LocalFlagRead (VMap [(kw "database-enable-actions", VBool true)]);
        MethodInvoked [kw "h2"; Sample.row_create_action; Sample.sample_db true;
                       Sample.create_bob]]).
Proof. reflexivity. Qed.

(** The same call with a handler that raises, made under some ambient
    binding: the exception of the handler is the outcome, and the ambient
    binding is back. *)
Example handler_exception_scenario :
  perform_action_body
    (Sample.sample_env true true [Sample.failing_handler "h2"])
    Sample.row_create_action (spec_kw ("actions.args.crud", "row.create"))
    Sample.create_bob (mk_world (VStr "ambient") VNil [])
  = (Throw (JavaException "java.sql.SQLException" (Lit "constraint violation")),
     mk_world (VStr "ambient") Sample.create_bob
       [SpecChecked (spec_kw ("actions.args.crud", "row.create")) Sample.create_bob;
        GlobalFlagRead;
        ResourceLookup (VInt 2);
        CapabilityCheck (kw "h2") (Sample.sample_db true);
        LocalFlagRead (VMap [(kw "database-enable-actions", VBool true)]);
        MethodInvoked [kw "h2"; Sample.row_create_action; Sample.sample_db true;
                       Sample.create_bob]]).
Proof. reflexivity. Qed.

(** With the resource-local flag off in the resource's settings, the call is
    refused for that resource, whatever the ambient binding says. *)
Example resource_flag_off_scenario :
  perform_action_body
    (Sample.sample_env true false [Sample.row_create_handler "h2"])
    Sample.row_create_action (spec_kw ("actions.args.crud", "row.create"))
    Sample.create_bob
    (mk_world (VMap [(kw "database-enable-actions", VBool true)]) VNil [])
  = (Throw (disabled_for_database (VInt 2)),
     mk_world (VMap [(kw "database-enable-actions", VBool true)]) VNil
       [SpecChecked (spec_kw ("actions.args.crud", "row.create")) Sample.create_bob;
        GlobalFlagRead;
        ResourceLookup (VInt 2);
        CapabilityCheck (kw "h2") (Sample.sample_db false);
        LocalFlagRead (VMap [(kw "database-enable-actions", VBool false)])]).
Proof. reflexivity. Qed.

(** C1, as stated, fails: with the global flag off, an argument map that
    does not satisfy its contract is rejected for that, not for the flag;
    and [perform-action!] itself ends at the normalization step. *)
Lemma flag_off_invalid_arg_map_counterexample :
  experimental_enable_actions (Sample.sample_env false true [Sample.row_create_handler "h2"])
  = false
  /\ fst (perform_action (Sample.sample_env false true [Sample.row_create_handler "h2"])
            (VStr "row/create") (VMap []) Sample.w0)
     <> Throw feature_disabled
  /\ fst (perform_action_body (Sample.sample_env false true [Sample.row_create_handler "h2"])
            Sample.row_create_action (spec_kw ("actions.args.crud", "row.create"))
            (VMap []) Sample.w0)
     = Throw (invalid_arg_map (Sample.sample_env false true [Sample.row_create_handler "h2"])
                (spec_kw ("actions.args.crud", "row.create")) (VMap []))
  /\ invalid_arg_map (Sample.sample_env false true [Sample.row_create_handler "h2"])
       (spec_kw ("actions.args.crud", "row.create")) (VMap [])
     <> feature_disabled.
Proof.
  split; [reflexivity|]. split; [|split].
  - rewrite perform_action_run. simpl. discriminate.
  - reflexivity.
  - discriminate.
Qed.

(** C1, amended.  In the body of [perform-action!], once the argument map is
    normalized: with the global flag off, an argument map that satisfies its
    contract is refused with "Actions are not enabled." and status 400, and
    one that does not is refused by validation first.  Either way nothing
    runs after the flag is read: no resource lookup, no capability check, no
    resource-local check, no authorization check and no method of
    [perform-action!*]; the store is untouched. *)
Theorem global_flag_off_stops_the_gate :
  forall (e : env) (action : value) (spec : spec_ref) (arg_map : value) (w : world),
    experimental_enable_actions e = false ->
    perform_action_body e action spec arg_map w
    = match conform_invalid e spec arg_map with
      | Return false =>
          (Throw feature_disabled, extend w [SpecChecked spec arg_map; GlobalFlagRead])
      | Return true =>
          (Throw (invalid_arg_map e spec arg_map), extend w [SpecChecked spec arg_map])
      | Throw ex => (Throw ex, extend w [SpecChecked spec arg_map])
      end
    /\ status_code feature_disabled = Some 400.
Proof.
  intros e action spec arg_map w G. split; [|reflexivity].
  destruct (conform_invalid e spec arg_map) as [[|]|ex] eqn:V.
  - now apply body_invalid.
  - now apply body_flag_off.
  - now apply body_spec_unresolved.
Qed.

Lemma global_flag_off_stops_the_gate_witness :
  experimental_enable_actions (Sample.sample_env false true [Sample.row_create_handler "h2"])
  = false
  /\ perform_action_body (Sample.sample_env false true [Sample.row_create_handler "h2"])
       Sample.row_create_action (spec_kw ("actions.args.crud", "row.create"))
       Sample.create_bob Sample.w0
     = (Throw feature_disabled,
        mk_world VNil VNil
          [SpecChecked (spec_kw ("actions.args.crud", "row.create")) Sample.create_bob;
           GlobalFlagRead]).
Proof.
  split; [reflexivity|].
  exact (proj1 (global_flag_off_stops_the_gate
                  (Sample.sample_env false true [Sample.row_create_handler "h2"])
                  Sample.row_create_action (spec_kw ("actions.args.crud", "row.create"))
                  Sample.create_bob Sample.w0 eq_refl)).
Defined.

(** C7, as stated, fails: for a resource the store does not hold, the
    capability check is made all the same, on a [nil] driver and a [nil]
    resource, and the failure has status 400. *)
Lemma absent_resource_counterexample :
  Database (Sample.sample_env true true [Sample.row_create_handler "h2"])
    (get_kw create_bob_nowhere "database") = VNil
  /\ perform_action_body (Sample.sample_env true true [Sample.row_create_handler "h2"])
       Sample.row_create_action (spec_kw ("actions.args.crud", "row.create"))
       create_bob_nowhere Sample.w0
     = (Throw (no_actions_support VNil VNil),
        mk_world VNil VNil
          [SpecChecked (spec_kw ("actions.args.crud", "row.create")) create_bob_nowhere;
           GlobalFlagRead;
           ResourceLookup (VInt 99);
           CapabilityCheck VNil VNil])
  /\ status_code (no_actions_support VNil VNil) = Some 400
  /\ (forall ex, fst (perform_action (Sample.sample_env true true [Sample.row_create_handler "h2"])
                        (VStr "row/create") create_bob_nowhere Sample.w0) = Throw ex ->
                 status_code ex <> Some 404).
Proof.
  split; [reflexivity|]. split; [reflexivity|]. split; [reflexivity|].
  intros ex. rewrite perform_action_run. simpl. intros H. inversion H. discriminate.
Qed.

(** C7, amended.  [perform-action!] makes no check of its own that the
    resource exists.  When the store holds no resource under the identifier
    of the argument map, the lookup gives [nil], and the capability check is
    made next for a [nil] driver and a [nil] resource: if it answers no, the
    call fails with "does not support actions" and status 400; if it raises,
    that exception is the failure; if it answers yes, the call goes on under
    [nil] settings. *)
Theorem absent_resource_reaches_capability_check :
  forall (e : env) (action : value) (spec : spec_ref) (arg_map : value) (w : world),
    conform_invalid e spec arg_map = Return false ->
    experimental_enable_actions e = true ->
    Database e (get_kw arg_map "database") = VNil ->
    let prefix := [SpecChecked spec arg_map; GlobalFlagRead;
                   ResourceLookup (get_kw arg_map "database"); CapabilityCheck VNil VNil] in
    perform_action_body e action spec arg_map w
    = match database_supports e VNil (kw "actions") VNil with
      | Return false => (Throw (no_actions_support VNil VNil), extend w prefix)
      | Throw ex => (Throw ex, extend w prefix)
      | Return true =>
          binding VNil
            (perform_action_bound e (get_kw arg_map "database") VNil action VNil arg_map)
            (extend w prefix)
      end
    /\ status_code (no_actions_support VNil VNil) = Some 400.
Proof.
  intros e action spec arg_map w V G D prefix. split; [|reflexivity].
  pose proof (body_bound e action spec arg_map w V G) as B.
  pose proof (body_unsupported e action spec arg_map w V G) as U.
  pose proof (fun ex => body_capability_raises e action spec arg_map w ex V G) as R.
  unfold gate_prefix in B, U, R. cbv zeta in B, U, R.
  rewrite D in B, U, R.
  change (get_kw VNil "engine") with VNil in B, U, R.
  change (get_kw VNil "settings") with VNil in B.
  destruct (database_supports e VNil (kw "actions") VNil) as [[|]|ex].
  - now apply B.
  - now apply U.
  - now apply R.
Qed.

Lemma absent_resource_reaches_capability_check_witness :
  conform_invalid (Sample.sample_env true true [Sample.row_create_handler "h2"])
    (spec_kw ("actions.args.crud", "row.create")) create_bob_nowhere
  = Return false
  /\ experimental_enable_actions (Sample.sample_env true true [Sample.row_create_handler "h2"])
     = true
  /\ Database (Sample.sample_env true true [Sample.row_create_handler "h2"])
       (get_kw create_bob_nowhere "database") = VNil
  /\ fst (perform_action_body (Sample.sample_env true true [Sample.row_create_handler "h2"])
            Sample.row_create_action (spec_kw ("actions.args.crud", "row.create"))
            create_bob_nowhere Sample.w0)
     = Throw (no_actions_support VNil VNil).
Proof.
  split; [reflexivity|]. split; [reflexivity|]. split; [reflexivity|].
  exact (f_equal fst
           (proj1 (absent_resource_reaches_capability_check
                     (Sample.sample_env true true [Sample.row_create_handler "h2"])
                     Sample.row_create_action (spec_kw ("actions.args.crud", "row.create"))
                     create_bob_nowhere Sample.w0 eq_refl eq_refl eq_refl))).
Defined.

(** *** The default method of [perform-action!*] *)

(** What the body of the default method does with the three parameters it
    declares. *)
Lemma perform_action_default_body_run (e : env) (driver action arg_map : value) (w : world) :
  perform_action_default_body e driver action arg_map w
  = if contains_p (known_actions e) (keyword action)
    then (Throw (unsupported_action (keyword action) driver), w)
    else (Throw (unknown_action e (keyword action)), w).
Proof.
  unfold perform_action_default_body. cbn [bind ret Monad_M]. unfold when_, throw.
  destruct (contains_p _ _); reflexivity.
Qed.

(** The default method declares three parameters; [perform-action!*] is
    called with four. *)
Lemma default_method_arity (e : env) (driver action db arg_map : value) :
  invoke (perform_action_default e) [driver; action; db; arg_map]
  = Throw (ArityException 4 "perform-action!* :default").
Proof. reflexivity. Qed.

Lemma best_method_no_match {A : Type} (isa : value -> value -> bool) (name : string)
    (dv : value) (table : list (value * fn A)) (best : option (value * fn A)) :
  (forall k f, In (k, f) table -> isa dv k = false) ->
  best_method isa name dv table best = Return best.
Proof.
  induction table as [|[k f] table IH]; intros H; [reflexivity|].
  cbn [best_method]. rewrite (H k f (or_introl eq_refl)).
  apply IH. intros k' f' I. apply (H k' f'). now right.
Qed.

(** Whenever no key of the method table matches the dispatch value, the
    call of [perform-action!*] ends with the arity error of the default
    method, and nothing is recorded. *)
Lemma unhandled_dispatch_raises_arity (e : env) (driver action db arg_map d : value)
    (w : world) :
  dispatch_on_initialized_driver e driver = Return d ->
  driver_isa e (VVec [d; keyword action]) default_key = false ->
  (forall k f, In (k, f) (driver_methods e) ->
               driver_isa e (VVec [d; keyword action]) k = false) ->
  call_perform_action_star e [driver; action; db; arg_map] w
  = (Throw (ArityException 4 "perform-action!* :default"), w).
Proof.
  intros D K N. unfold call_perform_action_star, invoke_multi.
  cbn [bind ret Monad_result].
  change (invoke (dispatch_fn (perform_action_star e)) [driver; action; db; arg_map])
    with (Return (d <- dispatch_on_initialized_driver e driver ;;
                  ret (VVec [d; keyword action])) : result (result value)).
  cbv beta iota. rewrite D. cbn [bind ret Monad_result].
  unfold get_method. cbn [method_table perform_action_star isa multi_name].
  rewrite best_method_no_match.
  - reflexivity.
  - intros k f [I | I]; [inversion I; subst; exact K | exact (N k f I)].
Qed.

(** C2.  A resource on the [:h2] driver, [row/create] registered for
    [:postgres] only, all flags on and a valid argument map: the call of
    [perform-action!*] selects the default method and raises an arity error,
    because that method declares three parameters and receives four.  Its
    body, given the three parameters it declares, would raise "not supported
    for :h2 Databases" with status 400, and "Unknown Action" with status 404
    for an action no driver registered. *)
Theorem default_method_never_classifies :
  call_perform_action_star (Sample.sample_env true true [Sample.row_create_handler "postgres"])
    [kw "h2"; Sample.row_create_action; Sample.sample_db true; Sample.create_bob] Sample.w0
  = (Throw (ArityException 4 "perform-action!* :default"), Sample.w0)
  /\ fst (perform_action_body
            (Sample.sample_env true true [Sample.row_create_handler "postgres"])
            Sample.row_create_action (spec_kw ("actions.args.crud", "row.create"))
            Sample.create_bob Sample.w0)
     = Throw (ArityException 4 "perform-action!* :default")
  /\ fst (perform_action_body
            (Sample.sample_env true true [Sample.row_create_handler "postgres"])
            (VKw "row" "archive") (spec_fn any_p) Sample.create_bob Sample.w0)
     = Throw (ArityException 4 "perform-action!* :default")
  /\ fst (perform_action
            (Sample.sample_env true true [Sample.row_create_handler "postgres"])
            (VStr "row/create") Sample.create_bob Sample.w0)
     = Throw (ArityException 1 "normalize-action-arg-map")
  /\ perform_action_default_body
       (Sample.sample_env true true [Sample.row_create_handler "postgres"])
       (kw "h2") Sample.row_create_action Sample.create_bob Sample.w0
     = (Throw (unsupported_action Sample.row_create_action (kw "h2")), Sample.w0)
  /\ perform_action_default_body
       (Sample.sample_env true true [Sample.row_create_handler "postgres"])
       (kw "h2") (VKw "row" "archive") Sample.create_bob Sample.w0
     = (Throw (unknown_action
                 (Sample.sample_env true true [Sample.row_create_handler "postgres"])
                 (VKw "row" "archive")), Sample.w0)
  /\ status_code (unsupported_action Sample.row_create_action (kw "h2")) = Some 400
  /\ status_code (unknown_action
                    (Sample.sample_env true true [Sample.row_create_handler "postgres"])
                    (VKw "row" "archive")) = Some 404
  /\ status_code (ArityException 4 "perform-action!* :default") = None.
Proof. repeat split; reflexivity. Qed.

(** *** The row normalizer *)

(** What [normalize-as-mbql-query] does with a query the schema refuses by
    an exception, and with a throwable of the schema that is none. *)
Lemma normalize_as_mbql_query_malformed (e : env) (query normalized stamped : value) (ex : exn) :
  mbql_normalize e query = Return normalized ->
  assoc_kw normalized "type" (kw "query") = Return stamped ->
  schema_validate_query e stamped = Throw ex ->
  normalize_as_mbql_query e query
  = Throw (if is_exception ex then grammar_error ex else ex)
  /\ status_code (grammar_error ex) = Some 400
  /\ lookup (ex_data (grammar_error ex)) "exception-data" = Some (ex_data ex).
Proof.
  intros N A S. unfold normalize_as_mbql_query. cbn [bind ret Monad_result].
  rewrite N, A, S. destruct (is_exception ex); repeat split.
Qed.

Lemma normalize_as_mbql_query_well_formed (e : env) (query normalized stamped checked : value) :
  mbql_normalize e query = Return normalized ->
  assoc_kw normalized "type" (kw "query") = Return stamped ->
  schema_validate_query e stamped = Return checked ->
  normalize_as_mbql_query e query = Return stamped.
Proof.
  intros N A S. unfold normalize_as_mbql_query. cbn [bind ret Monad_result].
  rewrite N, A, S. reflexivity.
Qed.

(** C8.  A [row/create] request whose argument map is not a structured
    query (it names no database): [normalize-as-mbql-query] refuses it with
    the schema's message, the schema's detail under [:exception-data] and
    status 400, and so does the [:row/create] method when given the one
    parameter it declares; but [perform-action!] never gets there, it ends
    with the arity error of the normalization call, which carries no status
    code and no detail. *)
Theorem query_grammar_error_never_raised :
  normalize_as_mbql_query (Sample.sample_env true true [Sample.row_create_handler "h2"])
    (VMap [(kw "create-row", VMap [(kw "name", VStr "Bob")])])
  = Throw (grammar_error
             (ExInfo (Lit "Value does not match schema")
                (VMap [(kw "error", VMap [(kw "database", VStr "missing-required-key")])])))
  /\ invoke (normalize_row_create (Sample.sample_env true true [Sample.row_create_handler "h2"]))
       [VMap [(kw "create-row", VMap [(kw "name", VStr "Bob")])]]
     = Return (Throw (grammar_error
                        (ExInfo (Lit "Value does not match schema")
                           (VMap [(kw "error",
                                   VMap [(kw "database", VStr "missing-required-key")])]))))
  /\ perform_action (Sample.sample_env true true [Sample.row_create_handler "h2"])
       (VStr "row/create") (VMap [(kw "create-row", VMap [(kw "name", VStr "Bob")])])
       Sample.w0
     = (Throw (ArityException 1 "normalize-action-arg-map"), Sample.w0)
  /\ status_code (ArityException 1 "normalize-action-arg-map") = None
  /\ ex_data (ArityException 1 "normalize-action-arg-map") = VNil.
Proof. repeat split; reflexivity. Qed.

(** *** The validation contracts *)

Lemma is_kw_true (ns name : string) (k : value) : is_kw ns name k = true -> k = VKw ns name.
Proof.
  destruct k; simpl; try discriminate.
  intros H. apply andb_prop in H. destruct H as [A B].
  apply String.eqb_eq in A. apply String.eqb_eq in B. now subst.
Qed.

Lemma assoc_get_In (ns name : string) (es : list (value * value)) (v : value) :
  assoc_get ns name es = Some v -> In (VKw ns name, v) es.
Proof.
  induction es as [|[k x] es IH]; simpl; [discriminate|].
  destruct (is_kw ns name k) eqn:K.
  - intros H. inversion H; subst. left. now rewrite (is_kw_true _ _ _ K).
  - intros H. right. now apply IH.
Qed.

Section SpecFacts.

Variable reg : registry_t.

Lemma valid_pred (v : value) (p : pred) :
  valid reg v (SPred p) = pred_holds p v && negb (invalid_p v).
Proof. destruct v; reflexivity. Qed.

Lemma valid_and (v : value) (ss : list spec) :
  valid reg v (SAnd ss) = forallb (valid reg v) ss && negb (invalid_p v).
Proof. destruct v; reflexivity. Qed.

Lemma valid_merge (v : value) (ss : list spec) :
  valid reg v (SMerge ss) = forallb (valid reg v) ss.
Proof. destruct v; reflexivity. Qed.

Lemma valid_keys (es : list (value * value)) (req_un : list spec_name) :
  valid reg (VMap es) (SKeys req_un)
  = forallb (fun n => contains_kw es EmptyString (snd n)) req_un
    && forallb (fun e => match key_spec reg req_un (fst e) with
                         | Some s' => valid reg (snd e) s'
                         | None => true
                         end) es.
Proof. reflexivity. Qed.

Lemma valid_keys_is_map (v : value) (req_un : list spec_name) :
  valid reg v (SKeys req_un) = true -> exists es, v = VMap es.
Proof. destruct v; simpl; try discriminate. eauto. Qed.

Lemma valid_map_of (v : value) (kspec vspec : spec) :
  valid reg v (SMapOf kspec vspec) = true ->
  exists es, v = VMap es
             /\ forallb (fun e => valid reg (fst e) kspec && valid reg (snd e) vspec) es = true.
Proof. destruct v; simpl; try discriminate. eauto. Qed.

(** A map that satisfies [(s/keys :req-un [... n ...])] holds the key of
    [n], and the value under it satisfies the spec registered as [n]. *)
Lemma keys_required (m : value) (req_un : list spec_name) (n : spec_name) (s : spec) :
  valid reg m (SKeys req_un) = true ->
  In n req_un ->
  key_spec reg req_un (kw (snd n)) = Some s ->
  exists v, lookup m (snd n) = Some v /\ valid reg v s = true.
Proof.
  intros V I K.
  destruct (valid_keys_is_map _ _ V) as [es ->].
  rewrite valid_keys in V. apply andb_prop in V. destruct V as [R E].
  rewrite forallb_forall in R. specialize (R n I).
  unfold contains_kw in R. simpl.
  destruct (assoc_get EmptyString (snd n) es) as [v|] eqn:G; [|discriminate].
  exists v. split; [reflexivity|].
  rewrite forallb_forall in E. specialize (E _ (assoc_get_In _ _ _ _ G)).
  cbn [fst snd] in E. unfold kw in K. rewrite K in E. exact E.
Qed.

(** [(s/map-of keyword? any?)] on a map: the keys are keywords, and neither
    a key nor a value is the keyword [:clojure.spec.alpha/invalid]. *)
Lemma map_of_keywords (row : list (value * value)) :
  valid reg (VMap row) (SMapOf (SPred keyword_p) (SPred any_p))
  = keyword_keys row && free_of_invalid row.
Proof.
  change (valid reg (VMap row) (SMapOf (SPred keyword_p) (SPred any_p)))
    with (forallb (fun e => valid reg (fst e) (SPred keyword_p)
                            && valid reg (snd e) (SPred any_p)) row).
  unfold keyword_keys, free_of_invalid.
  induction row as [|[k v] row IH]; [reflexivity|].
  cbn [forallb fst snd]. rewrite IH, !valid_pred.
  change (pred_holds any_p v) with true.
  generalize (pred_holds keyword_p k) (invalid_p k) (invalid_p v)
    (forallb (fun e => pred_holds keyword_p (fst e)) row)
    (forallb (fun e => negb (invalid_p (fst e)) && negb (invalid_p (snd e))) row).
  intros [] [] [] [] []; reflexivity.
Qed.

Lemma merge_head (m : value) (s : spec) (rest : list spec) :
  valid reg m (SMerge (s :: rest)) = true -> valid reg m s = true.
Proof.
  rewrite valid_merge. cbn [forallb]. intros H. apply andb_prop in H. tauto.
Qed.

End SpecFacts.

(** The names this namespace registers resolve to its own specs, whatever
    is registered elsewhere. *)
Lemma loaded_get (elsewhere : foreign_specs) (n : spec_name) :
  registry_get (loaded elsewhere) n
  = match registry_get registry n with
    | Some s => Some s
    | None => registry_get (map (fun e => (fst e, SForeign (snd e))) elsewhere) n
    end.
Proof.
  unfold loaded. generalize registry as reg.
  induction reg as [|[n' s] reg IH]; [reflexivity|].
  cbn [app registry_get]. destruct (name_eqb n n'); [reflexivity | exact IH].
Qed.

Ltac merge_parts H :=
  rewrite valid_merge in H; simpl in H;
  repeat (apply andb_prop in H; let H' := fresh "P" in destruct H as [H' H]).

Lemma get_kw_found (m : value) (name : string) (v : value) :
  lookup m name = Some v -> get_kw m name = v.
Proof. unfold get_kw. now intros ->. Qed.

Lemma vector_p_holds (v : value) : pred_holds vector_p v = true -> exists items, v = VVec items.
Proof. destruct v; simpl; try discriminate. eauto. Qed.

Lemma vector_is_not_invalid (v : value) :
  pred_holds vector_p v && negb (invalid_p v) = pred_holds vector_p v.
Proof. destruct v; reflexivity. Qed.

Section Contracts.

Variable elsewhere : foreign_specs.

Lemma row_delete_needs_filter (m : value) :
  valid (loaded elsewhere) m row_delete = true ->
  exists items, lookup (get_kw m "query") "filter" = Some (VVec items).
Proof.
  intros V. unfold row_delete in V. merge_parts V.
  destruct (keys_required _ m _ ("actions.args.crud.row.delete", "query") row_delete_query P0)
    as (q & Q & VQ); [simpl; auto | reflexivity |].
  cbn [snd] in Q. rewrite (get_kw_found _ _ _ Q).
  unfold row_delete_query in VQ. merge_parts VQ.
  destruct (keys_required _ q _ ("actions.args.crud.row.delete.query", "filter")
              row_delete_query_filter P2) as (f & F & VF); [simpl; auto | reflexivity |].
  cbn [snd] in F. unfold row_delete_query_filter in VF. rewrite valid_pred in VF.
  apply andb_prop in VF. destruct VF as [VF _].
  destruct (vector_p_holds _ VF) as [items ->]. eauto.
Qed.

Lemma row_update_needs_filter (m : value) :
  valid (loaded elsewhere) m row_update = true ->
  exists items, lookup (get_kw m "query") "filter" = Some (VVec items).
Proof.
  intros V. unfold row_update in V. merge_parts V.
  destruct (keys_required _ m _ ("actions.args.crud.row.update", "query") row_update_query P0)
    as (q & Q & VQ); [simpl; auto | reflexivity |].
  cbn [snd] in Q. rewrite (get_kw_found _ _ _ Q).
  unfold row_update_query in VQ. merge_parts VQ.
  destruct (keys_required _ q _ ("actions.args.crud.row.update.query", "filter")
              row_update_query_filter P2) as (f & F & VF); [simpl; auto | reflexivity |].
  cbn [snd] in F. unfold row_update_query_filter in VF. rewrite valid_pred in VF.
  apply andb_prop in VF. destruct VF as [VF _].
  destruct (vector_p_holds _ VF) as [items ->]. eauto.
Qed.

Ltac eval_valid :=
  repeat (progress
            (unfold row_create, row_update, row_delete, row_update_query, row_delete_query,
               crud_common, crud_common_query, crud_common_database,
               crud_common_query_source_table, actions_args_id,
               row_create_create_row, row_update_update_row,
               row_update_query_filter, row_delete_query_filter;
             rewrite ?map_of_keywords, ?valid_merge, ?valid_keys, ?valid_and, ?valid_pred,
               ?loaded_get, ?vector_is_not_invalid;
             cbn -[valid Z.ltb keyword_keys free_of_invalid loaded])).

Lemma row_delete_shape (d t : Z) (f : value) :
  valid (loaded elsewhere) (mbql_rows (VInt d) (query_map (VInt t) (Some f)) []) row_delete
  = (0 <? d) && (0 <? t) && pred_holds vector_p f.
Proof.
  unfold mbql_rows, query_map. eval_valid.
  destruct (0 <? d), (0 <? t), f; reflexivity.
Qed.

Lemma row_update_shape (d t : Z) (f : value) (row : list (value * value)) :
  valid (loaded elsewhere)
    (mbql_rows (VInt d) (query_map (VInt t) (Some f)) [(kw "update-row", VMap row)])
    row_update
  = (0 <? d) && (0 <? t) && pred_holds vector_p f && keyword_keys row && free_of_invalid row.
Proof.
  unfold mbql_rows, query_map. eval_valid.
  destruct (0 <? d), (0 <? t), f, (keyword_keys row), (free_of_invalid row); reflexivity.
Qed.

Lemma row_create_shape (d t : Z) (row : list (value * value)) :
  valid (loaded elsewhere)
    (mbql_rows (VInt d) (query_map (VInt t) None) [(kw "create-row", VMap row)])
    row_create
  = (0 <? d) && (0 <? t) && keyword_keys row && free_of_invalid row.
Proof.
  unfold mbql_rows, query_map. eval_valid.
  destruct (0 <? d), (0 <? t), (keyword_keys row), (free_of_invalid row); reflexivity.
Qed.

Lemma payload_required (m : value) (s : spec) (n : spec_name) :
  valid (loaded elsewhere) m s = true ->
  (exists req_un rest,
      s = SMerge (crud_common :: SKeys req_un :: rest)
      /\ In n req_un
      /\ key_spec (loaded elsewhere) req_un (kw (snd n))
         = Some (SMapOf (SPred keyword_p) (SPred any_p))) ->
  exists row, lookup m (snd n) = Some (VMap row) /\ keyword_keys row = true.
Proof.
  intros V (req_un & rest & -> & I & K).
  rewrite valid_merge in V. cbn [forallb] in V.
  apply andb_prop in V. destruct V as [_ V].
  apply andb_prop in V. destruct V as [V _].
  destruct (keys_required _ m req_un n _ V I K) as (v & F & VV).
  destruct (valid_map_of _ _ _ _ VV) as (row & -> & _).
  exists row. split; [exact F|].
  rewrite map_of_keywords in VV. apply andb_prop in VV. tauto.
Qed.

End Contracts.

(** C4, as stated, fails: an empty filter is a vector, and passes. *)
Lemma empty_filter_accepted_counterexample :
  lookup (query_map (VInt 29) (Some (VVec []))) "filter" = Some (VVec [])
  /\ valid registry (mbql_rows (VInt 2) (query_map (VInt 29) (Some (VVec []))) []) row_delete
     = true
  /\ valid registry
       (mbql_rows (VInt 2) (query_map (VInt 29) (Some (VVec [])))
          [(kw "update-row", VMap [(kw "name", VStr "Bob")])])
       row_update
     = true
  /\ conform_invalid (Sample.sample_env true true [])
       (spec_kw ("actions.args.crud", "row.delete"))
       (mbql_rows (VInt 2) (query_map (VInt 29) (Some (VVec []))) [])
     = Return false
  /\ (forall elsewhere : foreign_specs,
         valid (loaded elsewhere)
           (mbql_rows (VInt 2) (query_map (VInt 29) (Some (VVec []))) []) row_delete
         = true).
Proof. repeat split; reflexivity. Qed.

(** C4, amended.  A [row/update] or [row/delete] argument map satisfies its
    contract only if its query fragment holds a [:filter] and that filter is
    a vector: without a filter, or with a filter that is no vector,
    validation fails.  Whether the vector is empty is not looked at: an
    argument map of the documented shape passes exactly when its database
    and source table are positive integers and its filter is a vector (and,
    for [row/update], the payload is a map with keyword keys, none of its
    keys or values being the keyword [:clojure.spec.alpha/invalid], which
    clojure.spec takes for a failed conform).  This holds whatever specs
    other namespaces have registered. *)
Theorem filter_must_be_a_vector :
  forall elsewhere : foreign_specs,
    (forall m : value,
        valid (loaded elsewhere) m row_update = true
        \/ valid (loaded elsewhere) m row_delete = true ->
        exists items, lookup (get_kw m "query") "filter" = Some (VVec items))
    /\ (forall (d t : Z) (f : value),
           valid (loaded elsewhere)
             (mbql_rows (VInt d) (query_map (VInt t) (Some f)) []) row_delete
           = (0 <? d) && (0 <? t) && pred_holds vector_p f)
    /\ (forall (d t : Z) (f : value) (row : list (value * value)),
           valid (loaded elsewhere)
             (mbql_rows (VInt d) (query_map (VInt t) (Some f)) [(kw "update-row", VMap row)])
             row_update
           = (0 <? d) && (0 <? t) && pred_holds vector_p f
             && keyword_keys row && free_of_invalid row)
    /\ (forall (d t : Z) (row : list (value * value)),
           valid (loaded elsewhere)
             (mbql_rows (VInt d) (query_map (VInt t) None) []) row_delete = false
           /\ valid (loaded elsewhere)
                (mbql_rows (VInt d) (query_map (VInt t) None) [(kw "update-row", VMap row)])
                row_update = false).
Proof.
  intros elsewhere. split; [|split; [|split]].
  - intros m [V | V].
    + now apply (row_update_needs_filter elsewhere).
    + now apply (row_delete_needs_filter elsewhere).
  - apply row_delete_shape.
  - apply row_update_shape.
  - intros d t row. split.
    + destruct (valid (loaded elsewhere) _ row_delete) eqn:V; [|reflexivity].
      destruct (row_delete_needs_filter _ _ V) as [items F]. discriminate F.
    + destruct (valid (loaded elsewhere) _ row_update) eqn:V; [|reflexivity].
      destruct (row_update_needs_filter _ _ V) as [items F]. discriminate F.
Qed.

Lemma filter_must_be_a_vector_witness :
  valid registry (mbql_rows (VInt 2) (query_map (VInt 29) (Some (filter_51 1))) []) row_delete
  = true
  /\ exists items,
       lookup
         (get_kw (mbql_rows (VInt 2) (query_map (VInt 29) (Some (filter_51 1))) []) "query")
         "filter"
       = Some (VVec items).
Proof.
  split; [reflexivity|].
  exact (proj1 (filter_must_be_a_vector [])
           (mbql_rows (VInt 2) (query_map (VInt 29) (Some (filter_51 1))) [])
           (or_intror eq_refl)).
Defined.

(** C5, as stated, fails: an empty payload is a map of keywords, and
    passes. *)
Lemma empty_payload_accepted_counterexample :
  valid registry
    (mbql_rows (VInt 2) (query_map (VInt 29) None) [(kw "create-row", VMap [])])
    row_create
  = true
  /\ valid registry
       (mbql_rows (VInt 2) (query_map (VInt 29) (Some (filter_51 1)))
          [(kw "update-row", VMap [])])
       row_update
     = true
  /\ conform_invalid (Sample.sample_env true true [])
       (spec_kw ("actions.args.crud", "row.create"))
       (mbql_rows (VInt 2) (query_map (VInt 29) None) [(kw "create-row", VMap [])])
     = Return false
  /\ (forall elsewhere : foreign_specs,
         valid (loaded elsewhere)
           (mbql_rows (VInt 2) (query_map (VInt 29) None) [(kw "create-row", VMap [])])
           row_create
         = true).
Proof. repeat split; reflexivity. Qed.

(** C5, amended.  A [row/create] argument map satisfies its contract only
    if it holds a [:create-row] that is a map whose keys are keywords, and a
    [row/update] argument map only if it holds such an [:update-row]: an
    absent payload, or one that is no such map, fails validation.  Whether
    the map is empty is not looked at: an argument map of the documented
    shape passes exactly when its database and source table are positive
    integers (and, for [row/update], its filter is a vector), the keys of its
    payload are keywords, and none of the keys or values of the payload is
    the keyword [:clojure.spec.alpha/invalid], which clojure.spec takes for
    a failed conform; the empty payload is included.  This holds whatever
    specs other namespaces have registered. *)
Theorem payload_must_be_a_keyword_map :
  forall elsewhere : foreign_specs,
    (forall m : value,
        valid (loaded elsewhere) m row_create = true ->
        exists row, lookup m "create-row" = Some (VMap row) /\ keyword_keys row = true)
    /\ (forall m : value,
           valid (loaded elsewhere) m row_update = true ->
           exists row, lookup m "update-row" = Some (VMap row) /\ keyword_keys row = true)
    /\ (forall (d t : Z) (row : list (value * value)),
           valid (loaded elsewhere)
             (mbql_rows (VInt d) (query_map (VInt t) None) [(kw "create-row", VMap row)])
             row_create
           = (0 <? d) && (0 <? t) && keyword_keys row && free_of_invalid row)
    /\ (forall (d t : Z) (f : value) (row : list (value * value)),
           valid (loaded elsewhere)
             (mbql_rows (VInt d) (query_map (VInt t) (Some f)) [(kw "update-row", VMap row)])
             row_update
           = (0 <? d) && (0 <? t) && pred_holds vector_p f
             && keyword_keys row && free_of_invalid row)
    /\ (forall d t : Z,
           valid (loaded elsewhere)
             (mbql_rows (VInt d) (query_map (VInt t) None) []) row_create = false
           /\ valid (loaded elsewhere)
                (mbql_rows (VInt d) (query_map (VInt t) (Some (VVec []))) []) row_update
              = false)
    /\ keyword_keys [] = true /\ free_of_invalid [] = true.
Proof.
  intros elsewhere.
  assert (C : forall m, valid (loaded elsewhere) m row_create = true ->
                        exists row, lookup m "create-row" = Some (VMap row)
                                    /\ keyword_keys row = true).
  { intros m V.
    apply (payload_required elsewhere m row_create
             ("actions.args.crud.row.create", "create-row") V).
    eexists _, _. split; [reflexivity|]. split; [simpl; auto | reflexivity]. }
  assert (U : forall m, valid (loaded elsewhere) m row_update = true ->
                        exists row, lookup m "update-row" = Some (VMap row)
                                    /\ keyword_keys row = true).
  { intros m V.
    apply (payload_required elsewhere m row_update
             ("actions.args.crud.row.update", "update-row") V).
    eexists _, _. split; [reflexivity|]. split; [simpl; auto | reflexivity]. }
  split; [exact C|]. split; [exact U|].
  split; [apply row_create_shape|]. split; [apply row_update_shape|].
  split; [|split; reflexivity].
  intros d t. split.
  - destruct (valid (loaded elsewhere) _ row_create) eqn:V; [|reflexivity].
    destruct (C _ V) as (row & F & _). discriminate F.
  - destruct (valid (loaded elsewhere) _ row_update) eqn:V; [|reflexivity].
    destruct (U _ V) as (row & F & _). discriminate F.
Qed.

Lemma payload_must_be_a_keyword_map_witness :
  valid registry Sample.create_bob row_create = true
  /\ exists row,
       lookup Sample.create_bob "create-row" = Some (VMap row)
       /\ keyword_keys row = true.
Proof.
  split; [reflexivity|].
  exact (proj1 (payload_must_be_a_keyword_map []) Sample.create_bob eq_refl).
Defined.

(** On a map entry, [entry_valid] is [valid] on the two-element vector the
    entry is. *)
Lemma entry_valid_is_valid (reg : registry_t) (k v : value) :
  forall s : spec,
    entry_valid (valid reg k) (valid reg v) (VVec [k; v]) s = valid reg (VVec [k; v]) s.
Proof.
  fix IH 1. intros s. destruct s as [p | ss | ss | req_un | kspec vspec | elem | accepts].
  - reflexivity.
  - rewrite valid_and. cbn [entry_valid]. f_equal.
    induction ss as [|s ss IHss]; [reflexivity|].
    cbn [forallb]. now rewrite IH, IHss.
  - rewrite valid_merge. cbn [entry_valid].
    induction ss as [|s ss IHss]; [reflexivity|].
    cbn [forallb]. now rewrite IH, IHss.
  - reflexivity.
  - reflexivity.
  - cbn [entry_valid].
    change (valid reg (VVec [k; v]) (SCollOf elem))
      with (valid reg k elem && (valid reg v elem && true)).
    now rewrite andb_true_r.
  - reflexivity.
Qed.

Lemma entry_is_no_row_delete (reg : registry_t) (k v : value) :
  entry_valid (valid reg k) (valid reg v) (VVec [k; v]) row_delete = false
  /\ valid reg (VVec [k; v]) row_delete = false.
Proof. split; reflexivity. Qed.

Lemma bulk_delete_items (reg : registry_t) (v : value) :
  valid reg v bulk_delete
  = match coll_items v with
    | Some items => forallb (fun x => valid reg x row_delete) items
    | None => false
    end.
Proof.
  destruct v; try reflexivity.
  unfold bulk_delete, coll_items.
  change (valid reg (VMap entries) (SCollOf row_delete))
    with (forallb (fun e => entry_valid (valid reg (fst e)) (valid reg (snd e))
                              (VVec [fst e; snd e]) row_delete) entries).
  induction entries as [|[k x] es IH]; [reflexivity|].
  cbn [forallb map fst snd].
  rewrite (proj1 (entry_is_no_row_delete reg k x)).
  rewrite (proj2 (entry_is_no_row_delete reg k x)). reflexivity.
Qed.

(** C6.  The contract of [bulk/delete] is all or nothing: a value satisfies
    it exactly when it is a collection, of zero elements or more, each of
    which satisfies the [row/delete] contract, and the validation step of
    [perform-action!] refuses a batch with an element that does not, before
    the global flag is read and before anything is handed to a method.
    That is what the code sets out to do.  But [perform-action!] itself
    never reaches its validation step: on the batch whose second element has
    no filter it ends with the arity error of the normalization call, which
    is not the validation failure and carries no status code and no
    explanation; nothing of the batch is executed. *)
Theorem bulk_delete_all_or_nothing :
  forall elsewhere : foreign_specs,
    (forall v : value,
        valid (loaded elsewhere) v bulk_delete = true
        <-> exists items, coll_items v = Some items
                          /\ forallb (fun x => valid (loaded elsewhere) x row_delete) items
                             = true)
    /\ (forall items : list value,
           valid (loaded elsewhere) (VVec items) bulk_delete
           = forallb (fun x => valid (loaded elsewhere) x row_delete) items)
    /\ valid (loaded elsewhere) (VVec []) bulk_delete = true
    /\ valid (loaded elsewhere) bulk_delete_scenario bulk_delete = false
    /\ invoke_multi action_arg_map_spec [keyword (VStr "bulk/delete")]
       = Return (spec_kw ("actions.args.crud", "bulk.delete"))
    /\ (forall (e : env) (action : value) (items : list value) (x : value) (w : world),
           In x items ->
           valid (loaded (specs_elsewhere e)) x row_delete = false ->
           perform_action_body e action (spec_kw ("actions.args.crud", "bulk.delete"))
             (VVec items) w
           = (Throw (invalid_arg_map e (spec_kw ("actions.args.crud", "bulk.delete"))
                       (VVec items)),
              extend w [SpecChecked (spec_kw ("actions.args.crud", "bulk.delete"))
                          (VVec items)]))
    /\ (forall (e : env) (w : world),
           perform_action e (VStr "bulk/delete") bulk_delete_scenario w
           = (Throw (ArityException 1 "normalize-action-arg-map"), w)
           /\ fst (perform_action e (VStr "bulk/delete") bulk_delete_scenario w)
              <> Throw (invalid_arg_map e (spec_kw ("actions.args.crud", "bulk.delete"))
                          bulk_delete_scenario))
    /\ status_code (ArityException 1 "normalize-action-arg-map") = None
    /\ ex_data (ArityException 1 "normalize-action-arg-map") = VNil.
Proof.
  intros elsewhere.
  assert (S : valid (loaded elsewhere) bulk_delete_scenario bulk_delete = false).
  { unfold bulk_delete_scenario. rewrite bulk_delete_items. cbn [coll_items forallb].
    destruct (valid (loaded elsewhere) (mbql_rows (VInt 2) (query_map (VInt 29) None) [])
                row_delete) eqn:V; [|now rewrite andb_false_r].
    destruct (row_delete_needs_filter _ _ V) as [items F]. discriminate F. }
  split; [|split; [|split; [|split; [|split; [|split; [|split; [|split]]]]]]].
  - intros v. rewrite bulk_delete_items. split.
    + destruct (coll_items v) as [items|]; [|discriminate]. intros H. eauto.
    + intros (items & -> & H). exact H.
  - intros items. now rewrite bulk_delete_items.
  - reflexivity.
  - exact S.
  - reflexivity.
  - intros e action items x w I V.
    apply body_invalid.
    change (conform_invalid e (spec_kw ("actions.args.crud", "bulk.delete")) (VVec items))
      with (match registry_get (loaded (specs_elsewhere e)) ("actions.args.crud", "bulk.delete")
            with
            | Some s => Return (negb (valid (loaded (specs_elsewhere e)) (VVec items) s))
            | None => Throw (JavaException "java.lang.Exception" (Lit "Unable to resolve spec"))
            end : result bool).
    rewrite loaded_get.
    change (registry_get registry ("actions.args.crud", "bulk.delete")) with (Some bulk_delete).
    cbv iota. rewrite bulk_delete_items. cbn [coll_items].
    destruct (forallb _ items) eqn:F; [|reflexivity].
    rewrite forallb_forall in F. rewrite (F x I) in V. discriminate.
  - intros e w. rewrite perform_action_run. split; [reflexivity|].
    cbn [fst]. discriminate.
  - reflexivity.
  - reflexivity.
Qed.

Lemma bulk_delete_all_or_nothing_witness :
  In (mbql_rows (VInt 2) (query_map (VInt 29) None) [])
     [mbql_rows (VInt 2) (query_map (VInt 29) (Some (filter_51 1))) [];
      mbql_rows (VInt 2) (query_map (VInt 29) None) []]
  /\ valid registry (mbql_rows (VInt 2) (query_map (VInt 29) None) []) row_delete = false
  /\ perform_action_body (Sample.sample_env true true [Sample.row_create_handler "h2"])
       (VKw "bulk" "delete") (spec_kw ("actions.args.crud", "bulk.delete"))
       bulk_delete_scenario Sample.w0
     = (Throw (invalid_arg_map (Sample.sample_env true true [Sample.row_create_handler "h2"])
                 (spec_kw ("actions.args.crud", "bulk.delete")) bulk_delete_scenario),
        mk_world VNil VNil
          [SpecChecked (spec_kw ("actions.args.crud", "bulk.delete")) bulk_delete_scenario]).
Proof.
  split; [right; left; reflexivity|]. split; [reflexivity|].
  exact (proj1 (proj2 (proj2 (proj2 (proj2 (proj2 (bulk_delete_all_or_nothing []))))))
           (Sample.sample_env true true [Sample.row_create_handler "h2"])
           (VKw "bulk" "delete")
           [mbql_rows (VInt 2) (query_map (VInt 29) (Some (filter_51 1))) [];
            mbql_rows (VInt 2) (query_map (VInt 29) None) []]
           (mbql_rows (VInt 2) (query_map (VInt 29) None) [])
           Sample.w0 (or_intror (or_introl eq_refl)) eq_refl).
Defined.

(** *** The condition rules of SmartScalar *)

Lemma values_is_bound_nowhere :
  SmartScalar.declared "values" = false /\ SmartScalar.uninitialized "values" = false.
Proof. split; reflexivity. Qed.

Lemma member_string (a : SmartScalar.js) (p s : string) :
  SmartScalar.member a p = SmartScalar.Normal (SmartScalar.JStr s) ->
  exists fields, a = SmartScalar.JObj fields
                 /\ SmartScalar.field_get p fields = SmartScalar.JStr s.
Proof.
  destruct a; simpl; try discriminate.
  intros H. inversion H. eauto.
Qed.

Section RuleFacts.

Import SmartScalar.

Variables loose_eq gt lt ge le : js -> js -> bool.
Variable globals : string -> option js.
Variable outer : string -> js.

Lemma compare_with_value (op : js -> js -> bool) (fields : list (string * js))
    (temp temp2 value dc : js) (p : string) :
  compare globals outer op (mk_frame (JObj fields) temp temp2 value dc) p "value"
  = Normal (JBool (op (field_get p fields) value)).
Proof. reflexivity. Qed.

Lemma compare_with_values (op : js -> js -> bool) (fields : list (string * js))
    (temp temp2 value dc : js) (p : string) :
  compare globals outer op (mk_frame (JObj fields) temp temp2 value dc) p "values"
  = match globals "values" with
    | Some v => Normal (JBool (op (field_get p fields) v))
    | None => Abrupt (ReferenceError "values")
    end.
Proof.
  unfold compare, rule_field.
  change (resolve globals outer (mk_frame (JObj fields) temp temp2 value dc) "a")
    with (Normal (JObj fields)).
  change (resolve globals outer (mk_frame (JObj fields) temp temp2 value dc) "values")
    with (match globals "values" with
          | Some v => Normal v
          | None => Abrupt (ReferenceError "values")
          end).
  destruct (globals "values"); reflexivity.
Qed.

Lemma first_switch_normal (fields : list (string * js)) (temp temp2 value dc : js) :
  exists t,
    first_switch loose_eq gt lt ge le globals outer
      (mk_frame (JObj fields) temp temp2 value dc) = Normal t.
Proof.
  unfold first_switch, rule_field.
  change (resolve globals outer (mk_frame (JObj fields) temp temp2 value dc) "a")
    with (Normal (JObj fields)).
  cbn [bind ret Monad_completion member].
  repeat match goal with
         | |- context [if case_is ?c ?l then _ else _] => destruct (case_is c l)
         end;
    try rewrite compare_with_value; eauto.
Qed.

Lemma second_switch_less_than_equal (fields : list (string * js))
    (temp temp2 value dc : js) :
  field_get "condition2" fields = JStr "Is Less than Equal to" ->
  second_switch gt lt ge le globals outer (mk_frame (JObj fields) temp temp2 value dc)
  = match globals "values" with
    | Some v => Normal (JBool (ge (field_get "value2" fields) v))
    | None => Abrupt (ReferenceError "values")
    end.
Proof.
  intros C. unfold second_switch, rule_field.
  change (resolve globals outer (mk_frame (JObj fields) temp temp2 value dc) "a")
    with (Normal (JObj fields)).
  cbn [bind ret Monad_completion member]. rewrite C.
  change (case_is (JStr "Is Less than Equal to") "Is Less than") with false.
  change (case_is (JStr "Is Less than Equal to") "Is Greater than") with false.
  change (case_is (JStr "Is Less than Equal to") "Is Less than Equal to") with true.
  cbv iota. apply compare_with_values.
Qed.

End RuleFacts.

(** C10.  For a rule whose second condition is ["Is Less than Equal to"],
    the branch evaluates [a.value2 >= values]: it reads the identifier
    [values], which nothing in scope declares, and never the displayed
    [value].  So what the branch assigns does not depend on the displayed
    value; and where the global object has no [values] either, the branch
    ends with a [ReferenceError] in place of the boolean [a.value2 >= value],
    and so does the loop step for that rule. *)
Theorem less_than_equal_branch_reads_values :
  forall (loose_eq gt lt ge le : SmartScalar.js -> SmartScalar.js -> bool)
         (globals : string -> option SmartScalar.js) (outer : string -> SmartScalar.js)
         (a temp value dc : SmartScalar.js),
    SmartScalar.member a "condition2"
    = SmartScalar.Normal (SmartScalar.JStr "Is Less than Equal to") ->
    (forall value' : SmartScalar.js,
        SmartScalar.second_switch gt lt ge le globals outer
          (SmartScalar.mk_frame a temp SmartScalar.JUndefined value' dc)
        = SmartScalar.second_switch gt lt ge le globals outer
            (SmartScalar.mk_frame a temp SmartScalar.JUndefined value dc))
    /\ (globals "values" = None ->
        SmartScalar.second_switch gt lt ge le globals outer
          (SmartScalar.mk_frame a temp SmartScalar.JUndefined value dc)
        = SmartScalar.Abrupt (SmartScalar.ReferenceError "values")
        /\ SmartScalar.second_switch gt lt ge le globals outer
             (SmartScalar.mk_frame a temp SmartScalar.JUndefined value dc)
           <> SmartScalar.intended_less_than_equal ge globals outer
                (SmartScalar.mk_frame a temp SmartScalar.JUndefined value dc)
        /\ SmartScalar.rule_step loose_eq gt lt ge le globals outer dc value a
           = SmartScalar.Abrupt (SmartScalar.ReferenceError "values")).
Proof.
  intros loose_eq gt lt ge le globals outer a temp value dc C.
  destruct (member_string _ _ _ C) as (fields & -> & F).
  split.
  - intros value'. now rewrite !(second_switch_less_than_equal gt lt ge le globals outer _ _ _ _ _ F).
  - intros G. split; [|split].
    + rewrite (second_switch_less_than_equal gt lt ge le globals outer _ _ _ _ _ F).
      now rewrite G.
    + rewrite (second_switch_less_than_equal gt lt ge le globals outer _ _ _ _ _ F).
      rewrite G. unfold SmartScalar.intended_less_than_equal.
      rewrite compare_with_value. discriminate.
    + unfold SmartScalar.rule_step.
      destruct (first_switch_normal loose_eq gt lt ge le globals outer fields
                  SmartScalar.JUndefined SmartScalar.JUndefined value dc) as [t ->].
      cbn [bind ret SmartScalar.Monad_completion].
      rewrite (second_switch_less_than_equal gt lt ge le globals outer _ _ _ _ _ F).
      now rewrite G.
Qed.

Lemma less_than_equal_branch_reads_values_witness :
  SmartScalar.member (SmartScalar.rule_at_most 5 "red") "condition2"
  = SmartScalar.Normal (SmartScalar.JStr "Is Less than Equal to")
  /\ SmartScalar.no_globals "values" = None
  /\ SmartScalar.rule_step
       (SmartScalar.on_numbers Z.eqb) (SmartScalar.on_numbers Z.gtb)
       (SmartScalar.on_numbers Z.ltb) (SmartScalar.on_numbers Z.geb)
       (SmartScalar.on_numbers Z.leb) SmartScalar.no_globals
       (fun _ => SmartScalar.JUndefined)
       (SmartScalar.JStr EmptyString) (SmartScalar.JNum 3) (SmartScalar.rule_at_most 5 "red")
     = SmartScalar.Abrupt (SmartScalar.ReferenceError "values").
Proof.
  split; [reflexivity|]. split; [reflexivity|].
  exact (proj2 (proj2 (proj2 (less_than_equal_branch_reads_values
                                (SmartScalar.on_numbers Z.eqb) (SmartScalar.on_numbers Z.gtb)
                                (SmartScalar.on_numbers Z.ltb) (SmartScalar.on_numbers Z.geb)
                                (SmartScalar.on_numbers Z.leb) SmartScalar.no_globals
                                (fun _ => SmartScalar.JUndefined)
                                (SmartScalar.rule_at_most 5 "red")
                                SmartScalar.JUndefined (SmartScalar.JNum 3)
                                (SmartScalar.JStr EmptyString) eq_refl) eq_refl))).
Defined.

(** The displayed value 3 is greater than 1 and at most 5, so the rule was
    meant to color it; the loop ends with the [ReferenceError].  With some
    global [values] the rule compares with that, whatever is displayed. *)
Example rule_at_most_5_on_3 :
  SmartScalar.intended_less_than_equal (SmartScalar.on_numbers Z.geb)
    SmartScalar.no_globals (fun _ => SmartScalar.JUndefined)
    (SmartScalar.mk_frame (SmartScalar.rule_at_most 5 "red") SmartScalar.JUndefined
       SmartScalar.JUndefined (SmartScalar.JNum 3) (SmartScalar.JStr EmptyString))
  = SmartScalar.Normal (SmartScalar.JBool true)
  /\ SmartScalar.display_color
       (SmartScalar.on_numbers Z.eqb) (SmartScalar.on_numbers Z.gtb)
       (SmartScalar.on_numbers Z.ltb) (SmartScalar.on_numbers Z.geb)
       (SmartScalar.on_numbers Z.leb) SmartScalar.no_globals
       (fun _ => SmartScalar.JUndefined)
       (SmartScalar.JObj [("rules", SmartScalar.JArr [SmartScalar.rule_at_most 5 "red"])])
       (SmartScalar.JNum 3)
     = SmartScalar.Abrupt (SmartScalar.ReferenceError "values")
  /\ SmartScalar.display_color
       (SmartScalar.on_numbers Z.eqb) (SmartScalar.on_numbers Z.gtb)
       (SmartScalar.on_numbers Z.ltb) (SmartScalar.on_numbers Z.geb)
       (SmartScalar.on_numbers Z.leb)
       (fun x => if String.eqb x "values" then Some (SmartScalar.JNum 10) else None)
       (fun _ => SmartScalar.JUndefined)
       (SmartScalar.JObj [("rules", SmartScalar.JArr [SmartScalar.rule_at_most 5 "red"])])
       (SmartScalar.JNum 3)
     = SmartScalar.Normal (SmartScalar.JStr EmptyString).
Proof. repeat split; reflexivity. Qed.

(** ** Further properties of [metabase.actions] *)

Lemma contains_known_actions (e : env) (action : value) :
  contains_p (known_actions e) action = true <-> registered_for e action.
Proof.
  unfold contains_p, known_actions, method_keys, registered_for.
  change (filter sequential_p (default_key :: map fst (driver_methods e)))
    with (filter sequential_p (map fst (driver_methods e))).
  rewrite existsb_exists. split.
  - intros (x & I & E). apply in_map_iff in I. destruct I as (k & <- & I).
    apply filter_In in I. destruct I as [I S].
    apply in_map_iff in I. destruct I as ([k' f] & <- & I).
    exists k', f. auto.
  - intros (k & f & I & S & E). exists (second k). split; [|exact E].
    apply in_map_iff. exists k. split; [reflexivity|].
    apply filter_In. split; [|exact S].
    apply in_map_iff. exists (k, f). auto.
Qed.

(** X1.  The body of the default method of [perform-action!*] never returns
    a value and touches nothing.  It raises "Unknown Action" with status 404
    exactly when no driver registered a method under a vector key whose
    second element is the action, and "not supported for this Database" with
    status 400 when some driver did; the [:default] key itself never makes
    an action known. *)
Theorem default_body_tells_unknown_from_unsupported :
  forall (e : env) (driver action arg_map : value) (w : world),
    (registered_for e (keyword action)
     /\ perform_action_default_body e driver action arg_map w
        = (Throw (unsupported_action (keyword action) driver), w)
     /\ status_code (unsupported_action (keyword action) driver) = Some 400)
    \/ (~ registered_for e (keyword action)
        /\ perform_action_default_body e driver action arg_map w
           = (Throw (unknown_action e (keyword action)), w)
        /\ status_code (unknown_action e (keyword action)) = Some 404).
Proof.
  intros e driver action arg_map w.
  rewrite perform_action_default_body_run.
  destruct (contains_p (known_actions e) (keyword action)) eqn:K.
  - left. split; [now apply contains_known_actions|]. split; reflexivity.
  - right. split; [|split; reflexivity].
    intros R. apply contains_known_actions in R. congruence.
Qed.

(** X2.  Whenever the dispatch value of a call of [perform-action!*]
    matches no key of the method table, the call ends with the arity error
    of the default method (three parameters declared, four passed) and
    records nothing: neither the 404 nor the 400 of its body is ever seen
    through the multimethod. *)
Theorem unmatched_dispatch_ends_in_arity_error :
  forall (e : env) (driver action db arg_map d : value) (w : world),
    dispatch_on_initialized_driver e driver = Return d ->
    driver_isa e (VVec [d; keyword action]) default_key = false ->
    (forall k f, In (k, f) (driver_methods e) ->
                 driver_isa e (VVec [d; keyword action]) k = false) ->
    call_perform_action_star e [driver; action; db; arg_map] w
    = (Throw (ArityException 4 "perform-action!* :default"), w)
    /\ status_code (ArityException 4 "perform-action!* :default") = None.
Proof.
  intros e driver action db arg_map d w D K N. split; [|reflexivity].
  now apply unhandled_dispatch_raises_arity with (d := d).
Qed.

Lemma unmatched_dispatch_ends_in_arity_error_witness :
  call_perform_action_star (Sample.sample_env true true [Sample.row_create_handler "postgres"])
    [kw "h2"; VKw "row" "archive"; Sample.sample_db true; Sample.create_bob] Sample.w0
  = (Throw (ArityException 4 "perform-action!* :default"), Sample.w0).
Proof.
  refine (proj1 (unmatched_dispatch_ends_in_arity_error
                   (Sample.sample_env true true [Sample.row_create_handler "postgres"])
                   (kw "h2") (VKw "row" "archive") (Sample.sample_db true) Sample.create_bob
                   (kw "h2") Sample.w0 eq_refl eq_refl _)).
  intros k f [I | []]. inversion I. reflexivity.
Defined.

Lemma best_method_skip {A : Type} (isa : value -> value -> bool) (name : string)
    (dv : value) (pre rest : list (value * fn A)) (best : option (value * fn A)) :
  (forall k f, In (k, f) pre -> isa dv k = false) ->
  best_method isa name dv (pre ++ rest) best = best_method isa name dv rest best.
Proof.
  induction pre as [|[k f] pre IH]; intros H; [reflexivity|].
  cbn [app best_method]. rewrite (H k f (or_introl eq_refl)).
  apply IH. intros k' f' I. apply (H k' f'). now right.
Qed.

(** The one key that matches is the method that is called. *)
Lemma single_match_is_called (e : env) (driver action db arg_map d k : value)
    (name : string) (h : value -> value -> value -> value -> M value)
    (pre post : list (value * fn (M value))) :
  dispatch_on_initialized_driver e driver = Return d ->
  driver_methods e = (pre ++ (k, mk_fn name 4 h) :: post)%list ->
  driver_isa e (VVec [d; keyword action]) k = true ->
  driver_isa e k k = true ->
  driver_isa e (VVec [d; keyword action]) default_key = false ->
  (forall k' f', In (k', f') (pre ++ post) ->
                 driver_isa e (VVec [d; keyword action]) k' = false) ->
  invoke_multi (perform_action_star e) [driver; action; db; arg_map]
  = Return (h driver action db arg_map).
Proof.
  intros D T I R K N. unfold invoke_multi.
  cbn [bind ret Monad_result].
  change (invoke (dispatch_fn (perform_action_star e)) [driver; action; db; arg_map])
    with (Return (d <- dispatch_on_initialized_driver e driver ;;
                  ret (VVec [d; keyword action])) : result (result value)).
  cbv beta iota. rewrite D. cbn [bind ret Monad_result].
  unfold get_method. cbn [method_table perform_action_star isa multi_name].
  rewrite T.
  cbn [best_method]. rewrite K.
  rewrite best_method_skip.
  2:{ intros k' f' I'. apply (N k' f'). apply in_or_app. now left. }
  cbn [best_method fst]. rewrite I, R.
  rewrite best_method_no_match.
  2:{ intros k' f' I'. apply (N k' f'). apply in_or_app. now right. }
  reflexivity.
Qed.

(** X3.  When the argument map is valid, the global flag is on, the driver
    supports actions, the resource's own settings enable actions, the
    authorization check (made only for a current user) lets the call
    through, and exactly one registered key matches the dispatch value with
    a four-parameter method: [perform-action!] hands the driver, the action,
    the resource and the argument map to that method, under the resource's
    settings, and the outcome of the method, value or exception, is the
    outcome of the call, unchanged, with the binding the call found put
    back. *)
Theorem handler_outcome_passes_through :
  forall (e : env) (action : value) (spec : spec_ref) (arg_map d k authorized : value)
         (name : string) (h : value -> value -> value -> value -> M value)
         (pre post : list (value * fn (M value))) (w : world),
    let db := Database e (get_kw arg_map "database") in
    let driver := get_kw db "engine" in
    let settings := get_kw db "settings" in
    conform_invalid e spec arg_map = Return false ->
    experimental_enable_actions e = true ->
    database_supports e driver (kw "actions") db = Return true ->
    database_enable_actions e settings = true ->
    (if truthy (current_user e) then check_superuser e else Return VNil) = Return authorized ->
    dispatch_on_initialized_driver e driver = Return d ->
    driver_methods e = (pre ++ (k, mk_fn name 4 h) :: post)%list ->
    driver_isa e (VVec [d; keyword action]) k = true ->
    driver_isa e k k = true ->
    driver_isa e (VVec [d; keyword action]) default_key = false ->
    (forall k' f', In (k', f') (pre ++ post) ->
                   driver_isa e (VVec [d; keyword action]) k' = false) ->
    let entered :=
      extend (set_database_local_values settings w)
        (gate_prefix e spec arg_map
         ++ (LocalFlagRead settings
             :: (if truthy (current_user e) then [AuthorizationCheck] else []))
         ++ [MethodInvoked [driver; action; db; arg_map]]) in
    perform_action_body e action spec arg_map w
    = (fst (h driver action db arg_map entered),
       set_database_local_values (database_local_values w)
         (snd (h driver action db arg_map entered))).
Proof.
  intros e action spec arg_map d k authorized name h pre post w db driver settings
         V G C L A D T I R K N entered.
  rewrite (body_bound e action spec arg_map w V G C).
  unfold binding. rewrite perform_action_bound_run. cbn zeta.
  change (database_local_values
            (set_database_local_values (get_kw (Database e (get_kw arg_map "database")) "settings")
               (extend w (gate_prefix e spec arg_map))))
    with settings.
  rewrite L. cbn [negb]. rewrite A.
  fold db. fold driver.
  rewrite (single_match_is_called e driver action db arg_map d k name h pre post D T I R K N).
  rewrite extend_set_database_local_values, extend_extend.
  fold settings. rewrite <- extend_set_database_local_values.
  fold entered. destruct (h driver action db arg_map entered) as [r w'].
  reflexivity.
Qed.

Lemma handler_outcome_passes_through_witness :
  perform_action_body (Sample.sample_env true true [Sample.failing_handler "h2"])
    Sample.row_create_action (spec_kw ("actions.args.crud", "row.create"))
    Sample.create_bob (mk_world (VStr "ambient") VNil [])
  = (Throw (JavaException "java.sql.SQLException" (Lit "constraint violation")),
     mk_world (VStr "ambient") Sample.create_bob
       [SpecChecked (spec_kw ("actions.args.crud", "row.create")) Sample.create_bob;
        GlobalFlagRead;
        ResourceLookup (VInt 2);
        CapabilityCheck (kw "h2") (Sample.sample_db true);
        LocalFlagRead (VMap [(kw "database-enable-actions", VBool true)]);
        MethodInvoked [kw "h2"; Sample.row_create_action; Sample.sample_db true;
                       Sample.create_bob]]).
Proof.
  refine (handler_outcome_passes_through
            (Sample.sample_env true true [Sample.failing_handler "h2"])
            Sample.row_create_action (spec_kw ("actions.args.crud", "row.create"))
            Sample.create_bob (kw "h2") (VVec [kw "h2"; Sample.row_create_action]) VNil
            "perform-action!* :row/create" _ [] []
            (mk_world (VStr "ambient") VNil [])
            eq_refl eq_refl eq_refl eq_refl eq_refl eq_refl eq_refl eq_refl eq_refl eq_refl _).
  intros k' f' [].
Defined.

(** X4.  [action-arg-map-spec] answers for every action, given as a string
    or as a keyword, and the contract it names is always found in the
    registry, so validation itself never fails to run.  An action other than
    [row/create], [row/update], [row/delete] and [bulk/delete] gets [any?]:
    the only argument map refused for it is the keyword
    [:clojure.spec.alpha/invalid] itself, which clojure.spec takes for a
    failed conform. *)
Theorem every_action_has_a_contract :
  forall (e : env) (action arg_map : value),
    invoke_multi action_arg_map_spec [keyword action] = Return (spec_for (keyword action))
    /\ (exists b, conform_invalid e (spec_for (keyword action)) arg_map = Return b)
    /\ (has_contract (keyword action) = false ->
        spec_for (keyword action) = spec_fn any_p
        /\ conform_invalid e (spec_for (keyword action)) arg_map
           = Return (invalid_p arg_map)).
Proof.
  intros e action arg_map. split; [apply action_arg_map_spec_run|]. split.
  - unfold spec_for, conform_invalid.
    repeat match goal with
           | |- context [if kw_eqb ?a ?b then _ else _] => destruct (kw_eqb a b)
           end; cbn [resolve]; rewrite ?loaded_get; eexists; reflexivity.
  - unfold has_contract, spec_for. intros H.
    destruct (kw_eqb (keyword action) (VKw "row" "create")); [discriminate|].
    destruct (kw_eqb (keyword action) (VKw "row" "update")); [discriminate|].
    destruct (kw_eqb (keyword action) (VKw "row" "delete")); [discriminate|].
    destruct (kw_eqb (keyword action) (VKw "bulk" "delete")); [discriminate|].
    split; [reflexivity|].
    unfold conform_invalid. cbn [resolve]. rewrite valid_pred.
    cbn [pred_holds andb]. now rewrite negb_involutive.
Qed.

Lemma every_action_has_a_contract_witness :
  has_contract (keyword (VStr "bulk/create")) = false
  /\ conform_invalid (Sample.sample_env true true [])
       (spec_for (keyword (VStr "bulk/create"))) (VStr "anything at all")
     = Return false
  /\ conform_invalid (Sample.sample_env true true [])
       (spec_for (keyword (VStr "bulk/create"))) (VKw "clojure.spec.alpha" "invalid")
     = Return true.
Proof.
  split; [reflexivity|]. split.
  - exact (proj2 (proj2 (proj2 (every_action_has_a_contract (Sample.sample_env true true [])
                                  (VStr "bulk/create") (VStr "anything at all"))) eq_refl)).
  - exact (proj2 (proj2 (proj2 (every_action_has_a_contract (Sample.sample_env true true [])
                                  (VStr "bulk/create") (VKw "clojure.spec.alpha" "invalid")))
                    eq_refl)).
Defined.

(** X5.  Called with the two arguments its dispatch function declares,
    [normalize-action-arg-map] gives the argument map back unchanged for
    every action other than [row/create], [row/update] and [row/delete]:
    the default normalizer is the identity, and it never fails. *)
Theorem default_normalizer_is_identity :
  forall (e : env) (action arg_map : value),
    row_action (keyword action) = false ->
    invoke_multi (normalize_action_arg_map e) [action; arg_map] = Return (Return arg_map).
Proof.
  intros e action arg_map H.
  unfold invoke_multi. cbn [bind ret Monad_result].
  change (invoke (dispatch_fn (normalize_action_arg_map e)) [action; arg_map])
    with (Return (Return (keyword action)) : result (result value)).
  cbv beta iota.
  destruct (keyword_cases action) as [E | (ns & name & E)]; rewrite E in *; [reflexivity|].
  unfold row_action in H. unfold get_method. simpl in H |- *.
  repeat match goal with
         | |- context [String.eqb ?a ?b] => destruct (String.eqb a b) eqn:?; simpl in *
         end; try discriminate; reflexivity.
Qed.

Lemma default_normalizer_is_identity_witness :
  row_action (keyword (VStr "bulk/delete")) = false
  /\ invoke_multi (normalize_action_arg_map (Sample.sample_env true true []))
       [VStr "bulk/delete"; bulk_delete_scenario]
     = Return (Return bulk_delete_scenario).
Proof.
  split; [reflexivity|].
  exact (default_normalizer_is_identity (Sample.sample_env true true [])
           (VStr "bulk/delete") bulk_delete_scenario eq_refl).
Defined.

(** *** [normalize-as-mbql-query] *)

Lemma is_kw_refl (ns name : string) : is_kw ns name (VKw ns name) = true.
Proof. simpl. now rewrite !String.eqb_refl. Qed.

Lemma assoc_get_put_same (ns name : string) (v : value) (es : list (value * value)) :
  assoc_get ns name (assoc_put ns name v es) = Some v.
Proof.
  induction es as [|[k x] es IH]; cbn [assoc_put assoc_get].
  - now rewrite is_kw_refl.
  - destruct (is_kw ns name k) eqn:K; cbn [assoc_get]; rewrite K; [reflexivity | exact IH].
Qed.

Lemma assoc_get_put_other (ns name ns' name' : string) (v : value)
    (es : list (value * value)) :
  (ns', name') <> (ns, name) ->
  assoc_get ns' name' (assoc_put ns name v es) = assoc_get ns' name' es.
Proof.
  intros D.
  assert (O : is_kw ns' name' (VKw ns name) = false).
  { simpl. destruct (String.eqb_spec ns' ns); [|reflexivity].
    destruct (String.eqb_spec name' name); [|reflexivity]. subst. now elim D. }
  induction es as [|[k x] es IH]; cbn [assoc_put assoc_get].
  - now rewrite O.
  - destruct (is_kw ns name k) eqn:K; cbn [assoc_get].
    + rewrite (is_kw_true _ _ _ K), O. reflexivity.
    + destruct (is_kw ns' name' k); [reflexivity | exact IH].
Qed.

Lemma assoc_kw_lookup (m r : value) (name : string) (v : value) :
  assoc_kw m name v = Return r ->
  lookup r name = Some v
  /\ forall name', name' <> name -> lookup r name' = lookup m name'.
Proof.
  destruct m; simpl; try discriminate; intros H; inversion H; subst; clear H.
  - split.
    + unfold lookup. simpl. now rewrite !String.eqb_refl.
    + intros name' D. unfold lookup. simpl.
      destruct (String.eqb_spec name' name); [now elim D | reflexivity].
  - split.
    + apply assoc_get_put_same.
    + intros name' D. apply assoc_get_put_other. intros E. inversion E. now elim D.
Qed.

(** X6.  A query that [normalize-as-mbql-query] returns is the query the
    MBQL normalizer produced with [:type] set to [:query], whatever type it
    had before: every other key holds what the normalizer put there, and the
    returned query is the one the schema accepted. *)
Theorem normalized_query_is_stamped :
  forall (e : env) (query r : value),
    normalize_as_mbql_query e query = Return r ->
    lookup r "type" = Some (kw "query")
    /\ exists normalized checked,
         mbql_normalize e query = Return normalized
         /\ (forall name, name <> "type" -> lookup r name = lookup normalized name)
         /\ schema_validate_query e r = Return checked.
Proof.
  intros e query r. unfold normalize_as_mbql_query. cbn [bind ret Monad_result].
  destruct (mbql_normalize e query) as [n|ex]; [|discriminate].
  destruct (assoc_kw n "type" (kw "query")) as [q|ex] eqn:A; [|discriminate].
  destruct (schema_validate_query e q) as [c|ex] eqn:S;
    [|destruct (is_exception ex); discriminate].
  intros H. inversion H; subst; clear H.
  destruct (assoc_kw_lookup _ _ _ _ A) as [T O].
  split; [exact T|]. exists n, c. auto.
Qed.

Lemma normalized_query_is_stamped_witness :
  normalize_as_mbql_query (Sample.sample_env true true [])
    (VMap [(kw "database", VInt 2); (kw "type", kw "native")])
  = Return (VMap [(kw "database", VInt 2); (kw "type", kw "query")])
  /\ lookup (VMap [(kw "database", VInt 2); (kw "type", kw "query")]) "type"
     = Some (kw "query").
Proof.
  split; [reflexivity|].
  exact (proj1 (normalized_query_is_stamped (Sample.sample_env true true [])
                  (VMap [(kw "database", VInt 2); (kw "type", kw "native")])
                  (VMap [(kw "database", VInt 2); (kw "type", kw "query")]) eq_refl)).
Defined.

(** X7.  [normalize-as-mbql-query] fails in four ways only.  A failure of
    the MBQL normalizer comes out as it was raised, and so do the failure to
    put [:type] on something that is not a map and a throwable of the schema
    validation that is no exception (a [java.lang.Error]), which the [catch]
    does not take: none of them gets a status code from this function.  Only
    an exception of the schema validation is rewrapped: the message is the
    schema's, the schema's data sits under [:exception-data], and the status
    code is 400. *)
Theorem normalizer_failures :
  forall (e : env) (query : value) (ex : exn),
    normalize_as_mbql_query e query = Throw ex ->
    mbql_normalize e query = Throw ex
    \/ (exists normalized,
           mbql_normalize e query = Return normalized
           /\ assoc_kw normalized "type" (kw "query") = Throw ex)
    \/ (exists normalized stamped,
           mbql_normalize e query = Return normalized
           /\ assoc_kw normalized "type" (kw "query") = Return stamped
           /\ schema_validate_query e stamped = Throw ex
           /\ is_exception ex = false)
    \/ (exists normalized stamped inner,
           mbql_normalize e query = Return normalized
           /\ assoc_kw normalized "type" (kw "query") = Return stamped
           /\ schema_validate_query e stamped = Throw inner
           /\ is_exception inner = true
           /\ ex = grammar_error inner
           /\ status_code ex = Some 400
           /\ ex_message ex = ex_message inner
           /\ lookup (ex_data ex) "exception-data" = Some (ex_data inner)).
Proof.
  intros e query ex. unfold normalize_as_mbql_query. cbn [bind ret Monad_result].
  destruct (mbql_normalize e query) as [n|ex1].
  2:{ intros H. inversion H. now left. }
  destruct (assoc_kw n "type" (kw "query")) as [q|ex2] eqn:A.
  2:{ intros H. inversion H; subst. right. left. eauto. }
  destruct (schema_validate_query e q) as [c|inner] eqn:S; [discriminate|].
  destruct (is_exception inner) eqn:C; intros H; inversion H; subst; clear H.
  - right. right. right. exists n, q, inner. repeat split; assumption.
  - right. right. left. exists n, q. repeat split; assumption.
Qed.

Lemma normalizer_failures_witness :
  normalize_as_mbql_query (Sample.sample_env true true [])
    (VMap [(kw "create-row", VMap [(kw "name", VStr "Bob")])])
  = Throw (grammar_error
             (ExInfo (Lit "Value does not match schema")
                (VMap [(kw "error", VMap [(kw "database", VStr "missing-required-key")])])))
  /\ status_code
       (grammar_error
          (ExInfo (Lit "Value does not match schema")
             (VMap [(kw "error", VMap [(kw "database", VStr "missing-required-key")])])))
     = Some 400
  /\ normalize_as_mbql_query overflowing_env (VMap [(kw "database", VInt 2)])
     = Throw (JavaError "java.lang.StackOverflowError" (Lit "validate"))
  /\ is_exception (JavaError "java.lang.StackOverflowError" (Lit "validate")) = false.
Proof.
  split; [reflexivity|]. split; [|split; [reflexivity|]].
  - destruct (normalizer_failures (Sample.sample_env true true [])
                (VMap [(kw "create-row", VMap [(kw "name", VStr "Bob")])])
                (grammar_error
                   (ExInfo (Lit "Value does not match schema")
                      (VMap [(kw "error",
                              VMap [(kw "database", VStr "missing-required-key")])])))
                eq_refl)
      as [H | [(n & _ & H) | [(n & q & _ & _ & _ & H)
                             | (n & q & inner & _ & _ & _ & _ & _ & S & _)]]].
    + discriminate H.
    + reflexivity.
    + reflexivity.
    + exact S.
  - destruct (normalizer_failures overflowing_env (VMap [(kw "database", VInt 2)])
                (JavaError "java.lang.StackOverflowError" (Lit "validate")) eq_refl)
      as [H | [(n & _ & H) | [(n & q & _ & _ & _ & H)
                             | (n & q & inner & _ & _ & _ & _ & H & _)]]].
    + discriminate H.
    + reflexivity.
    + exact H.
    + discriminate H.
Defined.

(** *** More on the validation contracts *)

Lemma id_is_positive_integer (reg : registry_t) (v : value) :
  valid reg v actions_args_id = true -> exists z, v = VInt z /\ 0 < z.
Proof.
  unfold actions_args_id. rewrite valid_and. cbn [forallb]. rewrite !valid_pred.
  destruct v; simpl; try discriminate.
  intros H. exists z. split; [reflexivity|].
  rewrite !andb_true_r in H. now apply Z.ltb_lt.
Qed.

Lemma crud_common_requires (elsewhere : foreign_specs) (m : value) :
  valid (loaded elsewhere) m crud_common = true ->
  exists d t,
    lookup m "database" = Some (VInt d) /\ 0 < d
    /\ lookup (get_kw m "query") "source-table" = Some (VInt t) /\ 0 < t.
Proof.
  intros V.
  destruct (keys_required _ m _ ("actions.args.crud.common", "database")
              crud_common_database V)
    as (dv & D & VD); [simpl; auto | reflexivity |].
  destruct (keys_required _ m _ ("actions.args.crud.common", "query") crud_common_query V)
    as (q & Q & VQ); [simpl; auto | reflexivity |].
  cbn [snd] in D, Q.
  destruct (id_is_positive_integer _ _ VD) as (d & -> & Dpos).
  destruct (keys_required _ q _ ("actions.args.crud.common.query", "source-table")
              crud_common_query_source_table VQ) as (tv & T & VT);
    [simpl; auto | reflexivity |].
  cbn [snd] in T.
  destruct (id_is_positive_integer _ _ VT) as (t & -> & Tpos).
  exists d, t. rewrite (get_kw_found _ _ _ Q). auto.
Qed.

(** X8.  Every argument map that satisfies the contract of [row/create],
    [row/update] or [row/delete], and every element of a vector that
    satisfies the contract of [bulk/delete], names its database by a
    positive integer and holds a query fragment that names its source table
    by a positive integer, whatever specs other namespaces have
    registered. *)
Theorem contracts_require_database_and_source_table :
  forall (elsewhere : foreign_specs) (m : value),
    valid (loaded elsewhere) m row_create = true
    \/ valid (loaded elsewhere) m row_update = true
    \/ valid (loaded elsewhere) m row_delete = true
    \/ (exists items,
           In m items /\ valid (loaded elsewhere) (VVec items) bulk_delete = true) ->
    exists d t,
      lookup m "database" = Some (VInt d) /\ 0 < d
      /\ lookup (get_kw m "query") "source-table" = Some (VInt t) /\ 0 < t.
Proof.
  intros elsewhere m [V | [V | [V | (items & I & V)]]].
  - apply (crud_common_requires elsewhere). exact (merge_head _ _ _ _ V).
  - apply (crud_common_requires elsewhere). exact (merge_head _ _ _ _ V).
  - apply (crud_common_requires elsewhere). exact (merge_head _ _ _ _ V).
  - rewrite bulk_delete_items in V. cbn [coll_items] in V.
    rewrite forallb_forall in V. specialize (V m I).
    apply (crud_common_requires elsewhere). exact (merge_head _ _ _ _ V).
Qed.

Lemma contracts_require_database_and_source_table_witness :
  valid registry Sample.create_bob row_create = true
  /\ exists d t,
       lookup Sample.create_bob "database" = Some (VInt d) /\ 0 < d
       /\ lookup (get_kw Sample.create_bob "query") "source-table" = Some (VInt t) /\ 0 < t.
Proof.
  split; [reflexivity|].
  exact (contracts_require_database_and_source_table [] Sample.create_bob
           (or_introl eq_refl)).
Defined.

Lemma req_un_none_differs (req_un : list spec_name) (name : string) (n : spec_name) :
  req_un_spec_name req_un name = None -> In n req_un -> snd n <> name.
Proof.
  induction req_un as [|n' rest IH]; cbn [req_un_spec_name]; [intros _ []|].
  destruct (String.eqb_spec (snd n') name) as [E | D]; [discriminate|].
  intros H [-> | I]; [exact D | now apply IH].
Qed.

Lemma contains_after_put (es : list (value * value)) (ns name other : string) (v : value) :
  (EmptyString, other) <> (ns, name) ->
  contains_kw (assoc_put ns name v es) EmptyString other
  = contains_kw es EmptyString other.
Proof.
  intros D. unfold contains_kw. now rewrite assoc_get_put_other.
Qed.

Lemma forallb_eq_in {A : Type} (f g : A -> bool) (l : list A) :
  (forall x, In x l -> f x = g x) -> forallb f l = forallb g l.
Proof.
  induction l as [|a l IH]; intros H; [reflexivity|].
  cbn [forallb]. rewrite (H a (or_introl eq_refl)), IH; [reflexivity|].
  intros x I. apply H. now right.
Qed.

(** [s/keys] does not look at a key it does not list and under which no
    spec is registered. *)
Lemma keys_ignore_other_key (reg : registry_t) (req_un : list spec_name)
    (es : list (value * value)) (ns name : string) (v : value) :
  (ns = EmptyString -> req_un_spec_name req_un name = None) ->
  (ns <> EmptyString -> registry_get reg (ns, name) = None) ->
  valid reg (VMap (assoc_put ns name v es)) (SKeys req_un)
  = valid reg (VMap es) (SKeys req_un).
Proof.
  intros U Q. rewrite !valid_keys. f_equal.
  - apply forallb_eq_in. intros n I. apply contains_after_put.
    intros E. inversion E; subst.
    exact (req_un_none_differs _ _ _ (U eq_refl) I eq_refl).
  - assert (K : key_spec reg req_un (VKw ns name) = None).
    { cbn [key_spec]. destruct (String.eqb_spec ns EmptyString) as [E | D].
      - now rewrite (U E).
      - exact (Q D). }
    induction es as [|[k x] es IH]; cbn [assoc_put forallb fst snd].
    + now rewrite K.
    + destruct (is_kw ns name k) eqn:E; cbn [forallb fst snd].
      * rewrite (is_kw_true _ _ _ E), K. reflexivity.
      * now rewrite IH.
Qed.

(** X9.  The contracts are open: putting a further keyword key on an
    argument map, or changing the value under one, never changes whether
    the map satisfies the contract of [row/create], [row/update] or
    [row/delete], as long as the key is none of [:database], [:query],
    [:create-row] and [:update-row] and no spec is registered under it,
    here or elsewhere; no spec is ever registered under an unqualified key.
    So [:type] and whatever else the normalizer stamps on the map is not
    validated. *)
Theorem contracts_ignore_other_keys :
  forall (elsewhere : foreign_specs) (es : list (value * value)) (ns name : string)
         (v : value),
    (ns = EmptyString ->
     name <> "database" /\ name <> "query"
     /\ name <> "create-row" /\ name <> "update-row") ->
    (ns <> EmptyString -> registry_get (loaded elsewhere) (ns, name) = None) ->
    valid (loaded elsewhere) (VMap (assoc_put ns name v es)) row_create
    = valid (loaded elsewhere) (VMap es) row_create
    /\ valid (loaded elsewhere) (VMap (assoc_put ns name v es)) row_update
       = valid (loaded elsewhere) (VMap es) row_update
    /\ valid (loaded elsewhere) (VMap (assoc_put ns name v es)) row_delete
       = valid (loaded elsewhere) (VMap es) row_delete.
Proof.
  intros elsewhere es ns name v U Q.
  assert (N : forall req_un,
             (forall n, In n req_un ->
                        In (snd n) ["database"; "query"; "create-row"; "update-row"]) ->
             ns = EmptyString -> req_un_spec_name req_un name = None).
  { intros req_un L E. destruct (U E) as (D1 & D2 & D3 & D4).
    induction req_un as [|n rest IH]; [reflexivity|].
    cbn [req_un_spec_name].
    destruct (String.eqb_spec (snd n) name) as [S | S].
    - exfalso. destruct (L n (or_introl eq_refl)) as [H | [H | [H | [H | []]]]];
        rewrite S in H; congruence.
    - apply IH. intros n' I. apply L. now right. }
  unfold row_create, row_update, row_delete, crud_common.
  rewrite !valid_merge. cbn [forallb].
  rewrite !(keys_ignore_other_key (loaded elsewhere)); auto;
    apply N; intros n I; cbn [In] in I |- *;
    repeat (destruct I as [<- | I]; [cbn [snd]; tauto|]); destruct I.
Qed.

Lemma contracts_ignore_other_keys_witness :
  valid registry
    (VMap (assoc_put EmptyString "type" (kw "native")
             [(kw "database", VInt 2); (kw "type", kw "query");
              (kw "query", query_map (VInt 29) None);
              (kw "create-row", VMap [(kw "name", VStr "Bob")])]))
    row_create
  = valid registry
      (VMap [(kw "database", VInt 2); (kw "type", kw "query");
             (kw "query", query_map (VInt 29) None);
             (kw "create-row", VMap [(kw "name", VStr "Bob")])])
      row_create
  /\ registry_get (loaded [(("app.request", "id"), pred_holds integer_p)])
       ("app.request", "trace") = None
  /\ valid (loaded [(("app.request", "id"), pred_holds integer_p)])
       (VMap (assoc_put "app.request" "trace" (VStr "abc")
                [(kw "database", VInt 2);
                 (kw "query", query_map (VInt 29) (Some (filter_51 1)))]))
       row_delete
     = valid (loaded [(("app.request", "id"), pred_holds integer_p)])
         (VMap [(kw "database", VInt 2);
                (kw "query", query_map (VInt 29) (Some (filter_51 1)))])
         row_delete.
Proof.
  split; [|split; [reflexivity|]].
  - refine (proj1 (contracts_ignore_other_keys [] _ EmptyString "type" (kw "native") _ _));
      [intros _; repeat split; discriminate | intros D; now elim D].
  - refine (proj2 (proj2 (contracts_ignore_other_keys
                            [(("app.request", "id"), pred_holds integer_p)] _
                            "app.request" "trace" (VStr "abc") _ _)));
      [discriminate | reflexivity].
Defined.

(** A key under which another namespace registered a spec is validated
    against that spec, listed by the contract or not. *)
Example registered_key_is_validated :
  valid (loaded [(("app.request", "id"), pred_holds integer_p)])
    (VMap [(kw "database", VInt 2);
           (kw "query", query_map (VInt 29) (Some (filter_51 1)))])
    row_delete = true
  /\ valid (loaded [(("app.request", "id"), pred_holds integer_p)])
       (VMap (assoc_put "app.request" "id" (VStr "abc")
                [(kw "database", VInt 2);
                 (kw "query", query_map (VInt 29) (Some (filter_51 1)))]))
       row_delete = false
  /\ valid registry
       (VMap (assoc_put "actions.args" "id" (VStr "abc")
                [(kw "database", VInt 2);
                 (kw "query", query_map (VInt 29) (Some (filter_51 1)))]))
       row_delete = false.
Proof. repeat split; reflexivity. Qed.

(** The query fragments of [row/update] and [row/delete] have the same
    contract under two names. *)
Lemma update_query_is_delete_query (elsewhere : foreign_specs) (q : value) :
  valid (loaded elsewhere) q row_update_query = valid (loaded elsewhere) q row_delete_query.
Proof.
  unfold row_update_query, row_delete_query. rewrite !valid_merge. cbn [forallb].
  f_equal. f_equal.
  destruct q; try reflexivity.
  rewrite !valid_keys. f_equal.
  apply forallb_eq_in. intros [k x] _. cbn [fst snd].
  destruct k; try reflexivity.
  cbn [key_spec req_un_spec_name snd].
  destruct (String.eqb ns EmptyString); [|reflexivity].
  destruct (String.eqb "filter" name); [|reflexivity].
  now rewrite !loaded_get.
Qed.

(** X10.  The contract of [row/update] refines the contract of
    [row/delete]: every argument map that validates as a [row/update]
    argument map also validates as a [row/delete] argument map (its
    [:update-row] is not looked at), and so a vector of valid [row/update]
    argument maps validates for [bulk/delete], whatever specs other
    namespaces have registered. *)
Theorem update_arg_map_is_a_delete_arg_map :
  forall (elsewhere : foreign_specs) (m : value),
    valid (loaded elsewhere) m row_update = true ->
    valid (loaded elsewhere) m row_delete = true
    /\ valid (loaded elsewhere) (VVec [m]) bulk_delete = true.
Proof.
  intros elsewhere m V.
  assert (D : valid (loaded elsewhere) m row_delete = true).
  { unfold row_update in V. unfold row_delete.
    rewrite valid_merge in *. cbn [forallb] in *.
    apply andb_prop in V. destruct V as [C V]. rewrite C. cbn [andb].
    apply andb_prop in V. destruct V as [V _]. rewrite andb_true_r.
    destruct (valid_keys_is_map _ _ _ V) as [es ->].
    rewrite valid_keys in *. apply andb_prop in V. destruct V as [R E].
    cbn [forallb snd] in R |- *.
    apply andb_prop in R. destruct R as [_ R]. rewrite R. cbn [andb].
    rewrite forallb_forall in E. apply forallb_forall. intros [k x] I.
    specialize (E _ I). cbn [fst snd] in E |- *.
    destruct k; try reflexivity.
    cbn [key_spec req_un_spec_name snd] in E |- *.
    destruct (String.eqb_spec ns EmptyString) as [-> | NS]; [|exact E].
    destruct (String.eqb "update-row" name) eqn:U.
    - apply String.eqb_eq in U. subst name. reflexivity.
    - destruct (String.eqb "query" name) eqn:Q; [|exact E].
      rewrite loaded_get in E |- *.
      change (registry_get registry ("actions.args.crud.row.update", "query"))
        with (Some row_update_query) in E.
      change (registry_get registry ("actions.args.crud.row.delete", "query"))
        with (Some row_delete_query).
      cbv iota in E |- *.
      now rewrite <- update_query_is_delete_query. }
  split; [exact D|].
  rewrite bulk_delete_items. cbn [coll_items forallb]. now rewrite D.
Qed.

Lemma update_arg_map_is_a_delete_arg_map_witness :
  valid registry
    (mbql_rows (VInt 2) (query_map (VInt 29) (Some (filter_51 1)))
       [(kw "update-row", VMap [(kw "name", VStr "Bob")])])
    row_update = true
  /\ valid registry
       (mbql_rows (VInt 2) (query_map (VInt 29) (Some (filter_51 1)))
          [(kw "update-row", VMap [(kw "name", VStr "Bob")])])
       row_delete = true.
Proof.
  split; [reflexivity|].
  exact (proj1 (update_arg_map_is_a_delete_arg_map []
                  (mbql_rows (VInt 2) (query_map (VInt 29) (Some (filter_51 1)))
                     [(kw "update-row", VMap [(kw "name", VStr "Bob")])])
                  eq_refl)).
Defined.

(** *** More on the gate of [perform-action!] *)

(** X11.  The authorization check is made only when a current user is
    bound.  Without one, the call goes from the resource-local check
    straight to [perform-action!*], and what [api/check-superuser] would say
    plays no part in the outcome.  With one, a refusal by
    [api/check-superuser] is the outcome of the call: [perform-action!*] is
    not called and the store is untouched. *)
Theorem authorization_only_for_a_current_user :
  forall (e : env) (action : value) (spec : spec_ref) (arg_map : value) (w : world),
    let id := get_kw arg_map "database" in
    let db := Database e id in
    let driver := get_kw db "engine" in
    let settings := get_kw db "settings" in
    conform_invalid e spec arg_map = Return false ->
    experimental_enable_actions e = true ->
    database_supports e driver (kw "actions") db = Return true ->
    database_enable_actions e settings = true ->
    (truthy (current_user e) = false ->
     let w1 := extend (set_database_local_values settings w)
                 (gate_prefix e spec arg_map ++ [LocalFlagRead settings]) in
     perform_action_body e action spec arg_map w
     = (fst (call_perform_action_star e [driver; action; db; arg_map] w1),
        set_database_local_values (database_local_values w)
          (snd (call_perform_action_star e [driver; action; db; arg_map] w1))))
    /\ (forall ex : exn,
           truthy (current_user e) = true ->
           check_superuser e = Throw ex ->
           perform_action_body e action spec arg_map w
           = (Throw ex,
              extend w (gate_prefix e spec arg_map
                        ++ [LocalFlagRead settings; AuthorizationCheck]))).
Proof.
  intros e action spec arg_map w id db driver settings V G C L.
  rewrite (body_bound e action spec arg_map w V G C).
  fold id. fold db. fold driver. fold settings.
  rewrite bound_under_binding. cbn zeta. rewrite L. cbn [negb].
  split.
  - intros U. rewrite U.
    rewrite !extend_set_database_local_values, !extend_extend. reflexivity.
  - intros ex U S. rewrite U, S. rewrite extend_extend. reflexivity.
Qed.

Lemma authorization_only_for_a_current_user_witness :
  perform_action_body (user_env false [Sample.row_create_handler "h2"])
    Sample.row_create_action (spec_kw ("actions.args.crud", "row.create"))
    Sample.create_bob Sample.w0
  = (Throw (ExInfo (Tru "You don't have permissions to do that." []) (status 403)),
     mk_world VNil VNil
       [SpecChecked (spec_kw ("actions.args.crud", "row.create")) Sample.create_bob;
        GlobalFlagRead;
        ResourceLookup (VInt 2);
        CapabilityCheck (kw "h2") (Sample.sample_db true);
        LocalFlagRead (VMap [(kw "database-enable-actions", VBool true)]);
        AuthorizationCheck]).
Proof.
  exact (proj2 (authorization_only_for_a_current_user
                  (user_env false [Sample.row_create_handler "h2"])
                  Sample.row_create_action (spec_kw ("actions.args.crud", "row.create"))
                  Sample.create_bob Sample.w0 eq_refl eq_refl eq_refl eq_refl)
           (ExInfo (Tru "You don't have permissions to do that." []) (status 403))
           eq_refl eq_refl).
Defined.

(** X12.  When the driver of the resource does not support actions, the
    call fails before the settings of the resource are bound or read: the
    failure has status code 400 and carries the id of the resource under
    [:database-id]; the last call made is the capability check. *)
Theorem unsupported_driver_is_refused :
  forall (e : env) (action : value) (spec : spec_ref) (arg_map : value) (w : world),
    let db := Database e (get_kw arg_map "database") in
    let driver := get_kw db "engine" in
    conform_invalid e spec arg_map = Return false ->
    experimental_enable_actions e = true ->
    database_supports e driver (kw "actions") db = Return false ->
    perform_action_body e action spec arg_map w
    = (Throw (no_actions_support driver db), extend w (gate_prefix e spec arg_map))
    /\ status_code (no_actions_support driver db) = Some 400
    /\ lookup (ex_data (no_actions_support driver db)) "database-id"
       = Some (get_kw db "id").
Proof.
  intros e action spec arg_map w db driver V G C.
  split; [|split; reflexivity].
  exact (body_unsupported e action spec arg_map w V G C).
Qed.

Lemma unsupported_driver_is_refused_witness :
  perform_action_body (Sample.sample_env true true []) Sample.row_create_action
    (spec_kw ("actions.args.crud", "row.create")) create_bob_nowhere Sample.w0
  = (Throw (no_actions_support VNil VNil),
     extend Sample.w0
       (gate_prefix (Sample.sample_env true true [])
          (spec_kw ("actions.args.crud", "row.create")) create_bob_nowhere)).
Proof.
  exact (proj1 (unsupported_driver_is_refused (Sample.sample_env true true [])
                  Sample.row_create_action (spec_kw ("actions.args.crud", "row.create"))
                  create_bob_nowhere Sample.w0 eq_refl eq_refl eq_refl)).
Defined.

(** X13.  When the resource's own settings do not enable actions, the call
    fails with "Actions are not enabled for Database" and status code 400,
    naming the database id of the argument map; the flag was read under the
    resource's settings, no authorization check was made, [perform-action!*]
    was not called, and the binding the call found is back. *)
Theorem resource_flag_off_is_refused :
  forall (e : env) (action : value) (spec : spec_ref) (arg_map : value) (w : world),
    let id := get_kw arg_map "database" in
    let db := Database e id in
    let driver := get_kw db "engine" in
    let settings := get_kw db "settings" in
    conform_invalid e spec arg_map = Return false ->
    experimental_enable_actions e = true ->
    database_supports e driver (kw "actions") db = Return true ->
    database_enable_actions e settings = false ->
    perform_action_body e action spec arg_map w
    = (Throw (disabled_for_database id),
       extend w (gate_prefix e spec arg_map ++ [LocalFlagRead settings]))
    /\ status_code (disabled_for_database id) = Some 400.
Proof.
  intros e action spec arg_map w id db driver settings V G C L.
  split; [|reflexivity].
  rewrite (body_bound e action spec arg_map w V G C).
  fold id. fold db. fold driver. fold settings.
  rewrite bound_under_binding. cbn zeta. rewrite L. cbn [negb].
  now rewrite extend_extend.
Qed.

Lemma resource_flag_off_is_refused_witness :
  perform_action_body (Sample.sample_env true false [Sample.row_create_handler "h2"])
    Sample.row_create_action (spec_kw ("actions.args.crud", "row.create"))
    Sample.create_bob
    (mk_world (VMap [(kw "database-enable-actions", VBool true)]) VNil [])
  = (Throw (disabled_for_database (VInt 2)),
     mk_world (VMap [(kw "database-enable-actions", VBool true)]) VNil
       [SpecChecked (spec_kw ("actions.args.crud", "row.create")) Sample.create_bob;
        GlobalFlagRead;
        ResourceLookup (VInt 2);
        CapabilityCheck (kw "h2") (Sample.sample_db false);
        LocalFlagRead (VMap [(kw "database-enable-actions", VBool false)])]).
Proof.
  exact (proj1 (resource_flag_off_is_refused
                  (Sample.sample_env true false [Sample.row_create_handler "h2"])
                  Sample.row_create_action (spec_kw ("actions.args.crud", "row.create"))
                  Sample.create_bob
                  (mk_world (VMap [(kw "database-enable-actions", VBool true)]) VNil [])
                  eq_refl eq_refl eq_refl eq_refl)).
Defined.

(** X14.  The middleware [+check-actions-enabled] lets a request through to
    the handler it wraps exactly when the global flag is on.  With the flag
    off the handler is not called, [respond] is not called, and [raise]
    gets "Actions are not enabled." with status code 400 (the docstring of
    the middleware speaks of a 403): the very failure the global check of
    [perform-action!] raises. *)
Theorem middleware_guards_the_handler :
  forall (R : Type) (e : env)
         (handler : value -> (value -> R) -> (exn -> R) -> R)
         (request : value) (respond : value -> R) (raise : exn -> R),
    (experimental_enable_actions e = true ->
     check_actions_enabled e handler request respond raise
     = handler request respond raise)
    /\ (experimental_enable_actions e = false ->
        forall (handler' : value -> (value -> R) -> (exn -> R) -> R) (respond' : value -> R),
          check_actions_enabled e handler' request respond' raise = raise feature_disabled)
    /\ status_code feature_disabled = Some 400
    /\ (forall (action : value) (spec : spec_ref) (arg_map : value) (w : world),
           experimental_enable_actions e = false ->
           conform_invalid e spec arg_map = Return false ->
           check_actions_enabled e handler request respond raise
           = raise match fst (perform_action_body e action spec arg_map w) with
                   | Throw ex => ex
                   | Return _ => feature_disabled
                   end).
Proof.
  intros R e handler request respond raise. unfold check_actions_enabled.
  split; [|split; [|split]].
  - now intros ->.
  - now intros ->.
  - reflexivity.
  - intros action spec arg_map w G V. rewrite G.
    now rewrite (body_flag_off e action spec arg_map w V G).
Qed.

Lemma middleware_guards_the_handler_witness :
  check_actions_enabled (Sample.sample_env false true [])
    (fun request respond _ => respond request) (VStr "request")
    (fun response => Return response) (fun ex => Throw ex)
  = (Throw feature_disabled : result value).
Proof.
  exact (proj1 (proj2 (middleware_guards_the_handler (result value)
                         (Sample.sample_env false true [])
                         (fun request respond _ => respond request) (VStr "request")
                         (fun response => Return response) (fun ex => Throw ex)))
           eq_refl (fun request respond _ => respond request)
           (fun response => Return response)).
Defined.

(** ** Further properties of the SmartScalar visualization *)

Section LoopFacts.

Import SmartScalar.

Variables loose_eq gt lt ge le : js -> js -> bool.
Variable globals : string -> option js.
Variable outer : string -> js.

(** What the first [switch] assigns to [temp]. *)
Lemma first_switch_run (fields : list (string * js)) (temp temp2 value dc : js) :
  first_switch loose_eq gt lt ge le globals outer
    (mk_frame (JObj fields) temp temp2 value dc)
  = Normal
      (let c := field_get "condition" fields in
       let x := field_get "value" fields in
       if case_is c "Is Equal to" then JBool (loose_eq x value)
       else if case_is c "Is Less than" then JBool (gt x value)
       else if case_is c "Is Greater than" then JBool (lt x value)
       else if case_is c "Is Less than Equal to" then JBool (ge x value)
       else if case_is c "Is Greater than Equal to" then JBool (le x value)
       else temp).
Proof.
  unfold first_switch, rule_field.
  change (resolve globals outer (mk_frame (JObj fields) temp temp2 value dc) "a")
    with (Normal (JObj fields)).
  cbn [bind ret Monad_completion member]. cbv zeta.
  repeat match goal with
         | |- context [if case_is ?c ?l then _ else _] => destruct (case_is c l)
         end;
    try rewrite compare_with_value; reflexivity.
Qed.

(** What the second [switch] assigns to [temp2]. *)
Lemma second_switch_run (fields : list (string * js)) (temp temp2 value dc : js) :
  second_switch gt lt ge le globals outer (mk_frame (JObj fields) temp temp2 value dc)
  = let c := field_get "condition2" fields in
    let x := field_get "value2" fields in
    if case_is c "Is Less than" then Normal (JBool (gt x value))
    else if case_is c "Is Greater than" then Normal (JBool (lt x value))
    else if case_is c "Is Less than Equal to" then
      match globals "values" with
      | Some v => Normal (JBool (ge x v))
      | None => Abrupt (ReferenceError "values")
      end
    else if case_is c "Is Greater than Equal to" then Normal (JBool (le x value))
    else Normal temp2.
Proof.
  unfold second_switch, rule_field.
  change (resolve globals outer (mk_frame (JObj fields) temp temp2 value dc) "a")
    with (Normal (JObj fields)).
  cbn [bind ret Monad_completion member]. cbv zeta.
  repeat match goal with
         | |- context [if case_is ?c ?l then _ else _] => destruct (case_is c l)
         end;
    try rewrite compare_with_value; try rewrite compare_with_values; reflexivity.
Qed.

(** Whether a rule applies does not depend on the color displayed so far. *)
Lemma rule_step_verdict (value a : js) :
  exists (verdict : completion bool) (color : js),
    (forall fields, a = JObj fields -> color = field_get "color" fields)
    /\ (verdict = Normal true -> exists fields, a = JObj fields)
    /\ forall dc,
         rule_step loose_eq gt lt ge le globals outer dc value a
         = match verdict with
           | Normal true => Normal color
           | Normal false => Normal dc
           | Abrupt err => Abrupt err
           end.
Proof.
  destruct a as [| |b|z|s|items|fields].
  - exists (Abrupt (TypeError "condition")), JUndefined.
    split; [discriminate|]. split; [discriminate|]. reflexivity.
  - exists (Abrupt (TypeError "condition")), JUndefined.
    split; [discriminate|]. split; [discriminate|]. reflexivity.
  - exists (Normal false), JUndefined.
    split; [discriminate|]. split; [discriminate|]. reflexivity.
  - exists (Normal false), JUndefined.
    split; [discriminate|]. split; [discriminate|]. reflexivity.
  - exists (Normal false), JUndefined.
    split; [discriminate|]. split; [discriminate|]. reflexivity.
  - exists (Normal false), JUndefined.
    split; [discriminate|]. split; [discriminate|]. reflexivity.
  - unfold rule_step.
    pose proof (first_switch_run fields JUndefined JUndefined value) as F.
    cbv zeta in F.
    set (t := if case_is (field_get "condition" fields) "Is Equal to" then _ else _) in F.
    destruct (second_switch gt lt ge le globals outer
                (mk_frame (JObj fields) t JUndefined value JUndefined)) as [t2 | err] eqn:S.
    + exists (Normal (to_boolean
                        (if to_boolean t
                         then (if negb (to_boolean (field_get "value2" fields))
                               then JBool true else t2)
                         else t))), (field_get "color" fields).
      split; [intros f E; now inversion E|]. split; [eauto|].
      intros dc. rewrite (F dc). cbn [bind ret Monad_completion].
      rewrite second_switch_run in *. rewrite S. cbn [bind ret Monad_completion].
      unfold rule_field.
      change (resolve globals outer _ "a") with (Normal (JObj fields)).
      cbn [bind ret Monad_completion member].
      destruct (to_boolean _); reflexivity.
    + exists (Abrupt err), (field_get "color" fields).
      split; [intros f E; now inversion E|]. split; [discriminate|].
      intros dc. rewrite (F dc). cbn [bind ret Monad_completion].
      rewrite second_switch_run in *. rewrite S. reflexivity.
Qed.

Lemma for_each_app (dc value : js) (r1 r2 : list js) :
  for_each loose_eq gt lt ge le globals outer dc value (r1 ++ r2)
  = (dc' <- for_each loose_eq gt lt ge le globals outer dc value r1 ;;
     for_each loose_eq gt lt ge le globals outer dc' value r2).
Proof.
  revert dc. induction r1 as [|a r1 IH]; intros dc; [reflexivity|].
  cbn [app for_each bind ret Monad_completion].
  destruct (rule_step _ _ _ _ _ _ _ dc value a) as [dc'|err]; [apply IH | reflexivity].
Qed.

End LoopFacts.

(** X15.  The color the loop ends with is the color it started with or the
    [color] of one of the rules: the loop invents no color. *)
Theorem display_color_comes_from_a_rule :
  forall (loose_eq gt lt ge le : SmartScalar.js -> SmartScalar.js -> bool)
         (globals : string -> option SmartScalar.js) (outer : string -> SmartScalar.js)
         (rules : list SmartScalar.js) (dc value r : SmartScalar.js),
    SmartScalar.for_each loose_eq gt lt ge le globals outer dc value rules
    = SmartScalar.Normal r ->
    r = dc
    \/ exists fields,
         In (SmartScalar.JObj fields) rules /\ r = SmartScalar.field_get "color" fields.
Proof.
  intros loose_eq gt lt ge le globals outer rules.
  induction rules as [|a rules IH]; intros dc value r H.
  - left. cbn in H. now inversion H.
  - cbn [SmartScalar.for_each bind ret SmartScalar.Monad_completion] in H.
    destruct (rule_step_verdict loose_eq gt lt ge le globals outer value a)
      as (verdict & color & C & O & V).
    rewrite (V dc) in H.
    destruct verdict as [[|]|err]; try discriminate.
    + destruct (O eq_refl) as [fields ->].
      destruct (IH _ _ _ H) as [-> | (f & I & ->)].
      * right. exists fields. split; [now left | now apply C].
      * right. exists f. split; [now right | reflexivity].
    + destruct (IH _ _ _ H) as [-> | (f & I & ->)]; [now left|].
      right. exists f. split; [now right | reflexivity].
Qed.

Lemma display_color_comes_from_a_rule_witness :
  SmartScalar.for_each
    (SmartScalar.on_numbers Z.eqb) (SmartScalar.on_numbers Z.gtb)
    (SmartScalar.on_numbers Z.ltb) (SmartScalar.on_numbers Z.geb)
    (SmartScalar.on_numbers Z.leb) SmartScalar.no_globals (fun _ => SmartScalar.JUndefined)
    (SmartScalar.JStr EmptyString) (SmartScalar.JNum 3)
    [SmartScalar.JObj [("condition", SmartScalar.JStr "Is Less than");
                       ("value", SmartScalar.JNum 5); ("color", SmartScalar.JStr "#00FF00")]]
  = SmartScalar.Normal (SmartScalar.JStr "#00FF00")
  /\ (SmartScalar.JStr "#00FF00" = SmartScalar.JStr EmptyString
      \/ exists fields,
           In (SmartScalar.JObj fields)
              [SmartScalar.JObj [("condition", SmartScalar.JStr "Is Less than");
                                 ("value", SmartScalar.JNum 5);
                                 ("color", SmartScalar.JStr "#00FF00")]]
           /\ SmartScalar.JStr "#00FF00" = SmartScalar.field_get "color" fields).
Proof.
  split; [reflexivity|].
  exact (display_color_comes_from_a_rule
           (SmartScalar.on_numbers Z.eqb) (SmartScalar.on_numbers Z.gtb)
           (SmartScalar.on_numbers Z.ltb) (SmartScalar.on_numbers Z.geb)
           (SmartScalar.on_numbers Z.leb) SmartScalar.no_globals
           (fun _ => SmartScalar.JUndefined)
           [SmartScalar.JObj [("condition", SmartScalar.JStr "Is Less than");
                              ("value", SmartScalar.JNum 5);
                              ("color", SmartScalar.JStr "#00FF00")]]
           (SmartScalar.JStr EmptyString) (SmartScalar.JNum 3)
           (SmartScalar.JStr "#00FF00") eq_refl).
Defined.

(** X16.  Later rules override earlier ones.  A rule that changes some
    displayed color applies whatever color is displayed; put last, it
    decides the color of the loop whenever the rules before it run to their
    end, whatever they chose. *)
Theorem last_applicable_rule_decides :
  forall (loose_eq gt lt ge le : SmartScalar.js -> SmartScalar.js -> bool)
         (globals : string -> option SmartScalar.js) (outer : string -> SmartScalar.js)
         (rules : list SmartScalar.js) (a value dc0 c dc r : SmartScalar.js),
    SmartScalar.rule_step loose_eq gt lt ge le globals outer dc0 value a
    = SmartScalar.Normal c ->
    c <> dc0 ->
    SmartScalar.for_each loose_eq gt lt ge le globals outer dc value rules
    = SmartScalar.Normal r ->
    SmartScalar.for_each loose_eq gt lt ge le globals outer dc value (rules ++ [a])
    = SmartScalar.Normal c.
Proof.
  intros loose_eq gt lt ge le globals outer rules a value dc0 c dc r S D F.
  rewrite for_each_app, F. cbn [bind ret SmartScalar.Monad_completion SmartScalar.for_each].
  destruct (rule_step_verdict loose_eq gt lt ge le globals outer value a)
    as (verdict & color & _ & _ & V).
  rewrite (V dc0) in S. rewrite (V r).
  destruct verdict as [[|]|err]; try discriminate.
  - inversion S. reflexivity.
  - inversion S. congruence.
Qed.

Lemma last_applicable_rule_decides_witness :
  SmartScalar.for_each
    (SmartScalar.on_numbers Z.eqb) (SmartScalar.on_numbers Z.gtb)
    (SmartScalar.on_numbers Z.ltb) (SmartScalar.on_numbers Z.geb)
    (SmartScalar.on_numbers Z.leb) SmartScalar.no_globals (fun _ => SmartScalar.JUndefined)
    (SmartScalar.JStr EmptyString) (SmartScalar.JNum 3)
    ([SmartScalar.JObj [("condition", SmartScalar.JStr "Is Less than");
                        ("value", SmartScalar.JNum 5); ("color", SmartScalar.JStr "#00FF00")]]
     ++ [SmartScalar.JObj [("condition", SmartScalar.JStr "Is Greater than");
                           ("value", SmartScalar.JNum 1);
                           ("color", SmartScalar.JStr "#FF0000")]])
  = SmartScalar.Normal (SmartScalar.JStr "#FF0000").
Proof.
  refine (last_applicable_rule_decides
            (SmartScalar.on_numbers Z.eqb) (SmartScalar.on_numbers Z.gtb)
            (SmartScalar.on_numbers Z.ltb) (SmartScalar.on_numbers Z.geb)
            (SmartScalar.on_numbers Z.leb) SmartScalar.no_globals
            (fun _ => SmartScalar.JUndefined)
            [SmartScalar.JObj [("condition", SmartScalar.JStr "Is Less than");
                               ("value", SmartScalar.JNum 5);
                               ("color", SmartScalar.JStr "#00FF00")]]
            (SmartScalar.JObj [("condition", SmartScalar.JStr "Is Greater than");
                               ("value", SmartScalar.JNum 1);
                               ("color", SmartScalar.JStr "#FF0000")])
            (SmartScalar.JNum 3)
            (SmartScalar.JStr EmptyString) (SmartScalar.JStr "#FF0000")
            (SmartScalar.JStr EmptyString) (SmartScalar.JStr "#00FF00")
            eq_refl _ eq_refl).
  discriminate.
Defined.

(** X17.  A rule with no second value (none, empty, or zero) whose second
    condition is not ["Is Less than Equal to"] is decided by its first
    condition alone: the loop step gives the color of the rule when the
    first comparison holds and leaves the displayed color as it is when it
    does not, whatever the second condition says. *)
Theorem rule_without_second_value :
  forall (loose_eq gt lt ge le : SmartScalar.js -> SmartScalar.js -> bool)
         (globals : string -> option SmartScalar.js) (outer : string -> SmartScalar.js)
         (fields : list (string * SmartScalar.js)) (dc value : SmartScalar.js),
    SmartScalar.to_boolean (SmartScalar.field_get "value2" fields) = false ->
    SmartScalar.case_is (SmartScalar.field_get "condition2" fields) "Is Less than Equal to"
    = false ->
    SmartScalar.rule_step loose_eq gt lt ge le globals outer dc value
      (SmartScalar.JObj fields)
    = (t <- SmartScalar.first_switch loose_eq gt lt ge le globals outer
              (SmartScalar.mk_frame (SmartScalar.JObj fields) SmartScalar.JUndefined
                 SmartScalar.JUndefined value dc) ;;
       SmartScalar.Normal
         (if SmartScalar.to_boolean t then SmartScalar.field_get "color" fields else dc)).
Proof.
  intros loose_eq gt lt ge le globals outer fields dc value V2 C2.
  unfold SmartScalar.rule_step.
  rewrite first_switch_run. cbn [bind ret SmartScalar.Monad_completion].
  rewrite second_switch_run. cbv zeta. rewrite C2.
  assert (E : forall (t2 : SmartScalar.js) t,
             (v2 <- SmartScalar.rule_field globals outer
                      (SmartScalar.mk_frame (SmartScalar.JObj fields) t t2 value dc) "value2" ;;
              (if SmartScalar.to_boolean
                    (if SmartScalar.to_boolean t
                     then (if negb (SmartScalar.to_boolean v2)
                           then SmartScalar.JBool true else t2)
                     else t)
               then SmartScalar.rule_field globals outer
                      (SmartScalar.mk_frame (SmartScalar.JObj fields) t
                         (if negb (SmartScalar.to_boolean v2)
                          then SmartScalar.JBool true else t2) value dc) "color"
               else SmartScalar.resolve globals outer
                      (SmartScalar.mk_frame (SmartScalar.JObj fields) t
                         (if negb (SmartScalar.to_boolean v2)
                          then SmartScalar.JBool true else t2) value dc) "displayColor"))
             = SmartScalar.Normal
                 (if SmartScalar.to_boolean t
                  then SmartScalar.field_get "color" fields else dc)).
  { intros t2 t. unfold SmartScalar.rule_field.
    change (SmartScalar.resolve globals outer _ "a")
      with (SmartScalar.Normal (SmartScalar.JObj fields)).
    cbn [bind ret SmartScalar.Monad_completion SmartScalar.member].
    rewrite V2. cbn [negb].
    destruct (SmartScalar.to_boolean t) eqn:T; cbn [SmartScalar.to_boolean].
    - reflexivity.
    - rewrite T. reflexivity. }
  cbn [bind ret SmartScalar.Monad_completion] in E.
  repeat match goal with
         | |- context [if SmartScalar.case_is ?c ?l then _ else _] =>
             destruct (SmartScalar.case_is c l)
         end;
    cbn [bind ret SmartScalar.Monad_completion]; apply E.
Qed.

Lemma rule_without_second_value_witness :
  SmartScalar.rule_step
    (SmartScalar.on_numbers Z.eqb) (SmartScalar.on_numbers Z.gtb)
    (SmartScalar.on_numbers Z.ltb) (SmartScalar.on_numbers Z.geb)
    (SmartScalar.on_numbers Z.leb) SmartScalar.no_globals (fun _ => SmartScalar.JUndefined)
    (SmartScalar.JStr EmptyString) (SmartScalar.JNum 5)
    (SmartScalar.JObj [("condition", SmartScalar.JStr "Is Equal to");
                       ("value", SmartScalar.JNum 5); ("color", SmartScalar.JStr "#00FF00");
                       ("condition2", SmartScalar.JStr "Is Less than")])
  = SmartScalar.Normal (SmartScalar.JStr "#00FF00").
Proof.
  exact (rule_without_second_value
           (SmartScalar.on_numbers Z.eqb) (SmartScalar.on_numbers Z.gtb)
           (SmartScalar.on_numbers Z.ltb) (SmartScalar.on_numbers Z.geb)
           (SmartScalar.on_numbers Z.leb) SmartScalar.no_globals
           (fun _ => SmartScalar.JUndefined)
           [("condition", SmartScalar.JStr "Is Equal to");
            ("value", SmartScalar.JNum 5); ("color", SmartScalar.JStr "#00FF00");
            ("condition2", SmartScalar.JStr "Is Less than")]
           (SmartScalar.JStr EmptyString) (SmartScalar.JNum 5) eq_refl eq_refl).
Defined.

(** X18.  A rule whose first condition is none of the five labels the first
    [switch] knows leaves [temp] undefined, and so never applies: if the
    loop step for it ends normally, the displayed color is the one it
    found. *)
Theorem unknown_condition_never_colors :
  forall (loose_eq gt lt ge le : SmartScalar.js -> SmartScalar.js -> bool)
         (globals : string -> option SmartScalar.js) (outer : string -> SmartScalar.js)
         (fields : list (string * SmartScalar.js)) (dc value r : SmartScalar.js),
    (forall label,
        In label ["Is Equal to"; "Is Less than"; "Is Greater than";
                  "Is Less than Equal to"; "Is Greater than Equal to"] ->
        SmartScalar.case_is (SmartScalar.field_get "condition" fields) label = false) ->
    SmartScalar.rule_step loose_eq gt lt ge le globals outer dc value
      (SmartScalar.JObj fields)
    = SmartScalar.Normal r ->
    r = dc.
Proof.
  intros loose_eq gt lt ge le globals outer fields dc value r U.
  unfold SmartScalar.rule_step.
  rewrite first_switch_run. cbv zeta.
  rewrite !U by (simpl; tauto).
  cbn [bind ret SmartScalar.Monad_completion].
  destruct (SmartScalar.second_switch _ _ _ _ _ _ _) as [t2|err]; [|discriminate].
  cbn [bind ret SmartScalar.Monad_completion]. unfold SmartScalar.rule_field.
  change (SmartScalar.resolve globals outer _ "a")
    with (SmartScalar.Normal (SmartScalar.JObj fields)).
  cbn [bind ret SmartScalar.Monad_completion SmartScalar.member SmartScalar.to_boolean].
  intros H. inversion H. reflexivity.
Qed.

Lemma unknown_condition_never_colors_witness :
  SmartScalar.rule_step
    (SmartScalar.on_numbers Z.eqb) (SmartScalar.on_numbers Z.gtb)
    (SmartScalar.on_numbers Z.ltb) (SmartScalar.on_numbers Z.geb)
    (SmartScalar.on_numbers Z.leb) SmartScalar.no_globals (fun _ => SmartScalar.JUndefined)
    (SmartScalar.JStr "#000000") (SmartScalar.JNum 5)
    (SmartScalar.JObj [("condition", SmartScalar.JStr "Is Not Equal to");
                       ("value", SmartScalar.JNum 4); ("color", SmartScalar.JStr "#00FF00")])
  = SmartScalar.Normal (SmartScalar.JStr "#000000")
  /\ SmartScalar.JStr "#000000" = SmartScalar.JStr "#000000".
Proof.
  split; [reflexivity|].
  refine (unknown_condition_never_colors
            (SmartScalar.on_numbers Z.eqb) (SmartScalar.on_numbers Z.gtb)
            (SmartScalar.on_numbers Z.ltb) (SmartScalar.on_numbers Z.geb)
            (SmartScalar.on_numbers Z.leb) SmartScalar.no_globals
            (fun _ => SmartScalar.JUndefined)
            [("condition", SmartScalar.JStr "Is Not Equal to");
             ("value", SmartScalar.JNum 4); ("color", SmartScalar.JStr "#00FF00")]
            (SmartScalar.JStr "#000000") (SmartScalar.JNum 5) (SmartScalar.JStr "#000000")
            _ eq_refl).
  intros label [<- | [<- | [<- | [<- | [<- | []]]]]]; reflexivity.
Defined.

Lemma keeps_run (g : SmartScalar.js) :
  SmartScalar.keeps g
  = match g with
    | SmartScalar.JUndefined | SmartScalar.JNull =>
        SmartScalar.Abrupt (SmartScalar.TypeError "condition")
    | _ => SmartScalar.Normal (complete_rule g)
    end.
Proof.
  destruct g; try reflexivity.
  unfold SmartScalar.keeps, complete_rule.
  cbn [bind ret SmartScalar.Monad_completion SmartScalar.member].
  destruct (SmartScalar.to_boolean (SmartScalar.field_get "condition" fields)); [|reflexivity].
  destruct (SmartScalar.to_boolean (SmartScalar.field_get "value" fields)); reflexivity.
Qed.

(** X19.  The filter in front of the loop keeps, in their order, exactly the
    rules that are objects holding a truthy [condition], [value] and
    [color]: a rule with no color, with no value, or with the number 0 as
    its value is never looked at by the loop.  The filter fails, with a
    [TypeError], exactly when the list holds [undefined] or [null]. *)
Theorem filter_keeps_complete_rules :
  forall items : list SmartScalar.js,
    ((exists g, In g items /\ (g = SmartScalar.JUndefined \/ g = SmartScalar.JNull))
     /\ SmartScalar.filter_rules items
        = SmartScalar.Abrupt (SmartScalar.TypeError "condition"))
    \/ ((forall g, In g items -> g <> SmartScalar.JUndefined /\ g <> SmartScalar.JNull)
        /\ SmartScalar.filter_rules items
           = SmartScalar.Normal (filter complete_rule items)).
Proof.
  induction items as [|g items IH].
  - right. split; [intros g []|reflexivity].
  - cbn [SmartScalar.filter_rules bind ret SmartScalar.Monad_completion].
    rewrite keeps_run.
    destruct g as [| |b|z|s|l|fields];
      try (left; split; [eexists; split; [left; reflexivity | auto] | reflexivity]);
      (destruct IH as [[(g' & I & N) E] | [A E]]; rewrite E;
       [ left; split; [exists g'; split; [now right | exact N] | reflexivity]
       | right; split;
         [ intros g' [<- | I]; [split; discriminate | now apply A]
         | cbn [filter]; destruct (complete_rule _); reflexivity ] ]).
Qed.

(** *** The static functions *)

(** X20.  For the insights a query result carries (an array, [null] or
    nothing), and with [>] and [===] comparing a length with 0 as numbers:
    [checkRenderable] lets the card through exactly when [isSensible] is
    truthy, and both exactly when the insights are a non-empty array. *)
Theorem sensible_iff_renderable :
  forall (gt same : SmartScalar.js -> SmartScalar.js -> bool) (insights : SmartScalar.js),
    (forall n, gt (SmartScalar.JNum n) (SmartScalar.JNum 0) = (0 <? n)) ->
    (forall n, same (SmartScalar.JNum n) (SmartScalar.JNum 0) = (n =? 0)) ->
    insights = SmartScalar.JUndefined \/ insights = SmartScalar.JNull
    \/ (exists items, insights = SmartScalar.JArr items) ->
    (SmartStatics.check_renderable same insights = SmartStatics.Renderable
     <-> exists v, SmartStatics.is_sensible gt insights = SmartScalar.Normal v
                   /\ SmartScalar.to_boolean v = true)
    /\ (SmartStatics.check_renderable same insights = SmartStatics.Renderable
        <-> exists x rest, insights = SmartScalar.JArr (x :: rest)).
Proof.
  intros gt same insights G S [-> | [-> | (items & ->)]].
  - split; split; try discriminate.
    + intros (v & H & T). inversion H; subst. discriminate.
    + intros (x & rest & H). discriminate.
  - split; split; try discriminate.
    + intros (v & H & T). inversion H; subst. discriminate.
    + intros (x & rest & H). discriminate.
  - unfold SmartStatics.check_renderable, SmartStatics.is_sensible.
    cbn [SmartScalar.to_boolean negb SmartStatics.length_of bind ret
         SmartScalar.Monad_completion].
    rewrite G, S. destruct items as [|x rest].
    + split; split; try discriminate.
      * intros (v & H & T). inversion H; subst. discriminate.
      * intros (y & r & H). discriminate.
    + assert (P : (0 <? Z.of_nat (List.length (x :: rest))) = true)
        by (apply Z.ltb_lt; cbn [List.length]; lia).
      assert (N : (Z.of_nat (List.length (x :: rest)) =? 0) = false)
        by (apply Z.eqb_neq; cbn [List.length]; lia).
      rewrite P, N. split; split; intros _; eauto.
Qed.

Lemma sensible_iff_renderable_witness :
  SmartStatics.check_renderable SmartStatics.same_primitive
    (SmartScalar.JArr [SmartScalar.JObj [("col", SmartScalar.JStr "count")]])
  = SmartStatics.Renderable
  <-> exists x rest,
        SmartScalar.JArr [SmartScalar.JObj [("col", SmartScalar.JStr "count")]]
        = SmartScalar.JArr (x :: rest).
Proof.
  refine (proj2 (sensible_iff_renderable (SmartScalar.on_numbers Z.gtb)
                   SmartStatics.same_primitive
                   (SmartScalar.JArr [SmartScalar.JObj [("col", SmartScalar.JStr "count")]])
                   _ _ (or_intror (or_intror (ex_intro _ _ eq_refl))))).
  - intros n. simpl. apply Z.gtb_ltb.
  - intros n. reflexivity.
Defined.

Lemma find_col_run (same : SmartScalar.js -> SmartScalar.js -> bool)
    (field : SmartScalar.js) (cols : list SmartScalar.js) :
  Forall (fun col => exists fields, col = SmartScalar.JObj fields) cols ->
  SmartStatics.find_col same field cols
  = SmartScalar.Normal
      match find (fun col => match col with
                             | SmartScalar.JObj fields =>
                                 same (SmartScalar.field_get "name" fields) field
                             | _ => false
                             end) cols with
      | Some col => col
      | None => SmartScalar.JUndefined
      end.
Proof.
  induction 1 as [|col cols (fields & ->) _ IH]; [reflexivity|].
  cbn [SmartStatics.find_col find bind ret SmartScalar.Monad_completion SmartScalar.member].
  destruct (same _ field); [reflexivity | exact IH].
Qed.

(** X21.  [getColumns] answers with exactly one column, and for a result
    that has columns it is one of them: the first column whose name is the
    selected field when there is one, and otherwise the second column, or
    the only column when there is no second. *)
Theorem get_columns_picks_a_column :
  forall (same : SmartScalar.js -> SmartScalar.js -> bool) (field : SmartScalar.js)
         (cols : list SmartScalar.js),
    Forall (fun col => exists fields, col = SmartScalar.JObj fields) cols ->
    cols <> [] ->
    exists col,
      SmartStatics.get_columns same cols field = SmartScalar.Normal [col]
      /\ In col cols
      /\ col = match find (fun col => match col with
                                      | SmartScalar.JObj fields =>
                                          same (SmartScalar.field_get "name" fields) field
                                      | _ => false
                                      end) cols with
               | Some selected => selected
               | None => match cols with
                         | _ :: second :: _ => second
                         | only :: _ => only
                         | [] => SmartScalar.JUndefined
                         end
               end.
Proof.
  intros same field cols O N.
  unfold SmartStatics.get_columns. rewrite (find_col_run same field cols O).
  cbn [bind ret SmartScalar.Monad_completion].
  destruct (find _ cols) as [selected|] eqn:F.
  - apply find_some in F. destruct F as [I _].
    rewrite Forall_forall in O. destruct (O _ I) as [fields ->].
    exists (SmartScalar.JObj fields). repeat split. exact I.
  - destruct cols as [|c0 [|c1 rest]]; [now elim N| |].
    + inversion O as [|? ? (f0 & ->) _]; subst.
      exists (SmartScalar.JObj f0). repeat split. now left.
    + inversion O as [|? ? _ O1]; subst. inversion O1 as [|? ? (f1 & ->) _]; subst.
      exists (SmartScalar.JObj f1). repeat split. right. now left.
Qed.

Lemma get_columns_picks_a_column_witness :
  exists col,
    SmartStatics.get_columns SmartStatics.same_primitive
      [SmartStatics.column "day"; SmartStatics.column "count"; SmartStatics.column "sum"]
      (SmartScalar.JStr "sum")
    = SmartScalar.Normal [col]
    /\ In col [SmartStatics.column "day"; SmartStatics.column "count";
               SmartStatics.column "sum"]
    /\ col = SmartStatics.column "sum".
Proof.
  refine (get_columns_picks_a_column SmartStatics.same_primitive (SmartScalar.JStr "sum")
            [SmartStatics.column "day"; SmartStatics.column "count";
             SmartStatics.column "sum"] _ _).
  - repeat constructor; eexists; reflexivity.
  - discriminate.
Defined.

(** ** Properties of the session middleware *)

Section SessionFacts.

Import SessionMiddleware.

Variable isSameOrigin : string -> bool.
Variable resetActions : list string.

Lemma one_poll_middleware (b : browser) (a : action) (st : state) :
  one_poll st -> one_poll (sessionMiddlware resetActions b a st).
Proof.
  intros [[I T] | (t & T & I & D)]; unfold sessionMiddlware; rewrite I, T.
  - right. eexists. cbn. repeat split.
  - cbn [orb]. destruct (existsb _ resetActions).
    + right. eexists. cbn [clearInterval filter intervalId timers].
      rewrite Nat.eqb_refl. cbn. repeat split.
    + right. exists t. cbn. rewrite I, T. auto.
Qed.

Lemma one_poll_tick (b : browser) (id : nat) (refreshed : bool) (st : state) :
  one_poll st -> one_poll (tick isSameOrigin b id refreshed st).
Proof.
  intros O. unfold tick.
  destruct (find _ (timers st)) as [t|] eqn:F; [|exact O].
  destruct (Bool.eqb _ _); [exact O|].
  destruct O as [[I T] | (t0 & T & I & D)].
  - rewrite T in F. discriminate.
  - right. rewrite T in *. cbn [find] in F.
    destruct (Nat.eqb (timer_id t0) id) eqn:E; [|discriminate].
    eexists. cbn [timers intervalId set_wasLoggedIn map]. rewrite E.
    cbn. rewrite I. auto.
Qed.

Lemma one_poll_run (hs : list happening) (st : state) :
  one_poll st -> one_poll (run isSameOrigin resetActions hs st).
Proof.
  revert st. induction hs as [|h hs IH]; intros st O; [exact O|].
  cbn [run fold_left]. apply IH. destruct h; cbn [step].
  - now apply one_poll_middleware.
  - now apply one_poll_tick.
Qed.

Lemma forwarded_middleware (b : browser) (a : action) (st : state) :
  forwarded (sessionMiddlware resetActions b a st) = (forwarded st ++ [a])%list.
Proof. unfold sessionMiddlware. destruct (_ || _); reflexivity. Qed.

Lemma forwarded_tick (b : browser) (id : nat) (refreshed : bool) (st : state) :
  forwarded (tick isSameOrigin b id refreshed st) = forwarded st.
Proof.
  unfold tick. destruct (find _ _); [|reflexivity]. destruct (Bool.eqb _ _); reflexivity.
Qed.

Lemma forwarded_run (hs : list happening) (st : state) :
  forwarded (run isSameOrigin resetActions hs st) = (forwarded st ++ actions_of hs)%list.
Proof.
  revert st. induction hs as [|h hs IH]; intros st.
  - cbn. now rewrite app_nil_r.
  - cbn [run fold_left]. fold (run isSameOrigin resetActions hs (step isSameOrigin resetActions st h)).
    rewrite IH. destruct h; cbn [step actions_of].
    + rewrite forwarded_middleware, <- app_assoc. reflexivity.
    + now rewrite forwarded_tick.
Qed.

Lemma replace_is_same_origin_tick (b : browser) (id : nat) (refreshed : bool) (st : state) :
  (forall url, In (replace url) (dispatched st) -> isSameOrigin url = true) ->
  forall url, In (replace url) (dispatched (tick isSameOrigin b id refreshed st)) ->
              isSameOrigin url = true.
Proof.
  intros H url. unfold tick.
  destruct (find _ _); [|apply H]. destruct (Bool.eqb _ _); [apply H|].
  cbn [dispatched]. intros I. apply in_app_or in I. destruct I as [I | I]; [now apply H|].
  destruct (getIsLoggedIn b).
  - destruct I as [I | I]; [discriminate|].
    destruct refreshed; [|destruct I].
    unfold getRedirectUrl in I. destruct (redirect_param b) as [u|]; [|destruct I].
    destruct (isSameOrigin u) eqn:S; [|destruct I].
    destruct I as [I | []]. inversion I; subst. exact S.
  - destruct I as [I | []]. discriminate.
Qed.

Lemma dispatched_middleware (b : browser) (a : action) (st : state) :
  dispatched (sessionMiddlware resetActions b a st) = dispatched st.
Proof. unfold sessionMiddlware. destruct (_ || _); reflexivity. Qed.

Lemma replace_is_same_origin_run (hs : list happening) (st : state) :
  (forall url, In (replace url) (dispatched st) -> isSameOrigin url = true) ->
  forall url, In (replace url) (dispatched (run isSameOrigin resetActions hs st)) ->
              isSameOrigin url = true.
Proof.
  revert st. induction hs as [|h hs IH]; intros st H; [exact H|].
  cbn [run fold_left]. apply IH. destruct h; cbn [step].
  - now rewrite dispatched_middleware.
  - now apply replace_is_same_origin_tick.
Qed.

End SessionFacts.

Section SessionTheorems.

Import SessionMiddleware.

Variable isSameOrigin : string -> bool.
Variable resetActions : list string.

Lemma intervalId_middleware (b : browser) (a : action) (st : state) :
  intervalId (sessionMiddlware resetActions b a st) <> None.
Proof.
  unfold sessionMiddlware. destruct (intervalId st) eqn:I; cbn [orb].
  - destruct (existsb _ _); cbn [intervalId]; [discriminate | now rewrite I].
  - cbn [intervalId]. discriminate.
Qed.

Lemma intervalId_tick (b : browser) (id : nat) (refreshed : bool) (st : state) :
  intervalId (tick isSameOrigin b id refreshed st) = intervalId st.
Proof.
  unfold tick. destruct (find _ _); [|reflexivity]. destruct (Bool.eqb _ _); reflexivity.
Qed.

Lemma started_stays_started (hs : list happening) (st : state) :
  intervalId st <> None -> intervalId (run isSameOrigin resetActions hs st) <> None.
Proof.
  revert st. induction hs as [|h hs IH]; intros st S; [exact S|].
  cbn [run fold_left]. apply IH. destruct h; cbn [step].
  - apply intervalId_middleware.
  - now rewrite intervalId_tick.
Qed.

Lemma started_by_first_action (hs : list happening) (st : state) :
  intervalId st = None ->
  (intervalId (run isSameOrigin resetActions hs st) = None <-> actions_of hs = []).
Proof.
  revert st. induction hs as [|h hs IH]; intros st S; [tauto|].
  cbn [run fold_left]. destruct h as [b a | b id r]; cbn [step actions_of].
  - split; [|discriminate]. intros H. exfalso.
    exact (started_stays_started hs _ (intervalId_middleware b a st) H).
  - apply IH. now rewrite intervalId_tick.
Qed.

(** X22.  Whatever actions come in and whatever timers fire, in whatever
    order: every action is handed to [next] exactly once, unchanged and in
    the order it came; polling starts with the first action; and from then
    on exactly one interval is alive, the one [intervalId] names, with the
    polling delay of 3000 ms: an interval is always cleared before the next
    one is set. *)
Theorem one_interval_and_every_action_forwarded :
  forall (hs : list happening),
    forwarded (run isSameOrigin resetActions hs created) = actions_of hs
    /\ one_poll (run isSameOrigin resetActions hs created)
    /\ (timers (run isSameOrigin resetActions hs created) = [] <-> actions_of hs = []).
Proof.
  intros hs. split; [apply (forwarded_run isSameOrigin resetActions hs created)|].
  assert (O : one_poll (run isSameOrigin resetActions hs created)).
  { apply one_poll_run. left. split; reflexivity. }
  split; [exact O|].
  rewrite <- (started_by_first_action hs created eq_refl).
  destruct O as [[I T] | (t & T & I & D)]; rewrite I, T; split; try tauto; discriminate.
Qed.

(** X23.  A change of the login state is reported once: when the callback
    of an interval has run, running it again while the page is the same
    changes nothing and dispatches nothing, whether or not the session
    refresh succeeded. *)
Theorem cookie_change_is_reported_once :
  forall (b : browser) (id : nat) (r1 r2 : bool) (st : state),
    tick isSameOrigin b id r2 (tick isSameOrigin b id r1 st) = tick isSameOrigin b id r1 st.
Proof.
  intros b id r1 r2 st.
  destruct (find (fun t => Nat.eqb (timer_id t) id) (timers st)) as [t|] eqn:F.
  2:{ assert (T : tick isSameOrigin b id r1 st = st) by (unfold tick; now rewrite F).
      rewrite T. unfold tick. now rewrite F. }
  destruct (Bool.eqb (getIsLoggedIn b) (wasLoggedIn t)) eqn:E.
  - assert (T : tick isSameOrigin b id r1 st = st) by (unfold tick; now rewrite F, E).
    rewrite T. unfold tick. now rewrite F, E.
  - assert (F' : find (fun t => Nat.eqb (timer_id t) id)
                   (set_wasLoggedIn id (getIsLoggedIn b) (timers st))
                 = Some (mk_timer (timer_id t) (delay t) (getIsLoggedIn b))).
    { clear E. induction (timers st) as [|t0 ts IH]; [discriminate|].
      cbn [find set_wasLoggedIn map] in *.
      destruct (Nat.eqb (timer_id t0) id) eqn:E0.
      - inversion F; subst. cbn [timer_id]. now rewrite E0.
      - rewrite E0. now apply IH. }
    unfold tick at 2. rewrite F, E.
    unfold tick. cbn [timers]. rewrite F'. cbn [wasLoggedIn].
    rewrite Bool.eqb_reflx, F, E. reflexivity.
Qed.

(** X24.  The middleware never redirects off the origin: every
    [replace(url)] it has dispatched, after any actions and any timer
    callbacks, has a [url] that [isSameOrigin] accepts. *)
Theorem redirects_stay_on_the_origin :
  forall (hs : list happening) (url : string),
    In (replace url) (dispatched (run isSameOrigin resetActions hs created)) ->
    isSameOrigin url = true.
Proof.
  intros hs. apply replace_is_same_origin_run. intros url [].
Qed.

Lemma restart_timers (hs : list happening) (b : browser) (a : action) :
  let st := run isSameOrigin resetActions hs created in
  intervalId st = None \/ In (action_type a) resetActions ->
  timers (sessionMiddlware resetActions b a st)
  = [mk_timer (next_timer st) COOKIE_POOLING_TIMEOUT (getIsLoggedIn b)].
Proof.
  intros st R.
  assert (O : one_poll st) by (apply one_poll_run; left; split; reflexivity).
  assert (C : (match intervalId st with None => true | Some _ => false end
               || existsb (String.eqb (action_type a)) resetActions) = true).
  { destruct R as [-> | I]; [reflexivity|].
    apply orb_true_iff. right. apply existsb_exists.
    exists (action_type a). split; [exact I | apply String.eqb_refl]. }
  unfold sessionMiddlware. rewrite C. cbn [timers].
  destruct O as [[I E] | (t & E & I & D)]; rewrite I, E; cbn [clearInterval filter].
  - reflexivity.
  - now rewrite Nat.eqb_refl.
Qed.


(** X26.  After the middleware started polling on a page with the session
    cookie, the first callback that finds the cookie gone dispatches
    [logout] with the present location and [true], and nothing else.
    After it started on a page without the cookie, the first callback that
    finds the cookie dispatches [refreshSession], followed by
    [replace(redirect)] exactly when the refresh succeeded and the page has
    a [redirect] parameter that is same-origin, and nothing else. *)
Theorem first_change_after_restart :
  forall (hs : list happening) (b b' : browser) (a : action) (refreshed : bool),
    let st := run isSameOrigin resetActions hs created in
    let st' := sessionMiddlware resetActions b a st in
    intervalId st = None \/ In (action_type a) resetActions ->
    getIsLoggedIn b' <> getIsLoggedIn b ->
    dispatched (tick isSameOrigin b' (next_timer st) refreshed st')
    = (dispatched st
       ++ (if getIsLoggedIn b'
           then refreshSession
                :: (if refreshed
                    then match redirect_param b' with
                         | Some url => if isSameOrigin url then [replace url] else []
                         | None => []
                         end
                    else [])
           else [logout (location b') true]))%list.
Proof.
  intros hs b b' a refreshed st st' R D.
  pose proof (restart_timers hs b a R) as T. fold st in T. unfold tick. subst st'. rewrite T. cbn [find timer_id].
  rewrite Nat.eqb_refl. cbn [wasLoggedIn].
  destruct (Bool.eqb (getIsLoggedIn b') (getIsLoggedIn b)) eqn:E.
  - apply Bool.eqb_prop in E. now elim D.
  - cbn [dispatched]. rewrite (dispatched_middleware resetActions).
    unfold getRedirectUrl.
    destruct (getIsLoggedIn b'); [|reflexivity].
    destruct refreshed; [|reflexivity].
    destruct (redirect_param b') as [u|]; [|reflexivity].
    destruct (isSameOrigin u); reflexivity.
Qed.

End SessionTheorems.

Lemma redirects_stay_on_the_origin_witness :
  dispatched_after_login = [SessionMiddleware.refreshSession;
                            SessionMiddleware.replace "/dashboard/2"]
  /\ SessionMiddleware.same_site "/dashboard/2" = true.
Proof.
  split; [reflexivity|].
  refine (redirects_stay_on_the_origin SessionMiddleware.same_site ["LOGIN"]
            [SessionMiddleware.Action SessionMiddleware.logged_out
               (SessionMiddleware.mk_action "INIT" EmptyString);
             SessionMiddleware.Tick
               (SessionMiddleware.logged_in (Some "/dashboard/2")) 1 true]
            "/dashboard/2" _).
  right. left. reflexivity.
Defined.


Lemma first_change_after_restart_witness :
  SessionMiddleware.dispatched
    (SessionMiddleware.tick SessionMiddleware.same_site SessionMiddleware.logged_out 1 true
       (SessionMiddleware.sessionMiddlware ["LOGIN"] (SessionMiddleware.logged_in None)
          (SessionMiddleware.mk_action "INIT" EmptyString) SessionMiddleware.created))
  = [SessionMiddleware.logout "/dashboard/1?tab=2#top" true].
Proof.
  refine (first_change_after_restart SessionMiddleware.same_site ["LOGIN"] []
            (SessionMiddleware.logged_in None) SessionMiddleware.logged_out
            (SessionMiddleware.mk_action "INIT" EmptyString) true
            (or_introl eq_refl) _).
  discriminate.
Defined.

(** ** Properties of the editor of the condition rules *)

Section EditorFacts.

Import SmartScalar BigQueryConditions.

Variable text_is_nan : js -> bool.
Variable parses_greater : js -> js -> bool.
Variable text_of : js -> string.

Lemma keep_rules_sound (mode : js) (items kept : list js) :
  keep_rules text_is_nan parses_greater text_of mode items = Normal kept ->
  forall r, In r kept ->
            In r items /\ found text_is_nan parses_greater text_of mode r = Normal false.
Proof.
  revert kept. induction items as [|x items IH]; intros kept H r I.
  - inversion H; subst. destruct I.
  - cbn [keep_rules bind ret Monad_completion] in H.
    destruct (found _ _ _ mode x) as [dropped|] eqn:F; [|discriminate].
    destruct (keep_rules _ _ _ mode items) as [kept0|]; [|discriminate].
    inversion H; subst; clear H.
    destruct dropped.
    + destruct (IH _ eq_refl r I) as [I' F']. split; [now right | exact F'].
    + destruct I as [<- | I].
      * split; [now left | exact F].
      * destruct (IH _ eq_refl r I) as [I' F']. split; [now right | exact F'].
Qed.

Lemma found_false (mode r : js) :
  found text_is_nan parses_greater text_of mode r = Normal false ->
  exists s e c,
    member r "start" = Normal s /\ member r "end" = Normal e /\ member r "color" = Normal c
    /\ hex_test text_of c = true
    /\ parseFloat_gt parses_greater s e = false
    /\ (case_is mode "CUSTOM" = true ->
        isNaN text_is_nan s = false /\ isNaN text_is_nan e = false).
Proof.
  unfold found. cbn [bind ret Monad_completion].
  destruct (member r "start") as [s|]; [|discriminate].
  destruct (member r "end") as [e|]; [|discriminate].
  destruct (member r "color") as [c|]; [|discriminate].
  intros H. injection H as B.
  apply orb_false_iff in B. destruct B as [B HX].
  apply orb_false_iff in B. destruct B as [B PG].
  apply orb_false_iff in B. destruct B as [NS NE].
  exists s, e, c.
  split; [reflexivity|]. split; [reflexivity|]. split; [reflexivity|].
  split; [now apply negb_false_iff|]. split; [exact PG|].
  intros C. rewrite C, andb_true_r in NS, NE. now split.
Qed.

Lemma keep_rules_drops_all (items : list js) :
  (forall r, In r items ->
             exists fields, r = JObj fields
                            /\ (field_get "start" fields = JUndefined
                                \/ field_get "end" fields = JUndefined)) ->
  keep_rules text_is_nan parses_greater text_of (JStr "CUSTOM") items = Normal [].
Proof.
  induction items as [|x items IH]; intros H; [reflexivity|].
  cbn [keep_rules bind ret Monad_completion].
  destruct (H x (or_introl eq_refl)) as (fields & -> & U).
  assert (F : found text_is_nan parses_greater text_of (JStr "CUSTOM") (JObj fields)
              = Normal true).
  { unfold found. cbn [bind ret Monad_completion member].
    change (case_is (JStr "CUSTOM") "CUSTOM") with true.
    destruct U as [-> | ->]; cbn [isNaN andb orb]; [reflexivity|].
    rewrite andb_true_r. cbn [orb]. now rewrite orb_true_r. }
  rewrite F, IH; [reflexivity|]. intros r I. apply H. now right.
Qed.

Lemma splice_one_length (index : nat) (items : list js) :
  (index < List.length items)%nat ->
  List.length (splice_one index items) = Nat.pred (List.length items).
Proof.
  revert index. induction items as [|x items IH]; intros index L; [inversion L|].
  destruct index as [|i]; [reflexivity|].
  cbn [splice_one List.length] in *. rewrite IH by lia.
  destruct items; [cbn in L; lia | reflexivity].
Qed.

Lemma splice_one_objects (index : nat) (items : list js) :
  all_objects items -> all_objects (splice_one index items).
Proof.
  unfold all_objects. revert index.
  induction items as [|x items IH]; intros index A; [destruct index; constructor|].
  inversion A; subst. destruct index; [assumption|].
  cbn [splice_one]. constructor; auto.
Qed.

Lemma last_of_objects (items : list js) :
  all_objects items -> items <> [] ->
  exists fields, List.last items JUndefined = JObj fields.
Proof.
  unfold all_objects. induction items as [|x items IH]; intros A N; [now elim N|].
  destruct items as [|y items].
  - inversion A as [|? ? (f & E) _]. exists f. now rewrite E.
  - change (List.last (x :: y :: items) JUndefined) with (List.last (y :: items) JUndefined).
    apply IH; [now inversion A | discriminate].
Qed.

Lemma set_last_facts (v : js) (items : list js) :
  items <> [] ->
  List.length (set_last v items) = List.length items
  /\ List.last (set_last v items) JUndefined = v
  /\ removelast (set_last v items) = removelast items.
Proof.
  induction items as [|x items IH]; intros N; [now elim N|].
  destruct items as [|y items]; [repeat split|].
  destruct IH as (L & A & R); [discriminate|].
  change (set_last v (x :: y :: items)) with (x :: set_last v (y :: items)).
  repeat split.
  - cbn [List.length]. now rewrite L.
  - destruct (set_last v (y :: items)) eqn:E; [cbn in L; discriminate | exact A].
  - destruct (set_last v (y :: items)) eqn:E; [cbn in L; discriminate|].
    change (removelast (x :: j :: l)) with (x :: removelast (j :: l)).
    rewrite R. reflexivity.
Qed.

Lemma field_get_set_same (name : string) (v : js) (fields : list (string * js)) :
  field_get name (set_field name v fields) = v.
Proof.
  induction fields as [|[n x] fields IH]; cbn [set_field field_get].
  - now rewrite String.eqb_refl.
  - destruct (String.eqb n name) eqn:E; cbn [field_get]; rewrite E; [reflexivity | exact IH].
Qed.

Lemma field_get_set_other (name other : string) (v : js) (fields : list (string * js)) :
  other <> name ->
  field_get other (set_field name v fields) = field_get other fields.
Proof.
  intros D. induction fields as [|[n x] fields IH]; cbn [set_field field_get].
  - destruct (String.eqb_spec name other); [congruence | reflexivity].
  - destruct (String.eqb_spec n name) as [-> | N]; cbn [field_get].
    + destruct (String.eqb_spec name other); [congruence | reflexivity].
    + destruct (String.eqb n other); [reflexivity | exact IH].
Qed.

Lemma filter_app_blank (items : list js) :
  filter complete_rule (items ++ [blank_rule]) = filter complete_rule items.
Proof. rewrite filter_app. cbn. apply app_nil_r. Qed.

End EditorFacts.

(** X27.  The state the constructor of the editor sets always ends with the
    blank rule, so it never has an empty list of rules, and its mode is
    never empty.  Every rule before the blank one comes from
    [props.value.rules], has a color of the form [#RRGGBB], has no start
    that parses greater than its end, and, in CUSTOM mode, has a start and
    an end that are numbers.  The blank rule is not complete, so the
    renderer sees the kept rules only. *)
Theorem constructor_keeps_valid_rules_and_adds_a_blank :
  forall (text_is_nan : SmartScalar.js -> bool)
         (parses_greater : SmartScalar.js -> SmartScalar.js -> bool)
         (text_of : SmartScalar.js -> string)
         (value : SmartScalar.js) (st : BigQueryConditions.editor_state),
    BigQueryConditions.constructor text_is_nan parses_greater text_of value
    = SmartScalar.Normal st ->
    SmartScalar.to_boolean (BigQueryConditions.mode st) = true
    /\ exists kept,
         BigQueryConditions.rules st = (kept ++ [BigQueryConditions.blank_rule])%list
         /\ filter complete_rule (BigQueryConditions.rules st) = filter complete_rule kept
         /\ forall r, In r kept ->
              (exists vfields items,
                  value = SmartScalar.JObj vfields
                  /\ SmartScalar.field_get "rules" vfields = SmartScalar.JArr items
                  /\ In r items)
              /\ exists s e c,
                   SmartScalar.member r "start" = SmartScalar.Normal s
                   /\ SmartScalar.member r "end" = SmartScalar.Normal e
                   /\ SmartScalar.member r "color" = SmartScalar.Normal c
                   /\ BigQueryConditions.hex_test text_of c = true
                   /\ BigQueryConditions.parseFloat_gt parses_greater s e = false
                   /\ (SmartScalar.case_is (BigQueryConditions.mode st) "CUSTOM" = true ->
                       BigQueryConditions.isNaN text_is_nan s = false
                       /\ BigQueryConditions.isNaN text_is_nan e = false).
Proof.
  intros text_is_nan parses_greater text_of value st.
  unfold BigQueryConditions.constructor.
  destruct (SmartScalar.to_boolean value) eqn:TV.
  2:{ cbn [bind ret SmartScalar.Monad_completion]. intros H. inversion H; subst; clear H.
      split; [reflexivity|]. exists []. split; [reflexivity|]. split; [reflexivity|].
      intros r []. }
  destruct value as [| |b|z|s|items|vfields]; try discriminate;
    cbn [bind ret SmartScalar.Monad_completion SmartScalar.member SmartScalar.to_boolean];
    try (intros H; inversion H; subst; clear H;
         split; [reflexivity|]; exists []; split; [reflexivity|]; split; [reflexivity|];
         intros r []).
  set (m := SmartScalar.field_get "mode" vfields).
  set (md := if SmartScalar.to_boolean m then m else SmartScalar.JStr "CUSTOM").
  assert (MD : SmartScalar.to_boolean md = true).
  { subst md. destruct (SmartScalar.to_boolean m) eqn:E; [exact E | reflexivity]. }
  destruct (SmartScalar.to_boolean (SmartScalar.field_get "rules" vfields)) eqn:TR.
  2:{ intros H. inversion H; subst; clear H.
      split; [exact MD|]. exists []. split; [reflexivity|]. split; [reflexivity|].
      intros r []. }
  destruct (SmartScalar.field_get "rules" vfields) as [| |b|z|s|items|rf] eqn:R;
    try discriminate.
  destruct (BigQueryConditions.keep_rules _ _ _ md items) as [kept|] eqn:K; [|discriminate].
  intros H. inversion H; subst; clear H. cbn [BigQueryConditions.mode BigQueryConditions.rules].
  split; [exact MD|]. exists kept. split; [reflexivity|].
  split; [apply filter_app_blank|].
  intros r I.
  destruct (keep_rules_sound text_is_nan parses_greater text_of md items kept K r I)
    as [I' F].
  split; [exists vfields, items; auto|].
  exact (found_false text_is_nan parses_greater text_of md r F).
Qed.

Lemma constructor_keeps_valid_rules_and_adds_a_blank_witness :
  BigQueryConditions.constructor (fun _ => false) (fun _ _ => false) (fun _ => EmptyString)
    (SmartScalar.JObj
       [("mode", SmartScalar.JStr "RANGE");
        ("rules", SmartScalar.JArr
                    [SmartScalar.JObj [("color", SmartScalar.JStr "#00ff00")];
                     SmartScalar.JObj [("color", SmartScalar.JStr "green")]])])
  = SmartScalar.Normal
      (BigQueryConditions.mk_editor
         [SmartScalar.JObj [("color", SmartScalar.JStr "#00ff00")];
          BigQueryConditions.blank_rule]
         (SmartScalar.JStr "RANGE"))
  /\ SmartScalar.to_boolean (SmartScalar.JStr "RANGE") = true.
Proof.
  split; [reflexivity|].
  exact (proj1 (constructor_keeps_valid_rules_and_adds_a_blank
                  (fun _ => false) (fun _ _ => false) (fun _ => EmptyString)
                  (SmartScalar.JObj
                     [("mode", SmartScalar.JStr "RANGE");
                      ("rules", SmartScalar.JArr
                                  [SmartScalar.JObj [("color", SmartScalar.JStr "#00ff00")];
                                   SmartScalar.JObj [("color", SmartScalar.JStr "green")]])])
                  (BigQueryConditions.mk_editor
                     [SmartScalar.JObj [("color", SmartScalar.JStr "#00ff00")];
                      BigQueryConditions.blank_rule]
                     (SmartScalar.JStr "RANGE"))
                  eq_refl)).
Defined.

(** X28.  In CUSTOM mode, which is also the mode when [props.value] names
    none, the constructor drops every rule that has no [start] or no [end],
    because [isNaN(undefined)] holds.  A value whose rules are all of that
    kind, as are the rules this editor writes (they hold [condition],
    [value], [color], [condition2] and [value2]), gives an editor with the
    blank rule alone. *)
Theorem custom_mode_drops_rules_without_bounds :
  forall (text_is_nan : SmartScalar.js -> bool)
         (parses_greater : SmartScalar.js -> SmartScalar.js -> bool)
         (text_of : SmartScalar.js -> string)
         (vfields : list (string * SmartScalar.js)) (items : list SmartScalar.js),
    SmartScalar.field_get "rules" vfields = SmartScalar.JArr items ->
    SmartScalar.to_boolean (SmartScalar.field_get "mode" vfields) = false
    \/ SmartScalar.field_get "mode" vfields = SmartScalar.JStr "CUSTOM" ->
    (forall r, In r items ->
               exists fields,
                 r = SmartScalar.JObj fields
                 /\ (SmartScalar.field_get "start" fields = SmartScalar.JUndefined
                     \/ SmartScalar.field_get "end" fields = SmartScalar.JUndefined)) ->
    BigQueryConditions.constructor text_is_nan parses_greater text_of
      (SmartScalar.JObj vfields)
    = SmartScalar.Normal
        (BigQueryConditions.mk_editor [BigQueryConditions.blank_rule]
           (SmartScalar.JStr "CUSTOM")).
Proof.
  intros text_is_nan parses_greater text_of vfields items R M U.
  unfold BigQueryConditions.constructor.
  cbn [bind ret SmartScalar.Monad_completion SmartScalar.member SmartScalar.to_boolean].
  assert (MD : (if SmartScalar.to_boolean (SmartScalar.field_get "mode" vfields)
                then SmartScalar.field_get "mode" vfields
                else SmartScalar.JStr "CUSTOM") = SmartScalar.JStr "CUSTOM").
  { destruct M as [-> | ->]; reflexivity. }
  rewrite MD, R. cbn [SmartScalar.to_boolean].
  rewrite (keep_rules_drops_all text_is_nan parses_greater text_of items U).
  reflexivity.
Qed.

Lemma custom_mode_drops_rules_without_bounds_witness :
  BigQueryConditions.constructor (fun _ => false) (fun _ _ => false) (fun _ => EmptyString)
    (SmartScalar.JObj
       [("rules", SmartScalar.JArr
                    [SmartScalar.JObj [("condition", SmartScalar.JStr "Is Less than");
                                       ("value", SmartScalar.JStr "5");
                                       ("color", SmartScalar.JStr "#00FF00");
                                       ("condition2", SmartScalar.JStr "Is Less than")];
                     BigQueryConditions.blank_rule])])
  = SmartScalar.Normal
      (BigQueryConditions.mk_editor [BigQueryConditions.blank_rule]
         (SmartScalar.JStr "CUSTOM")).
Proof.
  refine (custom_mode_drops_rules_without_bounds
            (fun _ => false) (fun _ _ => false) (fun _ => EmptyString)
            [("rules", SmartScalar.JArr
                         [SmartScalar.JObj [("condition", SmartScalar.JStr "Is Less than");
                                            ("value", SmartScalar.JStr "5");
                                            ("color", SmartScalar.JStr "#00FF00");
                                            ("condition2", SmartScalar.JStr "Is Less than")];
                          BigQueryConditions.blank_rule])]
            _ eq_refl (or_introl eq_refl) _).
  intros r [<- | [<- | []]]; eexists; split; try reflexivity; left; reflexivity.
Defined.

(** X29.  [addCondition] either alerts, with "Invalid end" or "Invalid
    Color", and leaves the state as it is, or appends exactly one blank
    rule, keeps the mode, and hands the new rules with the mode to
    [onChange]; it does the latter only when the last rule has a color of
    the form [#RRGGBB].  As the blank rule is not complete, adding a
    condition never changes which rules the renderer looks at. *)
Theorem add_condition_appends_a_blank_rule :
  forall (text_is_nan : SmartScalar.js -> bool) (text_of : SmartScalar.js -> string)
         (st : BigQueryConditions.editor_state) (out : BigQueryConditions.outcome),
    BigQueryConditions.addCondition text_is_nan text_of st = SmartScalar.Normal out ->
    match out with
    | BigQueryConditions.Alerted message =>
        message = "Invalid end" \/ message = "Invalid Color"
    | BigQueryConditions.Changed st' payload =>
        BigQueryConditions.rules st'
        = (BigQueryConditions.rules st ++ [BigQueryConditions.blank_rule])%list
        /\ BigQueryConditions.mode st' = BigQueryConditions.mode st
        /\ payload = SmartScalar.JObj
                       [("rules", SmartScalar.JArr (BigQueryConditions.rules st'));
                        ("mode", BigQueryConditions.mode st)]
        /\ filter complete_rule (BigQueryConditions.rules st')
           = filter complete_rule (BigQueryConditions.rules st)
        /\ exists c,
             SmartScalar.member (List.last (BigQueryConditions.rules st) SmartScalar.JUndefined)
               "color" = SmartScalar.Normal c
             /\ BigQueryConditions.hex_test text_of c = true
    end.
Proof.
  intros text_is_nan text_of st out. unfold BigQueryConditions.addCondition.
  cbv zeta. cbn [bind ret SmartScalar.Monad_completion].
  destruct (SmartScalar.member _ "value") as [v|]; [|discriminate].
  destruct (_ && _).
  - intros H. inversion H. now left.
  - destruct (SmartScalar.member _ "color") as [c|] eqn:C; [|discriminate].
    destruct (BigQueryConditions.hex_test text_of c) eqn:HX; cbn [negb].
    + intros H. inversion H; subst; clear H.
      cbn [BigQueryConditions.rules BigQueryConditions.mode].
      repeat split; [apply filter_app_blank|]. eauto.
    + intros H. inversion H. now right.
Qed.

Lemma add_condition_appends_a_blank_rule_witness :
  BigQueryConditions.rules
    (BigQueryConditions.mk_editor
       [SmartScalar.JObj [("value", SmartScalar.JNum 5);
                          ("color", SmartScalar.JStr "#00FF00")];
        BigQueryConditions.blank_rule] (SmartScalar.JStr "CUSTOM"))
  = (BigQueryConditions.rules
       (BigQueryConditions.mk_editor
          [SmartScalar.JObj [("value", SmartScalar.JNum 5);
                             ("color", SmartScalar.JStr "#00FF00")]]
          (SmartScalar.JStr "CUSTOM"))
     ++ [BigQueryConditions.blank_rule])%list.
Proof.
  exact (proj1 (add_condition_appends_a_blank_rule (fun _ => false) (fun _ => EmptyString)
                  (BigQueryConditions.mk_editor
                     [SmartScalar.JObj [("value", SmartScalar.JNum 5);
                                        ("color", SmartScalar.JStr "#00FF00")]]
                     (SmartScalar.JStr "CUSTOM"))
                  (BigQueryConditions.Changed
                     (BigQueryConditions.mk_editor
                        [SmartScalar.JObj [("value", SmartScalar.JNum 5);
                                           ("color", SmartScalar.JStr "#00FF00")];
                         BigQueryConditions.blank_rule] (SmartScalar.JStr "CUSTOM"))
                     (SmartScalar.JObj
                        [("rules", SmartScalar.JArr
                                     [SmartScalar.JObj [("value", SmartScalar.JNum 5);
                                                        ("color", SmartScalar.JStr "#00FF00")];
                                      BigQueryConditions.blank_rule]);
                         ("mode", SmartScalar.JStr "CUSTOM")]))
                  eq_refl)).
Defined.

(** X30.  [removeCondition(index)], for an index that has a Remove button
    (any row but the last) in an editor whose rules are objects: the row is
    removed, so one rule fewer remains and at least one does; the mode is
    kept; and the color and the value of the {e last} remaining rule are
    set to the empty string, whichever row was removed, every other rule
    staying as it was.  The last rule is then not complete, so the renderer
    skips it; [onChange] gets the rules without the mode. *)
Theorem remove_condition_blanks_the_last_rule :
  forall (index : nat) (st : BigQueryConditions.editor_state),
    BigQueryConditions.all_objects (BigQueryConditions.rules st) ->
    (index < Nat.pred (List.length (BigQueryConditions.rules st)))%nat ->
    exists st' fields,
      BigQueryConditions.removeCondition index st
      = SmartScalar.Normal
          (st', SmartScalar.JObj [("rules", SmartScalar.JArr (BigQueryConditions.rules st'))])
      /\ BigQueryConditions.mode st' = BigQueryConditions.mode st
      /\ List.length (BigQueryConditions.rules st')
         = Nat.pred (List.length (BigQueryConditions.rules st))
      /\ BigQueryConditions.rules st' <> []
      /\ removelast (BigQueryConditions.rules st')
         = removelast (BigQueryConditions.splice_one index (BigQueryConditions.rules st))
      /\ List.last (BigQueryConditions.rules st') SmartScalar.JUndefined
         = SmartScalar.JObj fields
      /\ SmartScalar.field_get "color" fields = SmartScalar.JStr EmptyString
      /\ SmartScalar.field_get "value" fields = SmartScalar.JStr EmptyString
      /\ complete_rule (SmartScalar.JObj fields) = false.
Proof.
  intros index st A L.
  pose proof (splice_one_length index (BigQueryConditions.rules st)) as SL.
  pose proof (splice_one_objects index _ A) as SA.
  assert (N : BigQueryConditions.splice_one index (BigQueryConditions.rules st) <> []).
  { intros E. rewrite E in SL. cbn in SL. lia. }
  destruct (last_of_objects _ SA N) as [f LF].
  unfold BigQueryConditions.removeCondition. cbv zeta. rewrite LF.
  set (blanked := SmartScalar.JObj
                    (BigQueryConditions.set_field "value" (SmartScalar.JStr EmptyString)
                       (BigQueryConditions.set_field "color" (SmartScalar.JStr EmptyString) f))).
  destruct (set_last_facts blanked _ N) as (SLen & SLast & SRem).
  exists (BigQueryConditions.mk_editor
            (BigQueryConditions.set_last blanked
               (BigQueryConditions.splice_one index (BigQueryConditions.rules st)))
            (BigQueryConditions.mode st)).
  exists (BigQueryConditions.set_field "value" (SmartScalar.JStr EmptyString)
            (BigQueryConditions.set_field "color" (SmartScalar.JStr EmptyString) f)).
  cbn [BigQueryConditions.rules BigQueryConditions.mode].
  assert (C : SmartScalar.field_get "color"
                (BigQueryConditions.set_field "value" (SmartScalar.JStr EmptyString)
                   (BigQueryConditions.set_field "color" (SmartScalar.JStr EmptyString) f))
              = SmartScalar.JStr EmptyString).
  { rewrite field_get_set_other by discriminate. apply field_get_set_same. }
  split; [reflexivity|]. split; [reflexivity|].
  split; [rewrite SLen; apply SL; lia|].
  split; [intros E; rewrite E in SLen; cbn in SLen;
          destruct (BigQueryConditions.splice_one index (BigQueryConditions.rules st));
          [now elim N | discriminate]|].
  split; [exact SRem|]. split; [exact SLast|]. split; [exact C|].
  split; [apply field_get_set_same|].
  unfold complete_rule. rewrite C. cbn. now rewrite !andb_false_r.
Qed.

Lemma remove_condition_blanks_the_last_rule_witness :
  exists st' fields,
    BigQueryConditions.removeCondition 0
      (BigQueryConditions.mk_editor
         [SmartScalar.JObj [("color", SmartScalar.JStr "#00FF00")];
          SmartScalar.JObj [("color", SmartScalar.JStr "#FF0000");
                            ("value", SmartScalar.JStr "7")]]
         (SmartScalar.JStr "CUSTOM"))
    = SmartScalar.Normal
        (st', SmartScalar.JObj [("rules", SmartScalar.JArr (BigQueryConditions.rules st'))])
    /\ List.last (BigQueryConditions.rules st') SmartScalar.JUndefined
       = SmartScalar.JObj fields
    /\ SmartScalar.field_get "color" fields = SmartScalar.JStr EmptyString.
Proof.
  destruct (remove_condition_blanks_the_last_rule 0
              (BigQueryConditions.mk_editor
                 [SmartScalar.JObj [("color", SmartScalar.JStr "#00FF00")];
                  SmartScalar.JObj [("color", SmartScalar.JStr "#FF0000");
                                    ("value", SmartScalar.JStr "7")]]
                 (SmartScalar.JStr "CUSTOM")))
    as (st' & fields & R & _ & _ & _ & _ & LF & C & _).
  - repeat constructor; eexists; reflexivity.
  - cbn. lia.
  - exists st', fields. auto.
Defined.
